(** * CosmicOptic backend: light-curve synthesis, classification and attribution

    A shallow embedding of [backend/services/data_generator.py],
    [backend/services/explainer.py], [backend/services/prediction.py] and
    [backend/main.py].

    Python floats are binary64 numbers.  The services are written once
    against the arithmetic interface [Arith]; the interface has two
    instances:
    - [Q_arith], exact rational arithmetic (no rounding, no NaN, no
      infinity; a value is out of the range of a float from the magnitude
      on that rounds to an infinity), used for the statements that read the
      formulas of the code as formulas over the reals;
    - [B64_arith], the kernel's binary64 floats, used where rounding, NaN
      or infinity decide the matter.

    Library functions that have no finite description here (exp, sin, pi,
    the Mersenne-Twister Gaussian draw, [%.1f] formatting) are section
    variables of the code that calls them. *)

From Stdlib Require Import ZArith QArith Qround Qabs Qminmax Floats List Bool Lia Lqa String Ascii.
From Stdlib Require Import DecimalString Sorting.Sorted.
Import ListNotations.

Set Implicit Arguments.

(** ** Arithmetic interface *)

Class Arith (F : Type) : Type := {
  of_Z   : Z -> F;            (* float(n) for a Python int n *)
  fadd   : F -> F -> F;
  fsub   : F -> F -> F;
  fmul   : F -> F -> F;
  fdiv   : F -> F -> F;       (* IEEE division, as numpy performs it *)
  fabs   : F -> F;
  flt    : F -> F -> bool;    (* x < y *)
  feq    : F -> F -> bool;    (* x == y *)
  is_nan : F -> bool;
  is_inf : F -> bool;
  overflows : F -> bool;      (* the result is out of the range of a float *)
  ffloor : F -> Z;            (* int(floor(x)) of a finite x *)
  fmod   : F -> F -> F        (* x % y, the result has the sign of y *)
}.

Declare Scope arith_scope.
Delimit Scope arith_scope with ar.
Infix "+" := fadd : arith_scope.
Infix "-" := fsub : arith_scope.
Infix "*" := fmul : arith_scope.
Infix "/" := fdiv : arith_scope.
Infix "<?" := flt : arith_scope.
Infix "=?" := feq : arith_scope.

Section ArithDerived.
Context {F : Type} {A : Arith F}.
Local Open Scope arith_scope.

(** A decimal literal [p/q] of the source: the binary64 value nearest to
    it (the quotient of two exactly represented integers, rounded once). *)
Definition lit (q : Q) : F := of_Z (Qnum q) / of_Z (Zpos (Qden q)).

Definition of_nat (n : nat) : F := of_Z (Z.of_nat n).

Definition fgt (x y : F) : bool := y <? x.
Definition fneg (x : F) : F := of_Z 0 - x.

(** Python's [min(a, b)] and [max(a, b)]: the first argument unless the
    second is strictly smaller (larger). *)
Definition py_min (a b : F) : F := if b <? a then b else a.
Definition py_max (a b : F) : F := if a <? b then b else a.

(** [x ** n] for a natural exponent. *)
Fixpoint fpow (x : F) (n : nat) : F :=
  match n with
  | O => of_Z 1
  | S k => x * fpow x k
  end.
End ArithDerived.

(** *** Exact rationals *)

(** The magnitude from which a real number rounds to an infinity in
    binary64: half an ulp above the largest float [2^1024 - 2^971]. *)
Definition overflow_threshold : Q := inject_Z (2 ^ 1024 - 2 ^ 970).

(** [x % y = x - y * floor(x / y)]. *)
Definition Qmod (x y : Q) : Q := x - y * inject_Z (Qfloor (x / y)).

#[export] Instance Q_arith : Arith Q := {|
  of_Z := inject_Z;
  fadd := Qplus;
  fsub := Qminus;
  fmul := Qmult;
  fdiv := Qdiv;
  fabs := Qabs;
  flt := fun x y => negb (Qle_bool y x);
  feq := Qeq_bool;
  is_nan := fun _ => false;
  is_inf := fun _ => false;
  overflows := fun x => Qle_bool overflow_threshold (Qabs x);
  ffloor := Qfloor;
  fmod := Qmod
|}.

(** *** binary64 *)

Module B64.
(** [float(z)]: the integer rounded to the nearest binary64 value. *)
Definition of_Z (z : Z) : float :=
  SF2Prim (SpecFloat.binary_normalize FloatOps.prec FloatOps.emax z 0 false).

(** [int(floor(x))]: the value of a finite float is [(-1)^s * m * 2^e]. *)
Definition floor (x : float) : Z :=
  match Prim2SF x with
  | SpecFloat.S754_finite s m e =>
      let sm := if s then Zneg m else Zpos m in
      if (0 <=? e)%Z then (sm * 2 ^ e)%Z else (sm / 2 ^ (- e))%Z
  | _ => 0%Z
  end.

Definition copysign0 (y : float) : float :=
  if PrimFloat.ltb y PrimFloat.zero then PrimFloat.neg_zero
  else match Prim2SF y with
       | SpecFloat.S754_zero true => PrimFloat.neg_zero
       | _ => PrimFloat.zero
       end.

(** Python's and numpy's float remainder [x % y]: C's exact [fmod],
    then moved to the sign of the divisor; NaN when [y] is zero (the
    numpy behaviour; a Python-level [%] by zero raises instead, which the
    callers below model where it can happen). *)
Definition fmod (x y : float) : float :=
  match Prim2SF x, Prim2SF y with
  | SpecFloat.S754_nan, _ | _, SpecFloat.S754_nan => PrimFloat.nan
  | SpecFloat.S754_infinity _, _ => PrimFloat.nan
  | _, SpecFloat.S754_zero _ => PrimFloat.nan
  | SpecFloat.S754_zero _, _ => copysign0 y
  | SpecFloat.S754_finite sx _ _, SpecFloat.S754_infinity sy =>
      if Bool.eqb sx sy then x else PrimFloat.add x y
  | SpecFloat.S754_finite sx mx ex, SpecFloat.S754_finite sy my ey =>
      let e := Z.min ex ey in
      let X := (Zpos mx * 2 ^ (ex - e))%Z in
      let Y := (Zpos my * 2 ^ (ey - e))%Z in
      let r := (X mod Y)%Z in
      if (r =? 0)%Z then copysign0 y
      else
        let m := Z.ldexp (of_Z (if sx then (- r)%Z else r)) e in
        if Bool.eqb sx sy then m else PrimFloat.add m y
  end.
End B64.

#[export] Instance B64_arith : Arith float := {|
  of_Z := B64.of_Z;
  fadd := PrimFloat.add;
  fsub := PrimFloat.sub;
  fmul := PrimFloat.mul;
  fdiv := PrimFloat.div;
  fabs := PrimFloat.abs;
  flt := PrimFloat.ltb;
  feq := PrimFloat.eqb;
  is_nan := PrimFloat.is_nan;
  is_inf := PrimFloat.is_infinity;
  overflows := PrimFloat.is_infinity;
  ffloor := B64.floor;
  fmod := B64.fmod
|}.

(** ** Exceptions *)

Inductive exn : Type :=
| ZeroDivisionError
| OverflowError
| IndexError
| ValueError (msg : string).

Definition result (T : Type) : Type := (exn + T)%type.

Definition ok {T} (x : T) : result T := inr x.
Definition raise {T} (e : exn) : result T := inl e.
Definition rbind {T U} (r : result T) (k : T -> result U) : result U :=
  match r with
  | inl e => inl e
  | inr x => k x
  end.

Notation "x <- r ;; k" := (rbind r (fun x => k))
  (at level 61, r at next level, right associativity).
Notation "' pat <- r ;; k" := (rbind r (fun x => match x with pat => k end))
  (at level 61, pat pattern, r at next level, right associativity).

(** ** numpy arrays

    A one-dimensional [ndarray] of floats is a list. *)

Section Numpy.
Context {F : Type} {A : Arith F}.
Local Open Scope arith_scope.

Definition np_ones (n : nat) : list F := repeat (of_Z 1) n.
Definition np_zeros (n : nat) : list F := repeat (of_Z 0) n.

(** Elementwise operation of two arrays of one shape. *)
Fixpoint map2 (f : F -> F -> F) (a b : list F) : list F :=
  match a, b with
  | x :: a', y :: b' => f x y :: map2 f a' b'
  | _, _ => []
  end.

(** [a[-1] = v] on a non-empty array. *)
Fixpoint set_last (a : list F) (v : F) : list F :=
  match a with
  | [] => []
  | [_] => [v]
  | x :: a' => x :: set_last a' v
  end.

(** [a[i] = f(a[i])] for an index inside the array. *)
Fixpoint update_at (a : list F) (i : nat) (f : F -> F) : list F :=
  match a, i with
  | [], _ => []
  | x :: a', O => f x :: a'
  | x :: a', S j => x :: update_at a' j f
  end.

(** [np.linspace(start, stop, num)] with the default [endpoint=True]:
    [arange(num) * step + start] with [step = (stop - start) / (num - 1)],
    and the last element set to [stop] when [num > 1]. *)
Definition np_linspace (start stop : F) (num : nat) : list F :=
  let div := (num - 1)%nat in
  let delta := stop - start in
  let y := map of_nat (seq 0 num) in
  let y :=
    if (0 <? div)%nat then
      let step := delta / of_nat div in
      if step =? of_Z 0
      then map (fun v => v / of_nat div * delta) y
      else map (fun v => v * step) y
    else map (fun v => v * delta) y in
  let y := map (fun v => v + start) y in
  if (1 <? num)%nat then set_last y stop else y.

(** NaN, as [0.0 / 0.0] produces it. *)
Definition nan_value : F := of_Z 0 / of_Z 0.

(** The largest finite binary64 value, [np.finfo(float).max]. *)
Definition float_max : F := of_Z (2 ^ 1024 - 2 ^ 971).

Definition np_abs (a : list F) : list F := map fabs a.

(** [np.sum]; the additions are taken left to right. *)
Definition np_sum (a : list F) : F := fold_left fadd a (of_Z 0).

(** [np.mean]: NaN ([0/0]) on an empty array. *)
Definition np_mean (a : list F) : F := np_sum a / of_nat (List.length a).

(** [np.max]: raises on an empty array, NaN as soon as one entry is. *)
Definition np_max (a : list F) : result F :=
  match a with
  | [] => raise (ValueError
            "zero-size array to reduction operation maximum which has no identity")
  | x :: a' =>
      if existsb is_nan a then ok nan_value
      else ok (fold_left py_max a' x)
  end.

(** [np.clip(x, lo, hi)] on one entry: NaN stays NaN. *)
Definition clip1 (lo hi x : F) : F :=
  if is_nan x then x
  else if x <? lo then lo
  else if hi <? x then hi
  else x.

(** [np.nan_to_num(x, nan, posinf, neginf)] on one entry. *)
Definition nan_to_num1 (nan posinf neginf x : F) : F :=
  if is_nan x then nan
  else if is_inf x then (if of_Z 0 <? x then posinf else neginf)
  else x.

(** Ascending sort of an array without NaN. *)
Fixpoint insert_asc (x : F) (l : list F) : list F :=
  match l with
  | [] => [x]
  | y :: l' => if x <? y then x :: l else y :: insert_asc x l'
  end.
Definition np_sort (a : list F) : list F := fold_right insert_asc [] a.

(** [a[i]] for a Python index: negative indices count from the end. *)
Definition py_index (a : list F) (i : Z) : result F :=
  let n := Z.of_nat (List.length a) in
  let j := if (i <? 0)%Z then (i + n)%Z else i in
  if (j <? 0)%Z then raise IndexError
  else match nth_error a (Z.to_nat j) with
       | Some x => ok x
       | None => raise IndexError
       end.

(** numpy's [_lerp(a, b, t)]. *)
Definition lerp (a b t : F) : F :=
  let diff_b_a := b - a in
  if t <? lit 0.5 then a + diff_b_a * t
  else if is_nan t then a + diff_b_a * t
  else b - diff_b_a * (of_Z 1 - t).

(** [np.percentile(a, q)] with the default linear interpolation: the
    virtual index [(n - 1) * (q / 100)] is split into its floor and its
    fraction.  An empty array is an [IndexError]; a NaN anywhere gives
    NaN. *)
Definition np_percentile (a : list F) (q : F) : result F :=
  match a with
  | [] => raise IndexError
  | _ :: _ =>
      if existsb is_nan a then ok nan_value
      else
        let arr := np_sort a in
        let values_count := List.length a in
        let virtual_index := of_nat (values_count - 1) * (q / of_Z 100) in
        let fl := ffloor virtual_index in
        let above := negb (virtual_index <? of_nat (values_count - 1)) in
        let below := virtual_index <? of_Z 0 in
        let previous_index :=
          if below then 0%Z else if above then (-1)%Z else fl in
        let next_index :=
          if below then 0%Z else if above then (-1)%Z else (fl + 1)%Z in
        let gamma := virtual_index - of_Z previous_index in
        previous <- py_index arr previous_index ;;
        next <- py_index arr next_index ;;
        ok (lerp previous next gamma)
  end.

(** [np.median]: the mean of the middle entries of the sorted array; NaN
    on an empty array or when an entry is NaN. *)
Definition np_median (a : list F) : F :=
  if existsb is_nan a then nan_value
  else
    let arr := np_sort a in
    let n := List.length a in
    if Nat.even n
    then np_mean (firstn 2 (skipn (n / 2 - 1) arr))
    else np_mean (firstn 1 (skipn (n / 2) arr)).

(** In-place [a += b] ([op = fadd]) or [a -= b] ([op = fsub]) of
    one-dimensional arrays: [b] must have the shape of [a] or be of length
    one. *)
Definition np_inplace (op : F -> F -> F) (a b : list F) : result (list F) :=
  if (List.length b =? List.length a)%nat then ok (map2 op a b)
  else match b with
       | [y] => ok (map (fun x => op x y) a)
       | _ => raise (ValueError "operands could not be broadcast together")
       end.

(** [np.convolve(a, v, mode='same')]: the longer argument is [a]; entry
    [i] of the result is entry [i + (len(v) - 1) // 2] of the full
    convolution. *)
Definition np_convolve_same (a v : list F) : list F :=
  let (a, v) :=
    if (List.length a <? List.length v)%nat then (v, a) else (a, v) in
  let n1 := List.length a in
  let n2 := List.length v in
  let off := ((n2 - 1) / 2)%nat in
  map (fun i : nat =>
         np_sum
           (map (fun j : nat =>
                   let m := (Z.of_nat i + Z.of_nat off - Z.of_nat j)%Z in
                   if ((0 <=? m) && (m <? Z.of_nat n1))%Z
                   then nth (Z.to_nat m) a (of_Z 0) * nth j v (of_Z 0)
                   else of_Z 0)
                (seq 0 n2)))
      (seq 0 n1).
End Numpy.

(** ** State and exceptions

    The only state the services share is numpy's global random generator
    ([np.random]).  A computation takes the generator's state and returns
    a value or a raised exception, with the state it leaves behind. *)

Section StateExn.
Variable S : Type.

Definition M (T : Type) : Type := S -> result T * S.

Definition mret {T} (x : T) : M T := fun s => (ok x, s).
Definition mraise {T} (e : exn) : M T := fun s => (raise e, s).
Definition mlift {T} (r : result T) : M T := fun s => (r, s).
Definition mbind {T U} (c : M T) (k : T -> M U) : M U :=
  fun s => match c s with
           | (inl e, s') => (inl e, s')
           | (inr x, s') => k x s'
           end.
End StateExn.

Arguments mret {S T} x.
Arguments mraise {S T} e.
Arguments mlift {S T} r.

Notation "x <~ c ;; k" := (mbind c (fun x => k))
  (at level 61, c at next level, right associativity).
Notation "' pat <~ c ;; k" := (mbind c (fun x => match x with pat => k end))
  (at level 61, pat pattern, c at next level, right associativity).

(** Python's [a / b] on floats raises on a zero divisor. *)
Definition py_truediv {F} {A : Arith F} (a b : F) : result F :=
  if feq b (of_Z 0) then raise ZeroDivisionError else ok (fdiv a b).

(** Python's [x ** n] on a float, for a natural [n]: [OverflowError] when
    the power of a finite [x] is out of the range of a float; an infinite
    [x] gives the infinite power and NaN gives NaN. *)
Definition py_pow {F} {A : Arith F} (x : F) (n : nat) : result F :=
  if negb (is_inf x) && overflows (fpow x n) then raise OverflowError
  else ok (fpow x n).

Section Random.
Context {F : Type} {A : Arith F}.
Variable rng_state : Type.
(** One standard Gaussian draw of the legacy generator. *)
Variable legacy_gauss : rng_state -> F * rng_state.
Local Open Scope arith_scope.

(** [np.random.normal(loc, scale, size)]: [size] successive draws
    [loc + scale * gauss()]. *)
Fixpoint np_random_normal (loc scale : F) (size : nat) (s : rng_state)
  : list F * rng_state :=
  match size with
  | O => ([], s)
  | Datatypes.S k =>
      let (z, s1) := legacy_gauss s in
      let (rest, s2) := np_random_normal loc scale k s1 in
      (loc + scale * z :: rest, s2)
  end.

Definition random_normal (loc scale : F) (size : nat) : M rng_state (list F) :=
  fun s => let (a, s') := np_random_normal loc scale size s in (ok a, s').
End Random.

(** ** services/data_generator.py *)

Record TransitRegion (F : Type) : Type := {
  start_index : nat;
  end_index : nat;
  depth : F
}.
Arguments Build_TransitRegion {F} _ _ _.

Section Generator.
Context {F : Type} {A : Arith F}.
Variable rng_state : Type.
Variable legacy_gauss : rng_state -> F * rng_state.
Variable np_sin : F -> F.
Variable np_pi : F.
Local Open Scope arith_scope.

(** Lines 8-32.  Line 30 divides, which raises on a zero star radius, and
    squares with [**], which raises when the square is out of range. *)
Definition calculate_realistic_depth (planet_radius_earth star_radius_solar : F)
  : result F :=
  let R_earth := of_Z 6371 in
  let R_sun := of_Z 696000 in
  let R_planet := planet_radius_earth * R_earth in
  let R_star := star_radius_solar * R_sun in
  q <- py_truediv R_planet R_star ;;
  py_pow q 2.

(** The depth the transit loop uses (lines 46-54). *)
Definition effective_depth (transit_depth : F) (planet_radius_earth : option F)
  : result F :=
  match planet_radius_earth with
  | Some r =>
      d <- calculate_realistic_depth r (of_Z 1) ;;
      ok (if d <? lit 0.0005 then d * of_Z 100 else d)
  | None => ok transit_depth
  end.

(** Lines 83-94: [transit_regions[-1]] is the region being extended. *)
Definition record_transit (transit_regions : list (TransitRegion F))
           (i : nat) (depth_factor : F) : list (TransitRegion F) :=
  match rev transit_regions with
  | [] => [Build_TransitRegion i i depth_factor]
  | last :: before =>
      if (Z.of_nat (end_index last) <? Z.of_nat i - 10)%Z
      then transit_regions ++ [Build_TransitRegion i i depth_factor]
      else rev before ++
           [Build_TransitRegion (start_index last) i
                                (py_max (depth last) depth_factor)]
  end.

Definition phase_of (period_days t : F) : F :=
  fmod t period_days / period_days.

(** [phase_start < phase < phase_end]. *)
Definition in_transit (transit_width phase : F) : bool :=
  let phase_start := lit 0.5 - transit_width / of_Z 2 in
  let phase_end := lit 0.5 + transit_width / of_Z 2 in
  (phase_start <? phase) && (phase <? phase_end).

Definition relative_phase_of (transit_width phase : F) : F :=
  (phase - lit 0.5) / (transit_width / of_Z 2).

Definition depth_factor_of (transit_depth relative_phase : F) : F :=
  let limb_factor := of_Z 1 - lit 0.1 * (of_Z 1 - fpow relative_phase 2) in
  transit_depth * limb_factor * (of_Z 1 - fabs relative_phase * lit 0.2).

(** One iteration of [for i, t in enumerate(time)] (lines 68-94). *)
Definition transit_step (period_days transit_depth transit_width : F)
           (st : list F * list (TransitRegion F)) (it : nat * F)
  : list F * list (TransitRegion F) :=
  let '(flux, transit_regions) := st in
  let '(i, t) := it in
  let phase := phase_of period_days t in
  if in_transit transit_width phase then
    let relative_phase := relative_phase_of transit_width phase in
    let depth_factor := depth_factor_of transit_depth relative_phase in
    (update_at flux i (fun v => v - depth_factor),
     record_transit transit_regions i depth_factor)
  else st.

Definition enumerate (time : list F) : list (nat * F) :=
  combine (seq 0 (List.length time)) time.

Definition add_transits (period_days transit_depth transit_width : F)
           (time flux : list F) : list F * list (TransitRegion F) :=
  fold_left (transit_step period_days transit_depth transit_width)
            (enumerate time) (flux, []).

Definition generate_confirmed_planet
           (period_days transit_depth transit_duration : F)
           (num_points : nat) (planet_radius_earth : option F)
  : M rng_state (list F * list F * list (TransitRegion F)) :=
  transit_depth <~ mlift (effective_depth transit_depth planet_radius_earth) ;;
  let time := np_linspace (of_Z 0) (of_Z 30) num_points in
  let flux := np_ones num_points in
  noise <~ random_normal legacy_gauss (of_Z 0) (lit 0.0005) num_points ;;
  let flux := map2 fadd flux noise in
  w <~ mlift (py_truediv transit_duration (period_days * of_Z 24)) ;;
  let transit_width := py_min (lit 0.04) w in
  let '(flux, transit_regions) :=
    add_transits period_days transit_depth transit_width time flux in
  mret (time, flux, transit_regions).

(** [flux[mask] -= 0.05 * (1 - np.abs(time[mask] - t_center) / 0.5)]
    with [mask = np.abs(time - t_center) < 0.5]. *)
Definition eclipse (t_center : F) (time flux : list F) : list F :=
  map (fun tf : F * F =>
         let (t, f) := tf in
         if fabs (t - t_center) <? lit 0.5
         then f - lit 0.05 * (of_Z 1 - fabs (t - t_center) / lit 0.5)
         else f)
      (combine time flux).

Definition generate_false_positive (num_points : nat) (anomaly_type : string)
  : M rng_state (list F * list F * list (TransitRegion F)) :=
  let time := np_linspace (of_Z 0) (of_Z 30) num_points in
  let flux := np_ones num_points in
  if String.eqb anomaly_type "eclipsing_binary" then
    noise <~ random_normal legacy_gauss (of_Z 0) (lit 0.001) num_points ;;
    let flux := map2 fadd flux noise in
    let flux :=
      fold_left (fun fl t_center => eclipse t_center time fl)
                [of_Z 7; of_Z 14; of_Z 21] flux in
    mret (time, flux, [])
  else if String.eqb anomaly_type "stellar_variability" then
    let flux :=
      map2 fadd flux
           (map (fun t => lit 0.02 * np_sin (of_Z 2 * np_pi * t / of_Z 10)) time) in
    noise <~ random_normal legacy_gauss (of_Z 0) (lit 0.003) num_points ;;
    let flux := map2 fadd flux noise in
    mret (time, flux, [])
  else
    noise <~ random_normal legacy_gauss (of_Z 0) (lit 0.005) num_points ;;
    let flux := map2 fadd flux noise in
    mret (time, flux, []).

Definition candidate_step (period_days transit_depth : F)
           (flux : list F) (it : nat * F) : list F :=
  let '(i, t) := it in
  let phase := phase_of period_days t in
  if (lit 0.48 <? phase) && (phase <? lit 0.52) then
    let depth_factor := transit_depth in
    update_at flux i (fun v => v - depth_factor)
  else flux.

Definition generate_candidate (num_points : nat)
  : M rng_state (list F * list F * list (TransitRegion F)) :=
  let time := np_linspace (of_Z 0) (of_Z 30) num_points in
  let flux := np_ones num_points in
  noise <~ random_normal legacy_gauss (of_Z 0) (lit 0.003) num_points ;;
  let flux := map2 fadd flux noise in
  let period_days := lit 5.2 in
  let transit_depth := lit 0.005 in
  let transit_regions := [] in
  let flux := fold_left (candidate_step period_days transit_depth)
                        (enumerate time) flux in
  mret (time, flux, transit_regions).
End Generator.

(** ** services/explainer.py *)

Record TopRegion (F : Type) : Type := {
  start_time : F;
  end_time : F;
  importance : F;
  contribution_percent : F
}.
Arguments Build_TopRegion {F} _ _ _ _.

Record SHAPExplanation (F : Type) : Type := {
  feature_importance : list F;
  top_contributing_regions : list (TopRegion F);
  explanation_summary : string;
  base_value : F;
  predicted_value : F
}.
Arguments Build_SHAPExplanation {F} _ _ _ _ _.

Definition str_of_nat (n : nat) : string :=
  DecimalString.NilEmpty.string_of_uint (Nat.to_uint n).

Section ScipyFilter.
Context {F : Type} {A : Arith F}.
Variable np_exp : F -> F.
Local Open Scope arith_scope.

(** Index of the input that position [i] (possibly outside the array)
    reads under scipy's [mode='reflect']: (d c b a | a b c d | d c b a). *)
Definition reflect_index (n : nat) (i : Z) : nat :=
  let p := (2 * Z.of_nat n)%Z in
  let r := (i mod p)%Z in
  Z.to_nat (if (r <? Z.of_nat n)%Z then r else (p - 1 - r)%Z).

(** [_gaussian_kernel1d(sigma, 0, radius)]. *)
Definition gaussian_kernel1d (sigma : F) (radius : nat) : list F :=
  let sigma2 := sigma * sigma in
  let x := map (fun k : nat => (Z.of_nat k - Z.of_nat radius)%Z)
               (seq 0 (2 * radius + 1)) in
  let phi_x := map (fun k : Z => np_exp (lit (-0.5) / sigma2 * of_Z (k * k))) x in
  let total := np_sum phi_x in
  map (fun w => w / total) phi_x.

(** [scipy.ndimage.gaussian_filter1d(input, sigma)] with the defaults
    [truncate=4.0], [mode='reflect']. *)
Definition gaussian_filter1d (input : list F) (sigma : F) : list F :=
  let lw := Z.to_nat (ffloor (lit 4.0 * sigma + lit 0.5)) in
  let weights := gaussian_kernel1d sigma lw in
  let n := List.length input in
  map (fun i : nat =>
         np_sum
           (map (fun kw : nat * F =>
                   let (k, w) := kw in
                   w * nth (reflect_index n
                              (Z.of_nat i + Z.of_nat k - Z.of_nat lw)%Z)
                           input (of_Z 0))
                (combine (seq 0 (List.length weights)) weights)))
      (seq 0 n).
End ScipyFilter.

Section Explainer.
Context {F : Type} {A : Arith F}.
Variable rng_state : Type.
Variable np_random_seed : Z -> rng_state.
Variable legacy_gauss : rng_state -> F * rng_state.
Variable np_exp : F -> F.
(** [f"{x:.1f}"]. *)
Variable format_1f : F -> string.
Local Open Scope arith_scope.

(** [np.random.seed(n)]: whatever the state was, it becomes the one the
    seed determines. *)
Definition random_seed (n : Z) : M rng_state unit :=
  fun _ => (ok tt, np_random_seed n).

(** Lines 98-112 (and 158-166): the Gaussian weights of one region. *)
Definition region_weights (time_array : list F) (region : TransitRegion F)
  : result (list F) :=
  let start_idx := start_index region in
  let end_idx := end_index region in
  let center_idx := ((start_idx + end_idx) / 2)%nat in
  center_time <- py_index time_array (Z.of_nat center_idx) ;;
  let width := of_Z (Z.of_nat end_idx - Z.of_nat start_idx) * lit 1.5 in
  let distances := map (fun t => fabs (t - center_time)) time_array in
  ok (map (fun d => np_exp (lit (-0.5) * fpow (d / (width * lit 0.15)) 2))
          distances).

(** Lines 96-116: [for i, region in enumerate(transit_regions)]. *)
Fixpoint add_transit_peaks (time_array : list F) (confidence : F)
         (i : nat) (transit_regions : list (TransitRegion F))
         (feature_importance : list F) : result (list F) :=
  match transit_regions with
  | [] => ok feature_importance
  | region :: rest =>
      gaussian_weights <- region_weights time_array region ;;
      let importance_scale :=
        py_min (depth region * of_Z 600 * confidence) (lit 0.8)
        * fpow (lit 0.9) i in
      fi <- np_inplace fadd feature_importance
              (map (fun w => w * importance_scale) gaussian_weights) ;;
      add_transit_peaks time_array confidence (S i) rest fi
  end.

(** Lines 157-169: [for region in transit_regions]. *)
Fixpoint subtract_transit_peaks (time_array : list F) (confidence : F)
         (transit_regions : list (TransitRegion F))
         (feature_importance : list F) : result (list F) :=
  match transit_regions with
  | [] => ok feature_importance
  | region :: rest =>
      gaussian_weights <- region_weights time_array region ;;
      fi <- np_inplace fsub feature_importance
              (map (fun w => w * lit 0.2 * confidence) gaussian_weights) ;;
      subtract_transit_peaks time_array confidence rest fi
  end.

(** Lines 94-129. *)
Definition exoplanet_importance (flux_array time_array : list F)
           (confidence : F) (transit_regions : list (TransitRegion F))
           (feature_importance : list F) : result (list F) :=
  fi <- add_transit_peaks time_array confidence 0 transit_regions
          feature_importance ;;
  let baseline_stability :=
    map (fun f => lit 1.0 - fabs (f - lit 1.0)) flux_array in
  let fi := map2 fadd fi
              (map (fun b => b * lit 0.02 * confidence) baseline_stability) in
  let med := np_median flux_array in
  let flux_noise := map (fun f => fabs (f - med)) flux_array in
  threshold <- np_percentile flux_noise (of_Z 80) ;;
  let high_noise_mask := map (fun x => fgt x threshold) flux_noise in
  ok (map (fun mv : bool * F =>
             let (m, v) := mv in
             if m then v - lit 0.05 * confidence else v)
          (combine high_noise_mask fi)).

(** Lines 131-176. *)
Definition no_planet_importance (flux_array time_array : list F)
           (confidence : F) (transit_regions : list (TransitRegion F))
           (feature_importance : list F) : result (list F) :=
  let n_points := List.length flux_array in
  let mean := np_mean flux_array in
  let flux_variance := map (fun f => fabs (f - mean)) flux_array in
  max_var <- np_max flux_variance ;;
  let normalized_variance :=
    if fgt max_var (lit 1e-10)
    then map (fun v => v / max_var) flux_variance
    else np_zeros (List.length flux_variance) in
  let window_size := Nat.max 3 (n_points / 50) in
  let smoothed_variance :=
    np_convolve_same normalized_variance
      (map (fun o => o / of_nat window_size) (np_ones window_size)) in
  fi <- np_inplace fadd feature_importance
          (map (fun v => v * lit 0.4 * confidence) smoothed_variance) ;;
  fi <- subtract_transit_peaks time_array confidence transit_regions fi ;;
  let med := np_median flux_array in
  let stability := map (fun f => lit 1.0 - fabs (f - med)) flux_array in
  let fi := map2 fadd fi
              (map (fun v => v * lit 0.01 * confidence) stability) in
  ok (map (clip1 (lit (-0.8)) (lit 0.8)) fi).

(** Lines 185-191: the final normalisation and the sanitising. *)
Definition rescale (feature_importance : list F) : result (list F) :=
  max_abs <- np_max (np_abs feature_importance) ;;
  ok (if fgt max_abs (of_Z 0)
      then map (fun v => v / max_abs * lit 0.6) feature_importance
      else feature_importance).

Definition sanitize (feature_importance : list F) : list F :=
  map (nan_to_num1 (lit 0.0) (lit 0.6) (lit (-0.6))) feature_importance.

(** [regions.sort(key=lambda x: abs(x["importance"]), reverse=True)]:
    descending, entries of equal key in their original order. *)
Fixpoint insert_desc (x : TopRegion F) (l : list (TopRegion F))
  : list (TopRegion F) :=
  match l with
  | [] => [x]
  | y :: l' =>
      if fabs (importance x) <? fabs (importance y)
      then y :: insert_desc x l'
      else x :: l
  end.
Definition sort_by_abs_importance (l : list (TopRegion F)) : list (TopRegion F) :=
  fold_right insert_desc [] l.

(** The body of the [elif] at lines 240-255: close the run
    [region_start .. i - 1]. *)
Definition close_region (feature_importance time_points : list F)
           (region_start i : nat) : result (TopRegion F) :=
  let region_end := i in
  let region_importance :=
    np_mean (firstn (region_end - region_start)
                    (skipn region_start feature_importance)) in
  t0 <- py_index time_points (Z.of_nat region_start) ;;
  t1 <- py_index time_points (Z.of_nat region_end - 1) ;;
  let start_time := nan_to_num1 (lit 0.0) float_max (fneg float_max) t0 in
  let end_time := nan_to_num1 (lit 0.0) float_max (fneg float_max) t1 in
  let importance :=
    nan_to_num1 (lit 0.0) float_max (fneg float_max) region_importance in
  ok (Build_TopRegion start_time end_time importance
                      (fabs importance * of_Z 100)).

(** Lines 232-255: the loop state is [(regions, in_region, region_start)]. *)
Fixpoint scan_regions (feature_importance time_points : list F)
         (mask : list (nat * bool))
         (regions : list (TopRegion F)) (in_region : bool) (region_start : nat)
  : result (list (TopRegion F)) :=
  match mask with
  | [] => ok regions
  | (i, is_important) :: rest =>
      if is_important && negb in_region then
        scan_regions feature_importance time_points rest regions true i
      else if negb is_important && in_region then
        r <- close_region feature_importance time_points region_start i ;;
        scan_regions feature_importance time_points rest
                     (regions ++ [r]) false region_start
      else
        scan_regions feature_importance time_points rest
                     regions in_region region_start
  end.

Definition _identify_top_regions (feature_importance time_points : list F)
           (top_k : nat) : result (list (TopRegion F)) :=
  let abs_importance := np_abs feature_importance in
  threshold <- np_percentile abs_importance (of_Z 80) ;;
  let important_mask := map (fun x => fgt x threshold) abs_importance in
  regions <- scan_regions feature_importance time_points
               (combine (seq 0 (List.length important_mask)) important_mask)
               [] false 0 ;;
  ok (firstn top_k (sort_by_abs_importance regions)).

Definition _generate_explanation (classification : string) (confidence : F)
           (top_regions : list (TopRegion F))
           (transit_regions : list (TransitRegion F)) : string :=
  (if String.eqb classification "exoplanet" then
    match transit_regions with
    | [] =>
        "Model detected EXOPLANET with " ++ format_1f (confidence * of_Z 100)
        ++ "% confidence, though no clear transit regions were identified. This may indicate a subtle or complex signal."
    | _ :: _ =>
        let n_transits := List.length transit_regions in
        let transit_text :=
          str_of_nat n_transits ++ " periodic transit event"
          ++ (if (1 <? n_transits)%nat then "s" else "") in
        let time_info :=
          match top_regions with
          | top_region :: _ =>
              if fgt (importance top_region) (of_Z 0) then
                " The strongest supporting evidence appears at "
                ++ format_1f (start_time top_region) ++ "-"
                ++ format_1f (end_time top_region)
                ++ " days (contributing +"
                ++ format_1f (contribution_percent top_region)
                ++ "% toward exoplanet classification)."
              else ""
          | [] => ""
          end in
        "Model detected EXOPLANET with " ++ format_1f (confidence * of_Z 100)
        ++ "% confidence based on " ++ transit_text ++ "." ++ time_info
        ++ " Blue/positive SHAP regions show transit dips that SUPPORT the exoplanet detection."
    end
  else
    let reason :=
      match top_regions with
      | top_region :: _ =>
          if fgt (importance top_region) (of_Z 0) then
            "high noise/variability at "
            ++ format_1f (start_time top_region) ++ "-"
            ++ format_1f (end_time top_region) ++ " days (+"
            ++ format_1f (contribution_percent top_region) ++ "%)"
          else
            "suspicious dips at "
            ++ format_1f (start_time top_region) ++ "-"
            ++ format_1f (end_time top_region)
            ++ " days were insufficient evidence ("
            ++ format_1f (contribution_percent top_region) ++ "%)"
      | [] => "lack of convincing periodic transit patterns"
      end in
    "Model classified as NO PLANET with " ++ format_1f (confidence * of_Z 100)
    ++ "% confidence due to " ++ reason
    ++ ". Blue/positive SHAP shows features SUPPORTING rejection (noise, irregularity), while red/negative shows weak transit-like features that were insufficient.")%string.

Definition _generate_synthetic_shap (light_curve time_points : list F)
           (classification : string) (confidence : F)
           (transit_regions : list (TransitRegion F))
  : M rng_state (SHAPExplanation F) :=
  let n_points := List.length light_curve in
  let flux_array := light_curve in
  let time_array := time_points in
  let feature_importance := np_zeros n_points in
  let base_value := lit 0.5 in
  _ <~ random_seed 42 ;;
  background_noise <~ random_normal legacy_gauss (of_Z 0) (lit 0.01) n_points ;;
  let feature_importance := map2 fadd feature_importance background_noise in
  mlift (
    feature_importance <-
      (if String.eqb classification "exoplanet"
       then exoplanet_importance flux_array time_array confidence
                                 transit_regions feature_importance
       else no_planet_importance flux_array time_array confidence
                                 transit_regions feature_importance) ;;
    let predicted_value := base_value + np_mean feature_importance in
    let feature_importance :=
      gaussian_filter1d np_exp feature_importance (lit 1.5) in
    feature_importance <- rescale feature_importance ;;
    let feature_importance := sanitize feature_importance in
    let predicted_value := clip1 (lit 0.0) (lit 1.0) predicted_value in
    let predicted_value :=
      nan_to_num1 (lit 0.5) float_max (fneg float_max) predicted_value in
    top_regions <- _identify_top_regions feature_importance time_points 5 ;;
    let explanation_summary :=
      _generate_explanation classification confidence top_regions
                            transit_regions in
    ok (Build_SHAPExplanation feature_importance top_regions
                              explanation_summary base_value predicted_value)).

Definition explain_prediction (light_curve time_points : list F)
           (classification : string) (confidence : F)
           (transit_regions : list (TransitRegion F))
  : M rng_state (SHAPExplanation F) :=
  _generate_synthetic_shap light_curve time_points classification confidence
                           transit_regions.
End Explainer.

(** ** models/schemas.py and the sample catalog *)

(** The [params] mapping of a catalog entry; an absent key is [None]. *)
Record Params (F : Type) : Type := {
  p_period_days : option F;
  p_transit_depth : option F;
  p_transit_duration : option F;
  p_planet_radius : option F;
  p_anomaly_type : option string
}.
Arguments Build_Params {F} _ _ _ _ _.

(** An entry of [data/samples.json]. *)
Record Sample (F : Type) : Type := {
  sample_id : string;
  sample_name : string;
  truth : string;
  params : Params F
}.
Arguments Build_Sample {F} _ _ _ _.

Record AnalysisMetadata (F : Type) : Type := {
  orbital_period : option F;
  transit_duration : option F;
  planet_radius : option F;
  star_name : string;
  discovery_method : string
}.
Arguments Build_AnalysisMetadata {F} _ _ _ _ _.

Record AnalysisResponse (F : Type) : Type := {
  classification : string;
  confidence_score : F;
  class_probabilities : list (string * F);
  light_curve_data : list F;
  time_points : list F;
  highlighted_regions : list (TransitRegion F);
  analysis : AnalysisMetadata F;
  shap_explanation : option (SHAPExplanation F);
  model_version : string;
  processing_time_ms : Z
}.
Arguments Build_AnalysisResponse {F} _ _ _ _ _ _ _ _ _ _.

(** [d.get(key, default)]. *)
Definition get {T} (v : option T) (default : T) : T :=
  match v with
  | Some x => x
  | None => default
  end.

(** ** services/prediction.py *)

Section Prediction.
Context {F : Type} {A : Arith F}.
Variable rng_state : Type.
Variable np_random_seed : Z -> rng_state.
Variable legacy_gauss : rng_state -> F * rng_state.
Variable np_exp : F -> F.
Variable np_sin : F -> F.
Variable np_pi : F.
Variable format_1f : F -> string.
(** The built-in [hash] on strings of the running interpreter. *)
Variable hash : string -> Z.
(** [self.samples_db], loaded once from [data/samples.json]. *)
Variable samples_db : list (Sample F).
Local Open Scope arith_scope.

(** What [_predict_synthetic] has computed when it reaches line 107. *)
Definition classify_and_generate (sample : Sample F)
  : M rng_state (list F * list F * list (TransitRegion F) * string * F) :=
  let truth := truth sample in
  let params := params sample in
  if String.eqb truth "confirmed" then
    '(time_points, flux, transit_regions) <~
      generate_confirmed_planet legacy_gauss
        (get (p_period_days params) (of_Z 10))
        (get (p_transit_depth params) (lit 0.01))
        (get (p_transit_duration params) (of_Z 3))
        1000
        (p_planet_radius params) ;;
    let classification := "exoplanet"%string in
    let confidence :=
      lit 0.90 + of_Z (hash (sample_id sample) mod 8) / of_Z 100 in
    mret (time_points, flux, transit_regions, classification, confidence)
  else if String.eqb truth "candidate" then
    '(time_points, flux, transit_regions) <~
      generate_candidate legacy_gauss 1000 ;;
    let candidate_hash := (hash (sample_id sample) mod 100)%Z in
    if (candidate_hash <? 70)%Z then
      let classification := "exoplanet"%string in
      let confidence := lit 0.60 + of_Z (candidate_hash mod 20) / of_Z 100 in
      mret (time_points, flux, transit_regions, classification, confidence)
    else
      let classification := "no_planet"%string in
      let confidence := lit 0.55 + of_Z (candidate_hash mod 15) / of_Z 100 in
      mret (time_points, flux, transit_regions, classification, confidence)
  else
    '(time_points, flux, transit_regions) <~
      generate_false_positive legacy_gauss np_sin np_pi 1000
        (get (p_anomaly_type params) "noise"%string) ;;
    let classification := "no_planet"%string in
    let confidence :=
      lit 0.85 + of_Z (hash (sample_id sample) mod 12) / of_Z 100 in
    mret (time_points, flux, transit_regions, classification, confidence).

(** The dictionary that [_predict_synthetic] returns, without the
    [processing_time_ms] key that [predict] adds. *)
Definition _predict_synthetic (sample : Sample F)
  : M rng_state (Z -> AnalysisResponse F) :=
  '(time_points, flux, transit_regions, classification, confidence) <~
    classify_and_generate sample ;;
  let probs :=
    if String.eqb classification "exoplanet"
    then [("exoplanet"%string, confidence);
          ("no_planet"%string, of_Z 1 - confidence)]
    else [("exoplanet"%string, of_Z 1 - confidence);
          ("no_planet"%string, confidence)] in
  shap_data <~
    explain_prediction np_random_seed legacy_gauss np_exp format_1f
      flux time_points classification confidence transit_regions ;;
  mret (Build_AnalysisResponse
          classification confidence probs flux time_points transit_regions
          (Build_AnalysisMetadata
             (p_period_days (params sample))
             (p_transit_duration (params sample))
             (p_planet_radius (params sample))
             (sample_name sample)
             "Transit")
          (Some shap_data)
          "CosmicNet-v1.0").

(** [_sanitize_floats] on one float. *)
Definition sanitize_float (data : F) : F :=
  if is_nan data then lit 0.0
  else if is_inf data
       then (if fgt data (of_Z 0) then lit 1e10 else lit (-1e10))
       else data.

(** [_sanitize_floats] on the result dictionary: it descends into
    dictionaries and lists and rewrites floats; the schema objects
    ([TransitRegion], [AnalysisMetadata], [SHAPExplanation]) are none of
    these and are returned as they are. *)
Definition _sanitize_floats (r : AnalysisResponse F) : AnalysisResponse F :=
  Build_AnalysisResponse
    (classification r)
    (sanitize_float (confidence_score r))
    (map (fun kv : string * F => (fst kv, sanitize_float (snd kv)))
         (class_probabilities r))
    (map sanitize_float (light_curve_data r))
    (map sanitize_float (time_points r))
    (highlighted_regions r)
    (analysis r)
    (shap_explanation r)
    (model_version r)
    (processing_time_ms r).

(** Building the [AnalysisResponse] from the dictionary: the schema bounds [confidence_score] to
    [0 <= c <= 1]; a violation is a validation error, which is a
    [ValueError]. *)
Definition validate (r : AnalysisResponse F) : result (AnalysisResponse F) :=
  if (confidence_score r <? of_Z 0) || (of_Z 1 <? confidence_score r)
  then raise (ValueError "validation error for AnalysisResponse")
  else ok r.

(** [predict]; [processing_time] is the elapsed time read off the clock. *)
Definition predict (sample_id0 : string) (processing_time : Z)
  : M rng_state (AnalysisResponse F) :=
  let sample :=
    find (fun s => String.eqb (sample_id s) sample_id0) samples_db in
  match sample with
  | None =>
      mraise (ValueError ("Sample " ++ sample_id0 ++ " not found")%string)
  | Some sample =>
      result <~ _predict_synthetic sample ;;
      let result := result processing_time in
      let result := _sanitize_floats result in
      mlift (validate result)
  end.

(** *** main.py: [POST /api/predict] *)

Inductive http_response : Type :=
| Http200 (body : AnalysisResponse F)
| HTTPException (status_code : nat) (detail : string).

(** [str(e)] of an exception. *)
Variable str_of_exn : exn -> string.

Definition predict_exoplanet (request_sample_id : string) (processing_time : Z)
  : rng_state -> http_response * rng_state :=
  fun s =>
    match predict request_sample_id processing_time s with
    | (inr result, s') => (Http200 result, s')
    | (inl (ValueError msg), s') => (HTTPException 404 msg, s')
    | (inl e, s') =>
        (HTTPException 500 ("Prediction failed: " ++ str_of_exn e)%string, s')
    end.
End Prediction.

(** ** The interpreter's string hash

    CPython 3.11 hashes a [str] with SipHash-1-3 over its bytes, keyed by a
    secret [(k0, k1)] that the interpreter draws from the operating system
    when it starts (or derives from [PYTHONHASHSEED] when that is set).
    Identifiers are Latin-1 strings, one byte per character. *)

Module PyHash.
Local Open Scope Z_scope.

Definition mask64 : Z := 2 ^ 64 - 1.
Definition u64 (x : Z) : Z := Z.land x mask64.
Definition rotl (x b : Z) : Z :=
  u64 (Z.lor (Z.shiftl x b) (Z.shiftr x (64 - b))).

Definition half_round (a b c d s t : Z) : Z * Z * Z * Z :=
  let a := u64 (a + b) in
  let c := u64 (c + d) in
  let b := Z.lxor (rotl b s) a in
  let d := Z.lxor (rotl d t) c in
  let a := rotl a 32 in
  (a, b, c, d).

Definition single_round (v : Z * Z * Z * Z) : Z * Z * Z * Z :=
  let '(v0, v1, v2, v3) := v in
  let '(v0, v1, v2, v3) := half_round v0 v1 v2 v3 13 16 in
  let '(v2, v1, v0, v3) := half_round v2 v1 v0 v3 17 21 in
  (v0, v1, v2, v3).

(** Little-endian value of at most eight bytes. *)
Fixpoint le_bytes (bs : list Z) : Z :=
  match bs with
  | [] => 0
  | b :: bs' => b + 256 * le_bytes bs'
  end.

(** The [while (src_sz >= 8)] loop; [fuel] bounds the number of blocks. *)
Fixpoint absorb (fuel : nat) (v : Z * Z * Z * Z) (src : list Z)
  : (Z * Z * Z * Z) * list Z :=
  match fuel with
  | O => (v, src)
  | S fuel' =>
      if (8 <=? List.length src)%nat then
        let mi := le_bytes (firstn 8 src) in
        let '(v0, v1, v2, v3) := v in
        let v3 := Z.lxor v3 mi in
        let '(v0, v1, v2, v3) := single_round (v0, v1, v2, v3) in
        let v0 := Z.lxor v0 mi in
        absorb fuel' (v0, v1, v2, v3) (skipn 8 src)
      else (v, src)
  end.

Definition siphash13 (k0 k1 : Z) (src : list Z) : Z :=
  let b := u64 (Z.shiftl (Z.of_nat (List.length src)) 56) in
  let v0 := Z.lxor k0 0x736f6d6570736575 in
  let v1 := Z.lxor k1 0x646f72616e646f6d in
  let v2 := Z.lxor k0 0x6c7967656e657261 in
  let v3 := Z.lxor k1 0x7465646279746573 in
  let '((v0, v1, v2, v3), rest) :=
    absorb (List.length src) (v0, v1, v2, v3) src in
  let b := Z.lor b (le_bytes rest) in
  let v3 := Z.lxor v3 b in
  let '(v0, v1, v2, v3) := single_round (v0, v1, v2, v3) in
  let v0 := Z.lxor v0 b in
  let v2 := Z.lxor v2 0xff in
  let '(v0, v1, v2, v3) :=
    single_round (single_round (single_round (v0, v1, v2, v3))) in
  Z.lxor (Z.lxor v0 v1) (Z.lxor v2 v3).

Definition bytes_of_string (s : string) : list Z :=
  map (fun c => Z.of_nat (nat_of_ascii c)) (list_ascii_of_string s).

(** [hash(s)] under the secret [(k0, k1)]: the 64-bit result read as a
    signed integer, [-1] replaced by [-2], and [0] for the empty string. *)
Definition str_hash (key : Z * Z) (s : string) : Z :=
  match bytes_of_string s with
  | [] => 0
  | src =>
      let x := siphash13 (fst key) (snd key) src in
      let x := if 2 ^ 63 <=? x then x - 2 ^ 64 else x in
      if x =? -1 then -2 else x
  end.

(** The secret that [PYTHONHASHSEED=seed] fixes ([seed] from 1 to
    4294967295): 16 bytes of the linear congruential generator
    [x = x * 214013 + 2531011 mod 2^32], each byte [(x >> 16) & 0xff]. *)
Fixpoint lcg_urandom (x : Z) (size : nat) : list Z :=
  match size with
  | O => []
  | S k =>
      let x := Z.land (x * 214013 + 2531011) (2 ^ 32 - 1) in
      Z.land (Z.shiftr x 16) 255 :: lcg_urandom x k
  end.

Definition key_of_seed (seed : Z) : Z * Z :=
  let buf := lcg_urandom seed 16 in
  (le_bytes (firstn 8 buf), le_bytes (skipn 8 buf)).
End PyHash.

(** ** main.py: configuration and the other routes

    Strings are sequences of characters below 256, as for the hash. *)

(** [c.isspace()]. *)
Definition py_isspace (c : ascii) : bool :=
  let n := nat_of_ascii c in
  ((9 <=? n) && (n <=? 13)) || ((28 <=? n) && (n <=? 32))
  || (n =? 133) || (n =? 160).

Fixpoint py_lstrip (s : string) : string :=
  match s with
  | EmptyString => EmptyString
  | String c s' => if py_isspace c then py_lstrip s' else s
  end.

Fixpoint py_rstrip (s : string) : string :=
  match s with
  | EmptyString => EmptyString
  | String c s' =>
      match py_rstrip s' with
      | EmptyString => if py_isspace c then EmptyString else String c EmptyString
      | r => String c r
      end
  end.

(** [s.strip()]. *)
Definition py_strip (s : string) : string := py_rstrip (py_lstrip s).

(** [s.split(sep)] for a separator of one character. *)
Fixpoint py_split (sep : ascii) (s : string) : list string :=
  match s with
  | EmptyString => [EmptyString]
  | String c s' =>
      if Ascii.eqb c sep then EmptyString :: py_split sep s'
      else match py_split sep s' with
           | [] => [String c EmptyString]
           | piece :: pieces => String c piece :: pieces
           end
  end.

(** [sep.join(l)]. *)
Fixpoint py_join (sep : string) (l : list string) : string :=
  match l with
  | [] => EmptyString
  | [x] => x
  | x :: l' => (x ++ sep ++ py_join sep l')%string
  end.

(** [c.lower()]. *)
Definition py_lower_char (c : ascii) : ascii :=
  let n := nat_of_ascii c in
  if ((65 <=? n) && (n <=? 90))
     || ((192 <=? n) && (n <=? 222) && negb (n =? 215))
  then ascii_of_nat (n + 32)
  else c.

Fixpoint py_lower (s : string) : string :=
  match s with
  | EmptyString => EmptyString
  | String c s' => String (py_lower_char c) (py_lower s')
  end.

(** [s.rfind(c)]: the last index of [c], or -1. *)
Fixpoint py_rfind_from (c : ascii) (s : string) (i found : Z) : Z :=
  match s with
  | EmptyString => found
  | String x s' =>
      py_rfind_from c s' (i + 1) (if Ascii.eqb x c then i else found)
  end.
Definition py_rfind (c : ascii) (s : string) : Z := py_rfind_from c s 0 (-1).

(** The loop of [genericpath._splitext] that skips leading dots: is there
    a character other than a dot among the [count] characters from
    [filenameIndex] on? *)
Fixpoint has_non_dot (p : string) (filenameIndex count : nat) : bool :=
  match count with
  | O => false
  | S k =>
      match String.get filenameIndex p with
      | Some c => if Ascii.eqb c "." then has_non_dot p (S filenameIndex) k
                  else true
      | None => true
      end
  end.

(** [os.path.splitext(p)] of [posixpath]. *)
Definition splitext (p : string) : string * string :=
  let sepIndex := py_rfind "/" p in
  let dotIndex := py_rfind "." p in
  if (sepIndex <? dotIndex)%Z
     && has_non_dot p (Z.to_nat (sepIndex + 1))
                    (Z.to_nat (dotIndex - (sepIndex + 1)))
  then (String.substring 0 (Z.to_nat dotIndex) p,
        String.substring (Z.to_nat dotIndex)
                         (String.length p - Z.to_nat dotIndex) p)
  else (p, EmptyString).

(** Lines 25-31: the allowed CORS origins, from the value of
    [FRONTEND_ORIGINS] ([None] when the variable is not set). *)
Definition allow_origins (origins_env : option string) : list string :=
  match origins_env with
  | None | Some EmptyString => ["*"%string]
  | Some origins_env =>
      flat_map (fun o => match py_strip o with
                         | EmptyString => []
                         | stripped => [stripped]
                         end)
               (py_split "," origins_env)
  end.

Section Routes.
Context {F : Type} {A : Arith F}.
Variable rng_state : Type.
Variable np_random_seed : Z -> rng_state.
Variable legacy_gauss : rng_state -> F * rng_state.
Variable np_exp : F -> F.
Variable np_sin : F -> F.
Variable np_pi : F.
Variable format_1f : F -> string.
Variable hash : string -> Z.
Variable samples_db : list (Sample F).
Variable str_of_exn : exn -> string.
(** The state of Python's [random] module and its [_randbelow(n)]. *)
Variable random_state : Type.
Variable randbelow : nat -> random_state -> nat * random_state.

(** [random.choice(seq)]. *)
Definition random_choice {T : Type} (seq : list T)
  : random_state -> result T * random_state :=
  fun g =>
    match seq with
    | [] => (raise IndexError, g)
    | _ :: _ =>
        let (k, g') := randbelow (List.length seq) g in
        (match nth_error seq k with
         | Some x => ok x
         | None => raise IndexError
         end, g')
    end.

Definition allowed_extensions : list string :=
  [".csv"; ".fits"; ".txt"; ".json"]%string.

Definition upload_sample_ids : list string :=
  ["kepler-186f"; "kepler-452b"; "trappist-1e"; "koi-5123"; "koi-8888";
   "eb-001"; "var-002"; "noise-003"]%string.

(** [POST /api/predict/upload]: [filename] is [file.filename] and
    [file_size] the length of the content read. *)
Definition predict_uploaded_file (filename : option string) (file_size : Z)
           (processing_time : Z)
  : random_state * rng_state
    -> @http_response F * (random_state * rng_state) :=
  fun '(g, s) =>
    match filename with
    | None =>
        (HTTPException 500
           "Upload failed: expected str, bytes or os.PathLike object, not NoneType",
         (g, s))
    | Some filename =>
        let file_ext := py_lower (snd (splitext filename)) in
        if negb (existsb (String.eqb file_ext) allowed_extensions) then
          (HTTPException 400
             ("Invalid file type. Allowed: "
              ++ py_join ", " allowed_extensions)%string,
           (g, s))
        else if (10 * 1024 * 1024 <? file_size)%Z then
          (HTTPException 400 "File too large. Maximum size is 10 MB.",
           (g, s))
        else
          let (random_sample, g') := random_choice upload_sample_ids g in
          match random_sample with
          | inl e =>
              (HTTPException 500 ("Upload failed: " ++ str_of_exn e)%string,
               (g', s))
          | inr random_sample =>
              match predict np_random_seed legacy_gauss np_exp np_sin np_pi
                            format_1f hash samples_db random_sample
                            processing_time s with
              | (inr result, s') => (Http200 result, (g', s'))
              | (inl e, s') =>
                  (HTTPException 500
                     ("Upload failed: " ++ str_of_exn e)%string,
                   (g', s'))
              end
          end
    end.
End Routes.

(** An entry of [data/samples.json] as [list_samples] reads it. *)
Record CatalogEntry (F : Type) : Type := {
  entry_sample : Sample F;
  entry_description : string
}.
Arguments Build_CatalogEntry {F} _ _.

Record SampleSummary : Type := {
  summary_id : string;
  summary_name : string;
  summary_description : string
}.

(** [GET /api/samples]. *)
Definition list_samples {F : Type} (samples : list (CatalogEntry F))
  : list SampleSummary :=
  map (fun s => Build_SampleSummary (sample_id (entry_sample s))
                                    (sample_name (entry_sample s))
                                    (entry_description s))
      samples.

(** * Vocabulary of the statements

    Definitions that the statements below are written with; none of them
    is part of the program. *)

Section RegionVocabulary.
Context {F : Type} {A : Arith F}.

Local Abbreviation region := (TransitRegion F).

(** The in-transit samples of a loop run, with their depth factors. *)
Definition dip_events (period_days transit_depth transit_width : F)
           (samples : list (nat * F)) : list (nat * F) :=
  flat_map
    (fun it : nat * F =>
       let phase := phase_of period_days (snd it) in
       if in_transit transit_width phase
       then [(fst it,
              depth_factor_of transit_depth
                              (relative_phase_of transit_width phase))]
       else [])
    samples.

(** The regions that the loop records for the in-transit samples [dips],
    one [record_transit] per sample. *)
Definition record_all (regs : list region) (dips : list (nat * F))
  : list region :=
  fold_left (fun regs (d : nat * F) => record_transit regs (fst d) (snd d))
            dips regs.

(** The depth factors of the samples that fall in a region, in order. *)
Definition samples_in (dips : list (nat * F)) (r : region) : list F :=
  map snd
      (filter (fun d : nat * F =>
                 (start_index r <=? fst d)%nat && (fst d <=? end_index r)%nat)
              dips).

(** The maximum as the loop accumulates it: the first depth factor, then
    [max(depth, depth_factor)] for each further sample. *)
Definition running_max (ds : list F) : option F :=
  match ds with
  | [] => None
  | d :: rest => Some (fold_left py_max rest d)
  end.

(** The last region after it has taken sample [i] of depth factor [d]. *)
Definition extended (l : region) (i : nat) (d : F) : region :=
  Build_TransitRegion (start_index l) i (py_max (depth l) d).

(** The loop invariant: [regs] is what the loop has recorded after the
    in-transit samples [dips]. *)
Record regions_inv (dips : list (nat * F)) (regs : list region) : Prop := {
  inv_bounds :
    Forall (fun r => (start_index r <= end_index r)%nat
                     /\ In (end_index r) (map fst dips)) regs;
  inv_apart :
    StronglySorted
      (fun r1 r2 => (end_index r1 + 10 < start_index r2)%nat) regs;
  inv_depth :
    Forall (fun r => running_max (samples_in dips r) = Some (depth r)) regs;
  inv_last :
    match rev regs with
    | [] => dips = []
    | l :: _ => exists ds d, dips = ds ++ [(end_index l, d)]
    end;
  inv_cover :
    Forall (fun d : nat * F =>
              Exists (fun r => (start_index r <= fst d <= end_index r)%nat)
                     regs) dips
}.

(** A region whose indices fit a curve of [n] samples. *)
Definition valid_region (n : nat) (r : TransitRegion F) : Prop :=
  (start_index r <= end_index r)%nat /\ (end_index r < n)%nat.
End RegionVocabulary.

Section ResolverVocabulary.
Context {F : Type} {A : Arith F}.
Variable hash : string -> Z.
Local Open Scope arith_scope.

(** The label and the confidence that lines 81-105 assign. *)
Definition resolve (truth id : string) : string * F :=
  if String.eqb truth "confirmed" then
    ("exoplanet"%string, lit 0.90 + of_Z (hash id mod 8) / of_Z 100)
  else if String.eqb truth "candidate" then
    if (hash id mod 100 <? 70)%Z
    then ("exoplanet"%string,
          lit 0.60 + of_Z ((hash id mod 100) mod 20) / of_Z 100)
    else ("no_planet"%string,
          lit 0.55 + of_Z ((hash id mod 100) mod 15) / of_Z 100)
  else
    ("no_planet"%string, lit 0.85 + of_Z (hash id mod 12) / of_Z 100).
End ResolverVocabulary.

Section RationalVocabulary.
Local Open Scope Q_scope.

(** What every generated light curve satisfies. *)
Definition light_curve_shape (n : nat) (time flux : list Q) : Prop :=
  List.length time = n
  /\ List.length flux = n
  /\ StronglySorted Qlt time
  /\ Forall (fun t => 0 <= t /\ t <= 30) time
  /\ ((2 <= n)%nat -> last time 0 == 30).

(** [(planet_radius_earth * 6371 / (1.0 * 696000)) ** 2]. *)
Definition raw_depth (planet_radius_earth : Q) : Q :=
  (planet_radius_earth * 6371 / (1 * 696000)) ^ 2.

(** The square of line 30 stays in the range of a float (no radius, no
    square). *)
Definition radius_in_range (planet_radius_earth : option Q) : Prop :=
  match planet_radius_earth with
  | Some r => raw_depth r < overflow_threshold
  | None => True
  end.

(** A generated curve that the attribution engine accepts. *)
Definition explainable (time flux : list Q) (regs : list (TransitRegion Q))
  : Prop :=
  List.length time = 1000%nat /\ List.length flux = 1000%nat
  /\ Forall (valid_region 1000) regs.

(** Two outcomes of [_predict_synthetic] that, when both are responses,
    carry the same label and the same confidence. *)
Definition same_label_and_confidence
           (rng_state : Type)
           (x y : result (Z -> AnalysisResponse Q) * rng_state) : Prop :=
  match x, y with
  | (inr r1, _), (inr r2, _) =>
      forall t1 t2,
        classification (r1 t1) = classification (r2 t2)
        /\ confidence_score (r1 t1) = confidence_score (r2 t2)
  | _, _ => True
  end.
End RationalVocabulary.

(** ** Closed instances

    Stand-ins for the library functions of a closed example: a random
    generator without state whose draws are all zero, and arbitrary total
    functions for exp, sin, pi and the formatting.  The statements they are
    used in do not depend on the choice. *)

Module Standin.
Definition rng_state : Type := unit.
Definition np_random_seed (_ : Z) : rng_state := tt.
Definition legacy_gauss (s : rng_state) : Q * rng_state := (0%Q, s).
Definition np_exp (x : Q) : Q := 1%Q.
Definition np_sin (x : Q) : Q := 0%Q.
Definition np_pi : Q := (355 # 113)%Q.
Definition format_1f (x : Q) : string := "0.0"%string.

End Standin.

Abbreviation standin_predict_synthetic :=
  (_predict_synthetic Standin.np_random_seed Standin.legacy_gauss
                      Standin.np_exp Standin.np_sin Standin.np_pi
                      Standin.format_1f).

Definition koi_5123 : Sample Q :=
  Build_Sample "koi-5123" "KOI-5123" "candidate"
               (Build_Params None None None None None).

Definition kepler_186f : Sample Q :=
  Build_Sample "kepler-186f" "Kepler-186f" "confirmed"
               (Build_Params (Some 130%Q) None (Some 2%Q) (Some 1.1%Q) None).

(** The binary64 array written with the decimal literals [l]. *)
Definition floats (l : list Q) : list float := map (lit (A := B64_arith)) l.

Section GeneratorVocabulary.
Context {F : Type} {A : Arith F}.
Local Open Scope arith_scope.

(** The flux of a sample at time [t] after the transit loop, from its
    flux [f] before the loop. *)
Definition dimmed (period_days transit_depth transit_width t f : F) : F :=
  let phase := phase_of period_days t in
  if in_transit transit_width phase
  then f - depth_factor_of transit_depth (relative_phase_of transit_width phase)
  else f.

(** The same for the loop of [generate_candidate]. *)
Definition dimmed_candidate (t f : F) : F :=
  let phase := phase_of (lit 5.2) t in
  if (lit 0.48 <? phase) && (phase <? lit 0.52) then f - lit 0.005 else f.

(** The flux of a sample at time [t] after the eclipse centred at
    [t_center], from its flux [f] before. *)
Definition eclipsed (t_center t f : F) : F :=
  if fabs (t - t_center) <? lit 0.5
  then f - lit 0.05 * (of_Z 1 - fabs (t - t_center) / lit 0.5)
  else f.

(** The base flux of sample [i]: one plus its noise. *)
Definition noisy_baseline (noise : list F) : list F :=
  map (fun e => of_Z 1 + e) noise.
End GeneratorVocabulary.

Section TopRegionVocabulary.
Context {F : Type} {A : Arith F}.

(** [abs_importance[j] > threshold], false outside the array. *)
Definition above (feature_importance : list F) (threshold : F) (j : nat)
  : bool :=
  match nth_error feature_importance j with
  | Some x => fgt (fabs x) threshold
  | None => false
  end.

(** The samples [a .. b - 1] are a run that the loop of
    [_identify_top_regions] closes: they are all above the threshold, the
    sample before them (if any) is not, and sample [b] is inside the array
    and not above the threshold. *)
Definition maximal_run (feature_importance : list F) (threshold : F)
           (a b : nat) : Prop :=
  (a < b)%nat /\ (b < List.length feature_importance)%nat
  /\ (forall j, (a <= j < b)%nat -> above feature_importance threshold j = true)
  /\ above feature_importance threshold b = false
  /\ (a = 0%nat \/ above feature_importance threshold (a - 1) = false).

(** [r] is the record that lines 241-254 make of such a run. *)
Definition closed_run (feature_importance time_points : list F)
           (threshold : F) (r : TopRegion F) : Prop :=
  exists a b : nat,
    maximal_run feature_importance threshold a b
    /\ close_region feature_importance time_points a b = ok r.
End TopRegionVocabulary.

(** The order in which the regions are returned. *)
Definition by_abs_importance (x y : TopRegion Q) : Prop :=
  Qabs (importance y) <= Qabs (importance x).

(** A binary64 number that is neither NaN nor infinite. *)
Definition finite64 (x : float) : Prop :=
  is_nan x = false /\ is_inf x = false.

(** The floats that [_sanitize_floats] reaches in a response are finite. *)
Definition reachable_floats_finite (r : AnalysisResponse float) : Prop :=
  finite64 (confidence_score r)
  /\ Forall (fun kv : string * float => finite64 (snd kv))
            (class_probabilities r)
  /\ Forall finite64 (light_curve_data r)
  /\ Forall finite64 (time_points r).

(** A confidence [c] of the resolver in binary64: between 0.55 and 0.97,
    and [c + (1 - c)] and [(1 - c) + c] are exactly 1.0. *)
Definition exact_confidence (c : float) : bool :=
  PrimFloat.leb (lit 0.55) c && PrimFloat.leb c (lit 0.97)
  && PrimFloat.eqb (fadd c (fsub (of_Z 1) c)) (of_Z 1)
  && PrimFloat.eqb (fadd (fsub (of_Z 1) c) c) (of_Z 1).

(** Every entry of a binary64 array is strictly below the next one. *)
Fixpoint increasing64 (l : list float) : bool :=
  match l with
  | x :: (y :: _) as l' => PrimFloat.ltb x y && increasing64 l'
  | _ => true
  end.

(** [c] occurs in [s]. *)
Fixpoint occurs (c : ascii) (s : string) : bool :=
  match s with
  | EmptyString => false
  | String x s' => Ascii.eqb x c || occurs c s'
  end.

(** An origin as [allow_origins] returns it: not empty, without a comma,
    and unchanged by [strip()]. *)
Definition clean_origin (o : string) : Prop :=
  o <> EmptyString /\ occurs "," o = false /\ py_strip o = o.

(** Stand-ins in binary64. *)
Module Standin64.
Definition rng_state : Type := unit.
Definition np_random_seed (_ : Z) : rng_state := tt.
Definition legacy_gauss (s : rng_state) : float * rng_state := (0%float, s).
Definition np_exp (x : float) : float := x.
Definition format_1f (x : float) : string := "0.0"%string.
End Standin64.



(** * Properties *)

Ltac rsimpl := cbv beta iota delta [rbind ok].

(** ** The rational instance *)

Section QFacts.
Local Open Scope Q_scope.

Lemma Q_flt_true (x y : Q) : flt x y = true <-> x < y.
Proof.
  simpl. rewrite negb_true_iff. split; intro H.
  - apply Qnot_le_lt. intro L. apply Qle_bool_iff in L. congruence.
  - destruct (Qle_bool y x) eqn:E; [|reflexivity].
    apply Qle_bool_iff in E. exfalso. apply (Qlt_not_le _ _ H E).
Qed.

Lemma Q_flt_false (x y : Q) : flt x y = false <-> y <= x.
Proof.
  simpl. rewrite negb_false_iff. apply Qle_bool_iff.
Qed.

Lemma Q_feq_true (x y : Q) : feq x y = true <-> x == y.
Proof. simpl. apply Qeq_bool_iff. Qed.

Lemma Q_feq_false (x y : Q) : ~ x == y -> feq x y = false.
Proof.
  intro H. simpl. destruct (Qeq_bool x y) eqn:E; [|reflexivity].
  apply Qeq_bool_iff in E. contradiction.
Qed.

Lemma Q_lit (q : Q) : lit q == q.
Proof.
  unfold lit. simpl. destruct q as [n d]. simpl.
  unfold Qdiv, Qmult, Qinv, Qeq, inject_Z. simpl. lia.
Qed.

Lemma Q_of_nat_lt (i j : nat) : (i < j)%nat -> of_nat (A := Q_arith) i < of_nat j.
Proof.
  intro H. unfold of_nat. simpl. rewrite <- Zlt_Qlt. lia.
Qed.

Lemma Q_of_nat_nonneg (i : nat) : 0 <= of_nat (A := Q_arith) i.
Proof.
  unfold of_nat. simpl. replace 0 with (inject_Z 0) by reflexivity.
  rewrite <- Zle_Qle. lia.
Qed.

Lemma Q_py_min (a b : Q) : py_min a b == Qmin a b.
Proof.
  unfold py_min. destruct (flt b a) eqn:E.
  - apply Q_flt_true in E. symmetry. apply Q.min_r. apply Qlt_le_weak, E.
  - apply Q_flt_false in E. symmetry. apply Q.min_l, E.
Qed.
End QFacts.

(** ** Shapes of arrays *)

Section Shapes.
Context {F : Type} {A : Arith F}.

Lemma map2_length (f : F -> F -> F) (a b : list F) :
  List.length (map2 f a b) = Nat.min (List.length a) (List.length b).
Proof.
  revert b. induction a as [|x a IH]; intros [|y b]; simpl; auto.
Qed.

Lemma update_at_length (a : list F) (i : nat) (f : F -> F) :
  List.length (update_at a i f) = List.length a.
Proof.
  revert i. induction a as [|x a IH]; intros [|i]; simpl; auto.
Qed.

Lemma set_last_length (a : list F) (v : F) :
  List.length (set_last a v) = List.length a.
Proof.
  induction a as [|x [|y a] IH]; simpl in *; auto.
Qed.

Lemma set_last_snoc (a : list F) (x v : F) :
  set_last (a ++ [x]) v = a ++ [v].
Proof.
  induction a as [|y a IH]; [reflexivity|].
  simpl. rewrite IH. destruct a; reflexivity.
Qed.

Lemma np_ones_length (n : nat) : List.length (np_ones n) = n.
Proof. apply repeat_length. Qed.

Lemma np_linspace_length (start stop : F) (num : nat) :
  List.length (np_linspace start stop num) = num.
Proof.
  unfold np_linspace.
  destruct (1 <? num)%nat; [rewrite set_last_length|];
    destruct (0 <? num - 1)%nat; try destruct (feq _ _);
    rewrite !length_map, length_seq; reflexivity.
Qed.

Section WithRandom.
Variable rng_state : Type.
Variable legacy_gauss : rng_state -> F * rng_state.

Lemma np_random_normal_length (loc scale : F) (size : nat) (s : rng_state) :
  List.length (fst (np_random_normal legacy_gauss loc scale size s)) = size.
Proof.
  revert s. induction size as [|k IH]; intro s; simpl; [reflexivity|].
  destruct (legacy_gauss s) as [z s1].
  specialize (IH s1).
  destruct (np_random_normal legacy_gauss loc scale k s1) as [rest s2].
  simpl in *. now rewrite IH.
Qed.

Lemma random_normal_ok (loc scale : F) (size : nat) (s : rng_state) :
  exists noise s',
    random_normal legacy_gauss loc scale size s = (ok noise, s')
    /\ List.length noise = size.
Proof.
  unfold random_normal.
  pose proof (np_random_normal_length loc scale size s) as L.
  destruct (np_random_normal legacy_gauss loc scale size s) as [a s'].
  exists a, s'. split; [reflexivity|exact L].
Qed.
End WithRandom.

Lemma noisy_ones_length (n : nat) (noise : list F) :
  List.length noise = n -> List.length (map2 fadd (np_ones n) noise) = n.
Proof.
  intro H. rewrite map2_length, np_ones_length, H. apply Nat.min_id.
Qed.

Lemma transit_loop_flux_length (period_days transit_depth transit_width : F)
      (l : list (nat * F)) (st : list F * list (TransitRegion F)) :
  List.length
    (fst (fold_left (transit_step period_days transit_depth transit_width) l st))
  = List.length (fst st).
Proof.
  revert st. induction l as [|[i t] l IH]; intro st; [reflexivity|].
  simpl fold_left. rewrite IH. destruct st as [flux regs].
  unfold transit_step. destruct (in_transit _ _); simpl; [|reflexivity].
  apply update_at_length.
Qed.

Lemma candidate_loop_flux_length (period_days transit_depth : F)
      (l : list (nat * F)) (flux : list F) :
  List.length (fold_left (candidate_step period_days transit_depth) l flux)
  = List.length flux.
Proof.
  revert flux. induction l as [|[i t] l IH]; intro flux; [reflexivity|].
  simpl fold_left. rewrite IH. unfold candidate_step.
  destruct (_ && _); [apply update_at_length|reflexivity].
Qed.

Lemma eclipse_length (t_center : F) (time flux : list F) :
  List.length time = List.length flux ->
  List.length (eclipse t_center time flux) = List.length flux.
Proof.
  intro H. unfold eclipse. rewrite length_map, length_combine, H.
  apply Nat.min_id.
Qed.

Lemma eclipses_length (centers time flux : list F) :
  List.length time = List.length flux ->
  List.length (fold_left (fun fl c => eclipse c time fl) centers flux)
  = List.length flux.
Proof.
  revert flux. induction centers as [|c cs IH]; intros flux H; [reflexivity|].
  simpl. rewrite IH; rewrite eclipse_length; auto.
Qed.
End Shapes.

(** ** The observation window *)

Section Linspace.
Local Open Scope Q_scope.

(** Over the rationals, [np.linspace(0, 30, m + 2)] is the arithmetic
    progression [i * (30 / (m + 1))] for [i <= m], then [30]. *)
Lemma linspace_Q (m : nat) :
  np_linspace (A := Q_arith) (of_Z 0) (of_Z 30) (S (S m))
  = map (fun i : nat =>
           of_nat i * ((of_Z 30 - of_Z 0) / of_nat (S m)) + of_Z 0)
        (seq 0 (S m))
    ++ [of_Z 30].
Proof.
  unfold np_linspace.
  replace (S (S m) - 1)%nat with (S m) by lia.
  replace (0 <? S m)%nat with true by reflexivity.
  replace (1 <? S (S m))%nat with true by reflexivity.
  assert (E : feq (fdiv (fsub (of_Z 30) (of_Z 0)) (of_nat (S m))) (of_Z 0 : Q)
              = false).
  { apply Q_feq_false. intro H.
    pose proof (Q_of_nat_lt (i := 0) (j := S m) ltac:(lia)) as P.
    unfold of_nat in *. simpl in *.
    assert (30 - 0 == 0) as C.
    { rewrite <- (Qmult_div_r (30 - 0) (inject_Z (Z.pos (Pos.of_succ_nat m)))).
      - rewrite H. ring.
      - intro Z0. rewrite Z0 in P. apply (Qlt_irrefl _ P). }
    discriminate C. }
  cbv zeta. rewrite E. rewrite !map_map.
  rewrite (seq_S (S m) 0). rewrite map_app. cbn [map].
  apply set_last_snoc.
Qed.

Lemma progression_lt (m i j : nat) :
  (i < j)%nat ->
  of_nat (A := Q_arith) i * ((of_Z 30 - of_Z 0) / of_nat (S m)) + of_Z 0
  < of_nat j * ((of_Z 30 - of_Z 0) / of_nat (S m)) + of_Z 0.
Proof.
  intro H. apply Q_of_nat_lt in H.
  pose proof (Q_of_nat_lt (i := 0) (j := S m) ltac:(lia)) as P.
  simpl fadd. simpl fsub. simpl fdiv. simpl fmul. simpl of_Z.
  change (of_nat 0) with (inject_Z 0) in P.
  apply Qplus_lt_l. apply Qmult_lt_compat_r; [|exact H].
  apply Qlt_shift_div_l; [exact P|]. reflexivity.
Qed.

Lemma progression_range (m i : nat) :
  (i <= m)%nat ->
  0 <= of_nat (A := Q_arith) i * ((of_Z 30 - of_Z 0) / of_nat (S m)) + of_Z 0
  /\ of_nat (A := Q_arith) i * ((of_Z 30 - of_Z 0) / of_nat (S m)) + of_Z 0 < 30.
Proof.
  intro H.
  pose proof (Q_of_nat_lt (i := 0) (j := S m) ltac:(lia)) as P.
  change (of_nat 0) with (inject_Z 0) in P.
  assert (S30 : of_nat (A := Q_arith) (S m)
                * ((of_Z 30 - of_Z 0) / of_nat (S m)) + of_Z 0 == 30).
  { simpl fadd. simpl fsub. simpl fdiv. simpl fmul. simpl of_Z.
    field. intro Z0. rewrite Z0 in P. apply (Qlt_irrefl _ P). }
  split.
  - destruct i as [|i].
    + simpl. unfold of_nat. simpl. unfold Qle. simpl. lia.
    + apply Qlt_le_weak.
      eapply Qle_lt_trans; [|apply (progression_lt m (i := 0) (j := S i)); lia].
      unfold of_nat. simpl. unfold Qle. simpl. lia.
  - rewrite <- S30. apply progression_lt. lia.
Qed.
End Linspace.

(** ** The three entry points of the generator, over the rationals *)

Section GeneratorQ.
Variable rng_state : Type.
Variable legacy_gauss : rng_state -> Q * rng_state.
Local Open Scope Q_scope.

Lemma fpow_2 (q : Q) : fpow q 2 == q ^ 2.
Proof. simpl. ring. Qed.

Lemma raw_depth_nonneg (r : Q) : 0 <= raw_depth r.
Proof. unfold raw_depth. simpl. nra. Qed.

(** The square of line 30 for the star radius 1.0: an [OverflowError]
    exactly when it is out of range. *)
Lemma square_of_ratio (r : Q) :
  let q := fdiv (fmul r (of_Z 6371)) (fmul (of_Z 1) (of_Z 696000)) in
  fpow q 2 == raw_depth r
  /\ (raw_depth r < overflow_threshold ->
      calculate_realistic_depth r (of_Z 1) = ok (fpow q 2))
  /\ (overflow_threshold <= raw_depth r ->
      calculate_realistic_depth r (of_Z 1) = raise OverflowError).
Proof.
  intro q.
  assert (E : fpow q 2 == raw_depth r) by apply fpow_2.
  assert (Ea : Qabs (fpow q 2) == raw_depth r).
  { rewrite Qabs_pos; [exact E|]. rewrite E. apply raw_depth_nonneg. }
  assert (C : calculate_realistic_depth r (of_Z 1) = py_pow q 2)
    by reflexivity.
  split; [exact E|]. rewrite C. unfold py_pow.
  change (negb (is_inf q)) with true. cbv beta iota delta [andb].
  change (overflows (fpow q 2))
    with (Qle_bool overflow_threshold (Qabs (fpow q 2))).
  split; intro H.
  - destruct (Qle_bool _ _) eqn:B; [|reflexivity].
    apply Qle_bool_iff in B. rewrite Ea in B.
    exfalso. apply (Qlt_not_le _ _ H B).
  - rewrite (proj2 (Qle_bool_iff _ _)); [reflexivity|].
    rewrite Ea. exact H.
Qed.

Lemma effective_depth_some (transit_depth r : Q) :
  raw_depth r < overflow_threshold ->
  effective_depth transit_depth (Some r)
  = ok (let d := fpow (fdiv (fmul r (of_Z 6371)) (fmul (of_Z 1) (of_Z 696000))) 2 in
        if flt d (lit 0.0005) then fmul d (of_Z 100) else d).
Proof.
  intro H. unfold effective_depth.
  rewrite (proj1 (proj2 (square_of_ratio r)) H). reflexivity.
Qed.

Lemma effective_depth_overflow (transit_depth r : Q) :
  overflow_threshold <= raw_depth r ->
  effective_depth transit_depth (Some r) = raise OverflowError.
Proof.
  intro H. unfold effective_depth.
  rewrite (proj2 (proj2 (square_of_ratio r)) H). reflexivity.
Qed.

Lemma effective_depth_ok (transit_depth : Q) (radius : option Q) :
  radius_in_range radius ->
  exists d, effective_depth transit_depth radius = ok d.
Proof.
  destruct radius as [r|]; [|exists transit_depth; reflexivity].
  intro H. eexists. apply effective_depth_some, H.
Qed.

(** A radius is in range or it is not. *)
Lemma radius_in_range_dec (radius : option Q) :
  radius_in_range radius
  \/ exists r, radius = Some r /\ overflow_threshold <= raw_depth r.
Proof.
  destruct radius as [r|]; [|left; exact I].
  destruct (Qlt_le_dec (raw_depth r) overflow_threshold) as [L|G].
  - left. exact L.
  - right. exists r. split; [reflexivity|exact G].
Qed.

(** An out-of-range radius stops [generate_confirmed_planet] at line 30,
    before anything is drawn. *)
Lemma generate_confirmed_planet_overflow
      (period_days transit_depth transit_duration r : Q) (num_points : nat)
      (s : rng_state) :
  overflow_threshold <= raw_depth r ->
  generate_confirmed_planet legacy_gauss period_days transit_depth
    transit_duration num_points (Some r) s
  = (raise OverflowError, s).
Proof.
  intro H. unfold generate_confirmed_planet, mbind, mlift.
  rewrite (effective_depth_overflow transit_depth H). reflexivity.
Qed.

(** The run of [generate_confirmed_planet] step by step: the depth, the
    noise draw, the division of line 66, the loop. *)
Lemma generate_confirmed_planet_run
      (period_days transit_depth transit_duration : Q) (num_points : nat)
      (radius : option Q) (s : rng_state) :
  radius_in_range radius ->
  exists d noise s',
    effective_depth transit_depth radius = ok d
    /\ random_normal legacy_gauss (of_Z 0) (lit 0.0005) num_points s
       = (ok noise, s')
    /\ List.length noise = num_points
    /\ generate_confirmed_planet legacy_gauss period_days transit_depth
         transit_duration num_points radius s
       = if feq (fmul period_days (of_Z 24)) (of_Z 0)
         then (raise ZeroDivisionError, s')
         else
           let time := np_linspace (of_Z 0) (of_Z 30) num_points in
           let r := add_transits period_days d
                      (py_min (lit 0.04)
                              (fdiv transit_duration (fmul period_days (of_Z 24))))
                      time (map2 fadd (np_ones num_points) noise) in
           (ok (time, fst r, snd r), s').
Proof.
  intro Hr.
  destruct (effective_depth_ok transit_depth radius Hr) as [d Hd].
  destruct (random_normal_ok legacy_gauss (of_Z 0) (lit 0.0005) num_points s)
    as (noise & s' & Hn & Hl).
  exists d, noise, s'. repeat split; try assumption.
  unfold generate_confirmed_planet, mbind, mlift. rewrite Hd, Hn.
  unfold py_truediv.
  destruct (feq (fmul period_days (of_Z 24)) (of_Z 0)); [reflexivity|].
  unfold ok, mret. cbv beta iota zeta.
  destruct (add_transits _ _ _ _ _). reflexivity.
Qed.
End GeneratorQ.

Section SortedLists.
Variable T : Type.
Variable R : T -> T -> Prop.

Lemma StronglySorted_snoc (l : list T) (x : T) :
  StronglySorted R l -> Forall (fun y => R y x) l ->
  StronglySorted R (l ++ [x]).
Proof.
  induction l as [|y l IH]; intros S Hx; simpl.
  - constructor; constructor.
  - inversion S; subst. inversion Hx; subst.
    constructor; [auto|].
    apply Forall_app. split; [assumption|]. constructor; [assumption|constructor].
Qed.

Lemma StronglySorted_map_seq (f : nat -> T) (a k : nat) :
  (forall i j, (i < j)%nat -> R (f i) (f j)) ->
  StronglySorted R (map f (seq a k)).
Proof.
  intro Hf. revert a. induction k as [|k IH]; intro a; simpl.
  - constructor.
  - constructor; [apply IH|].
    apply Forall_forall. intros y Hy. apply in_map_iff in Hy.
    destruct Hy as (j & <- & Hj). apply in_seq in Hj. apply Hf. lia.
Qed.
End SortedLists.

Section Window.
Local Open Scope Q_scope.


Lemma linspace_window (n : nat) :
  let time := np_linspace (A := Q_arith) (of_Z 0) (of_Z 30) n in
  StronglySorted Qlt time
  /\ Forall (fun t => 0 <= t /\ t <= 30) time
  /\ ((2 <= n)%nat -> last time 0 == 30).
Proof.
  destruct n as [|[|m]].
  - cbv zeta. repeat split; [constructor|constructor|intro; lia].
  - cbv zeta. repeat split.
    + repeat constructor.
    + constructor; [|constructor]. vm_compute. split; discriminate.
    + intro; lia.
  - cbv zeta. rewrite linspace_Q. repeat split.
    + apply StronglySorted_snoc.
      * apply StronglySorted_map_seq. intros i j. apply progression_lt.
      * apply Forall_forall. intros y Hy. apply in_map_iff in Hy.
        destruct Hy as (j & <- & Hj). apply in_seq in Hj.
        apply progression_range. lia.
    + apply Forall_app. split.
      * apply Forall_forall. intros y Hy. apply in_map_iff in Hy.
        destruct Hy as (j & <- & Hj). apply in_seq in Hj.
        destruct (@progression_range m j) as [L U]; [lia|].
        split; [exact L|apply Qlt_le_weak, U].
      * constructor; [|constructor]. split; discriminate.
    + intros _. rewrite last_last. reflexivity.
Qed.

Lemma shape_intro (n : nat) (flux : list Q) :
  List.length flux = n ->
  light_curve_shape n (np_linspace (A := Q_arith) (of_Z 0) (of_Z 30) n) flux.
Proof.
  intro H. destruct (linspace_window n) as (S & R & L).
  unfold light_curve_shape. rewrite np_linspace_length. auto.
Qed.
End Window.

Section LightCurves.
Variable rng_state : Type.
Variable legacy_gauss : rng_state -> Q * rng_state.
Variable np_sin : Q -> Q.
Variable np_pi : Q.
Local Open Scope Q_scope.

Lemma generate_false_positive_shape (n : nat) (anomaly_type : string)
      (s : rng_state) :
  exists time flux s',
    generate_false_positive legacy_gauss np_sin np_pi n anomaly_type s
    = (ok (time, flux, []), s')
    /\ light_curve_shape n time flux.
Proof.
  unfold generate_false_positive.
  destruct (String.eqb anomaly_type "eclipsing_binary");
    [|destruct (String.eqb anomaly_type "stellar_variability")].
  - destruct (random_normal_ok legacy_gauss (of_Z 0) (lit 0.001) n s)
      as (noise & s' & Hn & Hl).
    unfold mbind. rewrite Hn. unfold ok, mret. do 3 eexists.
    split; [reflexivity|]. apply shape_intro.
    rewrite eclipses_length; rewrite ?np_linspace_length;
      rewrite noisy_ones_length; auto.
  - destruct (random_normal_ok legacy_gauss (of_Z 0) (lit 0.003) n s)
      as (noise & s' & Hn & Hl).
    unfold mbind. rewrite Hn. unfold ok, mret. do 3 eexists.
    split; [reflexivity|]. apply shape_intro.
    rewrite map2_length, map2_length, length_map, np_ones_length,
      np_linspace_length, Hl. lia.
  - destruct (random_normal_ok legacy_gauss (of_Z 0) (lit 0.005) n s)
      as (noise & s' & Hn & Hl).
    unfold mbind. rewrite Hn. unfold ok, mret. do 3 eexists.
    split; [reflexivity|]. apply shape_intro.
    apply noisy_ones_length, Hl.
Qed.

Lemma generate_candidate_shape (n : nat) (s : rng_state) :
  exists time flux s',
    generate_candidate legacy_gauss n s = (ok (time, flux, []), s')
    /\ light_curve_shape n time flux.
Proof.
  unfold generate_candidate.
  destruct (random_normal_ok legacy_gauss (of_Z 0) (lit 0.003) n s)
    as (noise & s' & Hn & Hl).
  unfold mbind. rewrite Hn. unfold ok, mret. do 3 eexists.
  split; [reflexivity|]. apply shape_intro.
  rewrite candidate_loop_flux_length. apply noisy_ones_length, Hl.
Qed.

Lemma generate_confirmed_planet_shape
      (period_days transit_depth transit_duration : Q) (n : nat)
      (radius : option Q) (s : rng_state) :
  match generate_confirmed_planet legacy_gauss period_days transit_depth
          transit_duration n radius s with
  | (inr (time, flux, _), _) => light_curve_shape n time flux
  | (inl e, _) =>
      (e = ZeroDivisionError /\ period_days * 24 == 0)
      \/ (e = OverflowError
          /\ exists r, radius = Some r /\ overflow_threshold <= raw_depth r)
  end.
Proof.
  destruct (radius_in_range_dec radius) as [Hr|(r & -> & Hr)].
  2:{ rewrite (@generate_confirmed_planet_overflow _ legacy_gauss period_days
                 transit_depth transit_duration r n s Hr).
      right. split; [reflexivity|]. exists r. split; [reflexivity|exact Hr]. }
  destruct (@generate_confirmed_planet_run _ legacy_gauss period_days
              transit_depth transit_duration n radius s Hr)
    as (d & noise & s' & _ & _ & Hl & ->).
  destruct (feq _ _) eqn:E.
  - left. split; [reflexivity|]. apply Q_feq_true in E. exact E.
  - cbv zeta. apply shape_intro. unfold add_transits.
    rewrite transit_loop_flux_length. apply noisy_ones_length, Hl.
Qed.

(** C3, as the code has it: every generator entry point returns a time
    sequence and a flux sequence of exactly [num_points] entries; the
    time sequence is strictly increasing and lies in the closed interval
    [0, 30], its last value being exactly 30 as soon as there are two
    points.  ([generate_confirmed_planet] returns unless
    [period_days * 24] is zero, when line 66 divides by zero, or the
    square of line 30 is out of the range of a float, an
    [OverflowError].) *)
Theorem light_curves_have_requested_shape (num_points : nat) (s : rng_state) :
  (forall period_days transit_depth transit_duration radius,
      match generate_confirmed_planet legacy_gauss period_days transit_depth
              transit_duration num_points radius s with
      | (inr (time, flux, _), _) => light_curve_shape num_points time flux
      | (inl e, _) =>
          (e = ZeroDivisionError /\ period_days * 24 == 0)
          \/ (e = OverflowError
              /\ exists r,
                  radius = Some r /\ overflow_threshold <= raw_depth r)
      end)
  /\ (forall anomaly_type,
         exists time flux s',
           generate_false_positive legacy_gauss np_sin np_pi num_points
                                   anomaly_type s
           = (ok (time, flux, []), s')
           /\ light_curve_shape num_points time flux)
  /\ (exists time flux s',
         generate_candidate legacy_gauss num_points s
         = (ok (time, flux, []), s')
         /\ light_curve_shape num_points time flux).
Proof.
  split; [|split].
  - intros. apply generate_confirmed_planet_shape.
  - intro. apply generate_false_positive_shape.
  - apply generate_candidate_shape.
Qed.
End LightCurves.

(** C3 as stated fails: with two points the time sequence is [0, 30], and
    30 is not in the half-open interval. *)
Lemma time_sequence_reaches_30 :
  ~ (forall (num_points : nat) (time flux : list Q) regs,
        (1 <= num_points)%nat ->
        generate_candidate (rng_state := unit) (fun s => (0%Q, s)) num_points tt
        = (ok (time, flux, regs), tt) ->
        Forall (fun t => 0 <= t /\ t < 30)%Q time).
Proof.
  intro H.
  specialize (H 2%nat _ _ _ ltac:(lia) eq_refl).
  inversion H as [|? ? _ H1]; subst. inversion H1 as [|? ? [_ C] _]; subst.
  discriminate C.
Qed.

(** ** The transit window *)

Section TransitWindow.
Local Open Scope Q_scope.

Lemma phase_of_range (period_days t : Q) :
  0 < period_days ->
  0 <= phase_of period_days t /\ phase_of period_days t < 1.
Proof.
  intro P. unfold phase_of. simpl. unfold Qmod.
  assert (N : ~ period_days == 0) by (intro Z0; rewrite Z0 in P; discriminate P).
  assert (E : (t - period_days * inject_Z (Qfloor (t / period_days)))
              / period_days
              == t / period_days - inject_Z (Qfloor (t / period_days)))
    by (field; exact N).
  rewrite E.
  pose proof (Qfloor_le (t / period_days)) as L.
  pose proof (Qlt_floor (t / period_days)) as U.
  rewrite inject_Z_plus in U. change (inject_Z 1) with 1 in U.
  split; lra.
Qed.

Lemma in_transit_iff (w phase : Q) :
  in_transit w phase = true <-> 0.5 - w / 2 < phase /\ phase < 0.5 + w / 2.
Proof.
  unfold in_transit. rewrite andb_true_iff, !Q_flt_true.
  assert (E : lit (A := Q_arith) 0.5 == 0.5) by apply Q_lit.
  simpl fsub. simpl fadd. simpl fdiv. simpl of_Z.
  rewrite E. reflexivity.
Qed.

Lemma relative_phase_range (w phase : Q) :
  in_transit w phase = true ->
  relative_phase_of w phase == (phase - 0.5) / (w / 2)
  /\ -1 < relative_phase_of w phase /\ relative_phase_of w phase < 1.
Proof.
  intro H. apply in_transit_iff in H. destruct H as [L U].
  assert (E : relative_phase_of w phase == (phase - 0.5) / (w / 2)).
  { unfold relative_phase_of. simpl.
    assert (E5 : lit (A := Q_arith) 0.5 == 0.5) by apply Q_lit.
    rewrite E5. reflexivity. }
  split; [exact E|]. rewrite E.
  assert (Hpos : 0 < w / 2) by lra.
  split.
  - apply Qlt_shift_div_l; [exact Hpos|]. lra.
  - apply Qlt_shift_div_r; [exact Hpos|]. lra.
Qed.

Lemma depth_factor_formula (transit_depth rp : Q) :
  depth_factor_of transit_depth rp
  == transit_depth * (1 - 0.1 * (1 - rp ^ 2)) * (1 - 0.2 * Qabs rp).
Proof.
  unfold depth_factor_of. cbv zeta.
  assert (E1 : lit (A := Q_arith) 0.1 == 0.1) by apply Q_lit.
  assert (E2 : lit (A := Q_arith) 0.2 == 0.2) by apply Q_lit.
  simpl fmul. simpl fsub. simpl fabs. simpl of_Z.
  rewrite E1, E2. rewrite (fpow_2 rp). ring.
Qed.
End TransitWindow.

Section TransitShape.
Local Open Scope Q_scope.

(** C5, as the code has it: [w = min(0.04, transit_duration /
    (period_days * 24))] is the full width of the window; a sample is
    inside a transit exactly when its phase lies strictly between
    [0.5 - w/2] and [0.5 + w/2]; there its relative phase
    [(phase - 0.5) / (w/2)] lies strictly between -1 and 1, and the loop
    subtracts [transit_depth * (1 - 0.1 * (1 - rp^2)) * (1 - 0.2 * |rp|)]
    from the flux of that sample and of no other.  (The loop is reached
    unless the square of line 30 is out of the range of a float.) *)
Theorem transit_window_and_decrement
        (period_days transit_duration transit_depth t : Q) :
  0 < period_days ->
  let w := py_min (lit 0.04)
                  (fdiv transit_duration (fmul period_days (of_Z 24))) in
  let phase := phase_of period_days t in
  let rp := relative_phase_of w phase in
  w == Qmin 0.04 (transit_duration / (period_days * 24))
  /\ phase == Qmod t period_days / period_days
  /\ (0 <= phase /\ phase < 1)
  /\ (in_transit w phase = true
      <-> 0.5 - w / 2 < phase /\ phase < 0.5 + w / 2)
  /\ (in_transit w phase = true ->
      rp == (phase - 0.5) / (w / 2) /\ -1 < rp /\ rp < 1)
  /\ depth_factor_of transit_depth rp
     == transit_depth * (1 - 0.1 * (1 - rp ^ 2)) * (1 - 0.2 * Qabs rp)
  /\ (forall flux regs i,
         transit_step period_days transit_depth w (flux, regs) (i, t)
         = if in_transit w phase
           then (update_at flux i
                           (fun v => v - depth_factor_of transit_depth rp),
                 record_transit regs i (depth_factor_of transit_depth rp))
           else (flux, regs))
  /\ (forall (rng_state : Type) (legacy_gauss : rng_state -> Q * rng_state)
             num_points radius s,
         (exists r,
             radius = Some r /\ overflow_threshold <= raw_depth r
             /\ generate_confirmed_planet legacy_gauss period_days
                  transit_depth transit_duration num_points radius s
                = (raise OverflowError, s))
         \/ exists d noise s',
             effective_depth transit_depth radius = ok d
             /\ generate_confirmed_planet legacy_gauss period_days
                  transit_depth transit_duration num_points radius s
                = let time := np_linspace (of_Z 0) (of_Z 30) num_points in
                  let r := add_transits period_days d w time
                             (map2 fadd (np_ones num_points) noise) in
                  (ok (time, fst r, snd r), s')).
Proof.
  intros P w phase rp.
  split; [apply Q_py_min|].
  split; [reflexivity|].
  split; [apply phase_of_range, P|].
  split; [apply in_transit_iff|].
  split; [apply relative_phase_range|].
  split; [apply depth_factor_formula|].
  split; [reflexivity|].
  intros rng_state legacy_gauss num_points radius s.
  destruct (radius_in_range_dec radius) as [Hr|(r & -> & Hr)].
  2:{ left. exists r. split; [reflexivity|]. split; [exact Hr|].
      apply generate_confirmed_planet_overflow, Hr. }
  right.
  destruct (@generate_confirmed_planet_run _ legacy_gauss period_days
              transit_depth transit_duration num_points radius s Hr)
    as (d & noise & s' & Hd & _ & _ & E).
  exists d, noise, s'. split; [exact Hd|]. rewrite E.
  rewrite Q_feq_false; [reflexivity|].
  intro Z0. change (period_days * 24 == 0) in Z0.
  assert (period_days == 0) as C by lra.
  rewrite C in P. discriminate P.
Qed.

Lemma transit_window_and_decrement_witness :
  0 < 10
  /\ (in_transit (py_min (lit 0.04) (fdiv 3 (fmul 10 (of_Z 24))))
                 (phase_of 10 5) = true
      <-> 0.5 - py_min (lit 0.04) (fdiv 3 (fmul 10 (of_Z 24))) / 2
          < phase_of 10 5
          /\ phase_of 10 5
             < 0.5 + py_min (lit 0.04) (fdiv 3 (fmul 10 (of_Z 24))) / 2).
Proof.
  split; [reflexivity|].
  apply (transit_window_and_decrement (period_days := 10) 3 0.01 5).
  reflexivity.
Defined.

(** C5 as stated fails: with [period_days = 10] and [transit_duration = 3]
    the claimed half-width is [min(0.04, 3/240) = 0.0125]; sample 49 of a
    301-point curve (time 4.9, phase 0.49) lies in the claimed window
    [0.4875, 0.5125) but the code leaves it outside the transit and does
    not touch its flux. *)
Lemma half_width_is_half_the_claim :
  let period_days := 10 in
  let transit_duration := 3 in
  let time := np_linspace (A := Q_arith) (of_Z 0) (of_Z 30) 301 in
  let t := nth 49 time 0 in
  let phase := Qmod t period_days / period_days in
  let claimed_half_width := Qmin 0.04 (transit_duration / (period_days * 24)) in
  let w := py_min (lit 0.04)
                  (fdiv transit_duration (fmul period_days (of_Z 24))) in
  let flux0 := np_ones (A := Q_arith) 301 in
  (0.5 - claimed_half_width <= phase /\ phase < 0.5 + claimed_half_width)
  /\ in_transit w (phase_of period_days t) = false
  /\ nth 49 (fst (add_transits period_days 0.01 w time flux0)) 0
     = nth 49 flux0 0
  /\ Forall (fun r => ~ (start_index r <= 49 <= end_index r)%nat)
            (snd (add_transits period_days 0.01 w time flux0)).
Proof.
  cbv zeta. split; [split; vm_compute; [discriminate|reflexivity]|].
  split; [vm_compute; reflexivity|].
  split; [vm_compute; reflexivity|].
  vm_compute. repeat constructor; lia.
Qed.
End TransitShape.

(** ** Transit-region bookkeeping *)

Section Regions.
Context {F : Type} {A : Arith F}.

Local Abbreviation region := (TransitRegion F).


Lemma record_transit_nil (i : nat) (d : F) :
  record_transit [] i d = [Build_TransitRegion i i d].
Proof. reflexivity. Qed.

Lemma record_transit_snoc (pre : list region) (l : region) (i : nat) (d : F) :
  record_transit (pre ++ [l]) i d
  = if (end_index l + 10 <? i)%nat
    then pre ++ [l; Build_TransitRegion i i d]
    else pre ++ [extended l i d].
Proof.
  unfold record_transit. rewrite rev_app_distr. simpl rev. simpl app.
  cbv beta iota. rewrite rev_involutive.
  replace (Z.of_nat (end_index l) <? Z.of_nat i - 10)%Z
    with (end_index l + 10 <? i)%nat.
  - destruct (end_index l + 10 <? i)%nat; [|reflexivity].
    rewrite <- app_assoc. reflexivity.
  - destruct (Nat.ltb_spec (end_index l + 10) i);
      destruct (Z.ltb_spec (Z.of_nat (end_index l)) (Z.of_nat i - 10));
      auto; lia.
Qed.

Lemma loop_regions (p d w : F) (l : list (nat * F))
      (st : list F * list region) :
  snd (fold_left (transit_step p d w) l st)
  = record_all (snd st) (dip_events p d w l).
Proof.
  revert st. induction l as [|[i t] l IH]; intro st; [reflexivity|].
  simpl fold_left. rewrite IH. unfold dip_events at 2. simpl flat_map.
  fold (dip_events p d w l). destruct st as [flux regs].
  unfold transit_step. simpl snd. simpl fst.
  destruct (in_transit w (phase_of p t)); reflexivity.
Qed.

Lemma running_max_snoc (ds : list F) (m d : F) :
  running_max ds = Some m -> running_max (ds ++ [d]) = Some (py_max m d).
Proof.
  destruct ds as [|x ds]; [discriminate|]. simpl. intro H.
  injection H as <-. rewrite fold_left_app. reflexivity.
Qed.

Lemma samples_in_app (a b : list (nat * F)) (r : region) :
  samples_in (a ++ b) r = samples_in a r ++ samples_in b r.
Proof. unfold samples_in. rewrite filter_app, map_app. reflexivity. Qed.

Lemma samples_in_later (r : region) (i : nat) (d : F) :
  (end_index r < i)%nat -> samples_in [(i, d)] r = [].
Proof.
  intro H. unfold samples_in. simpl.
  replace (i <=? end_index r)%nat with false
    by (symmetry; apply Nat.leb_gt; exact H).
  rewrite andb_false_r. reflexivity.
Qed.

Lemma samples_in_ext (dips : list (nat * F)) (r r' : region) :
  (forall j, In j (map fst dips) ->
             ((start_index r <=? j)%nat && (j <=? end_index r)%nat)
             = ((start_index r' <=? j)%nat && (j <=? end_index r')%nat)) ->
  samples_in dips r = samples_in dips r'.
Proof.
  intro H. unfold samples_in. f_equal. apply filter_ext_in.
  intros [j x] Hin. apply H. apply in_map_iff. exists (j, x). auto.
Qed.

Lemma StronglySorted_snoc_inv (R : region -> region -> Prop)
      (l : list region) (x : region) :
  StronglySorted R (l ++ [x]) ->
  StronglySorted R l /\ Forall (fun y => R y x) l.
Proof.
  induction l as [|y l IH]; simpl; intro S.
  - split; constructor.
  - inversion S as [|? ? S' Hy]; subst. destruct (IH S') as [S1 F1].
    apply Forall_app in Hy. destruct Hy as [Hy1 Hy2].
    inversion Hy2; subst.
    split; constructor; auto.
Qed.


Lemma regions_inv_nil : regions_inv [] [].
Proof. constructor; simpl; auto; constructor. Qed.

Lemma samples_in_none (dips : list (nat * F)) (r : region) :
  (forall j, In j (map fst dips) -> (j < start_index r)%nat) ->
  samples_in dips r = [].
Proof.
  intro H. unfold samples_in.
  induction dips as [|[j x] dips IH]; [reflexivity|].
  simpl. replace (start_index r <=? j)%nat with false.
  - simpl. apply IH. intros k Hk. apply H. simpl. auto.
  - symmetry. apply Nat.leb_gt. apply H. simpl. auto.
Qed.

Lemma samples_in_self (r : region) (i : nat) (d : F) :
  (start_index r <= i)%nat -> end_index r = i -> samples_in [(i, d)] r = [d].
Proof.
  intros H1 H2. unfold samples_in. simpl.
  replace (start_index r <=? i)%nat with true
    by (symmetry; apply Nat.leb_le; exact H1).
  replace (i <=? end_index r)%nat with true
    by (symmetry; apply Nat.leb_le; lia).
  reflexivity.
Qed.

Lemma sorted_app_lt (a : list nat) (i : nat) :
  StronglySorted lt (a ++ [i]) ->
  StronglySorted lt a /\ forall j, In j a -> (j < i)%nat.
Proof.
  induction a as [|x a IH]; simpl; intro S.
  - split; [constructor|intros j []].
  - inversion S as [|? ? S' Hx]; subst. destruct (IH S') as [S1 L1].
    apply Forall_app in Hx. destruct Hx as [Hx1 Hx2]. inversion Hx2; subst.
    split; [constructor; assumption|].
    intros j [<-|Hj]; auto.
Qed.

Lemma regions_inv_step (dips : list (nat * F)) (regs : list region)
      (i : nat) (d : F) :
  StronglySorted lt (map fst (dips ++ [(i, d)])) ->
  regions_inv dips regs ->
  regions_inv (dips ++ [(i, d)]) (record_transit regs i d).
Proof.
  intros Hs [Hb Ha Hd Hl Hc].
  rewrite map_app in Hs. simpl in Hs.
  destruct (@sorted_app_lt _ _ Hs) as [Hs' Hlt].
  assert (Hin : forall (r : region),
             In (end_index r) (map fst dips) ->
             In (end_index r) (map fst (dips ++ [(i, d)]))).
  { intros r H. rewrite map_app. apply in_or_app. left. exact H. }
  destruct regs as [|l pre _] using rev_ind.
  - (* the first region *)
    simpl in Hl. subst dips. rewrite record_transit_nil.
    constructor; simpl.
    + constructor; [|constructor]. simpl. split; [lia|auto].
    + repeat constructor.
    + constructor; [|constructor].
      rewrite (@samples_in_self (Build_TransitRegion i i d) i d);
        simpl; auto.
    + exists [], d. reflexivity.
    + constructor; [|constructor]. constructor. simpl. lia.
  - rewrite rev_app_distr in Hl. simpl in Hl.
    destruct Hl as (ds & d0 & Hdips).
    apply Forall_app in Hb. destruct Hb as [Hb_pre Hb_l].
    inversion Hb_l as [|? ? [Hl_le Hl_in] _]; subst x l0.
    apply StronglySorted_snoc_inv in Ha. destruct Ha as [Ha_pre Ha_l].
    apply Forall_app in Hd. destruct Hd as [Hd_pre Hd_l].
    inversion Hd_l as [|? ? Hd_l' _]; subst x l0.
    assert (El : (end_index l < i)%nat) by (apply Hlt, Hl_in).
    assert (Epre : Forall (fun r : region => (end_index r < i)%nat) pre).
    { eapply Forall_impl; [|exact Ha_l]. simpl. intros r Hr. lia. }
    assert (Hle : forall j, In j (map fst dips) -> (j <= end_index l)%nat).
    { intros j Hj. rewrite Hdips, map_app in Hj, Hs'. simpl in Hj, Hs'.
      destruct (@sorted_app_lt _ _ Hs') as [_ L].
      apply in_app_or in Hj. destruct Hj as [Hj|[<-|[]]]; [|lia].
      apply Nat.lt_le_incl, L, Hj. }
    assert (Dpre : Forall (fun r : region =>
                             running_max (samples_in (dips ++ [(i, d)]) r)
                             = Some (depth r)) pre).
    { apply Forall_forall. intros r Hr.
      rewrite samples_in_app, samples_in_later, app_nil_r.
      - rewrite Forall_forall in Hd_pre. apply Hd_pre, Hr.
      - rewrite Forall_forall in Epre. apply Epre, Hr. }
    assert (Bpre : Forall (fun r : region =>
                             (start_index r <= end_index r)%nat
                             /\ In (end_index r)
                                   (map fst (dips ++ [(i, d)]))) pre).
    { eapply Forall_impl; [|exact Hb_pre]. simpl. intros r [H1 H2]. auto. }
    rewrite record_transit_snoc.
    destruct (end_index l + 10 <? i)%nat eqn:Far.
    + (* a new region *)
      apply Nat.ltb_lt in Far.
      replace (pre ++ [l; Build_TransitRegion i i d])
        with ((pre ++ [l]) ++ [Build_TransitRegion i i d])
        by (rewrite <- app_assoc; reflexivity).
      constructor.
      * apply Forall_app. split; [apply Forall_app; split|].
        -- exact Bpre.
        -- constructor; [|constructor]. auto.
        -- constructor; [|constructor]. simpl. split; [lia|].
           rewrite map_app. apply in_or_app. right. simpl. auto.
      * apply StronglySorted_snoc.
        -- apply StronglySorted_snoc; assumption.
        -- apply Forall_app. split.
           ++ eapply Forall_impl; [|exact Ha_l]. simpl. intros r Hr. lia.
           ++ constructor; [|constructor]. simpl. exact Far.
      * apply Forall_app. split; [apply Forall_app; split|].
        -- exact Dpre.
        -- constructor; [|constructor].
           rewrite samples_in_app, samples_in_later, app_nil_r; assumption.
        -- constructor; [|constructor].
           rewrite samples_in_app, samples_in_none.
           ++ rewrite (@samples_in_self (Build_TransitRegion i i d) i d);
                simpl; auto.
           ++ simpl. exact Hlt.
      * rewrite rev_app_distr. simpl. exists dips, d. reflexivity.
      * apply Forall_app. split.
        -- eapply Forall_impl; [|exact Hc]. simpl. intros x Hx.
           apply Exists_app. left. exact Hx.
        -- constructor; [|constructor]. apply Exists_app. right.
           constructor. simpl. lia.
    + (* the current region is extended *)
      apply Nat.ltb_ge in Far.
      constructor.
      * apply Forall_app. split; [exact Bpre|].
        constructor; [|constructor]. simpl. split; [lia|].
        rewrite map_app. apply in_or_app. right. simpl. auto.
      * apply StronglySorted_snoc; [exact Ha_pre|].
        eapply Forall_impl; [|exact Ha_l]. simpl. auto.
      * apply Forall_app. split; [exact Dpre|].
        constructor; [|constructor].
        rewrite samples_in_app.
        rewrite (@samples_in_self (extended l i d) i d);
          [|simpl; lia|reflexivity].
        rewrite (@samples_in_ext dips (extended l i d) l).
        -- apply running_max_snoc. exact Hd_l'.
        -- intros j Hj. simpl.
           replace (j <=? i)%nat with true
             by (symmetry; apply Nat.leb_le, Nat.lt_le_incl, Hlt, Hj).
           replace (j <=? end_index l)%nat with true
             by (symmetry; apply Nat.leb_le, Hle, Hj).
           reflexivity.
      * rewrite rev_app_distr. simpl. exists dips, d. reflexivity.
      * apply Forall_app. split.
        -- eapply Forall_impl; [|exact Hc]. simpl. intros x Hx.
           apply Exists_app in Hx. apply Exists_app.
           destruct Hx as [Hx|Hx]; [left; exact Hx|right].
           inversion Hx as [? ? Hx'|? ? Hx']; subst; [|inversion Hx'].
           constructor. simpl. lia.
        -- constructor; [|constructor]. apply Exists_app. right.
           constructor. simpl. lia.
Qed.

Lemma regions_inv_all (dips : list (nat * F)) :
  StronglySorted lt (map fst dips) ->
  regions_inv dips (record_all [] dips).
Proof.
  induction dips as [|[i d] dips IH] using rev_ind; intro Hs.
  - apply regions_inv_nil.
  - unfold record_all. rewrite fold_left_app. simpl.
    apply regions_inv_step; [exact Hs|].
    apply IH. rewrite map_app in Hs. simpl in Hs.
    apply sorted_app_lt in Hs. apply Hs.
Qed.
End Regions.

Section RegionsOfLoop.
Context {F : Type} {A : Arith F}.

Lemma enumerate_indices (time : list F) (a : nat) :
  map fst (combine (seq a (List.length time)) time) = seq a (List.length time).
Proof.
  revert a. induction time as [|t time IH]; intro a; [reflexivity|].
  simpl. f_equal. apply IH.
Qed.

Lemma seq_sorted (a n : nat) : StronglySorted lt (seq a n).
Proof.
  rewrite <- (map_id (seq a n)). apply StronglySorted_map_seq. auto.
Qed.

Lemma dip_events_indices (p d w : F) (l : list (nat * F)) :
  StronglySorted lt (map fst l) ->
  StronglySorted lt (map fst (dip_events p d w l))
  /\ forall j, In j (map fst (dip_events p d w l)) -> In j (map fst l).
Proof.
  induction l as [|[i t] l IH]; simpl; intro S.
  - split; [constructor|auto].
  - inversion S as [|? ? S' Hi]; subst. destruct (IH S') as [S1 I1].
    destruct (in_transit w (phase_of p t)); simpl.
    + split.
      * constructor; [exact S1|].
        apply Forall_forall. intros j Hj.
        rewrite Forall_forall in Hi. apply Hi, I1, Hj.
      * intros j [<-|Hj]; auto.
    + split; [exact S1|]. intros j Hj. right. apply I1, Hj.
Qed.

Lemma StronglySorted_weaken (T : Type) (R R' : T -> T -> Prop) (P : T -> Prop)
      (l : list T) :
  (forall x y, P x -> R x y -> R' x y) ->
  Forall P l -> StronglySorted R l -> StronglySorted R' l.
Proof.
  intros H HP S. induction S as [|x l S IH Hx]; [constructor|].
  inversion HP; subst. constructor; [auto|].
  eapply Forall_impl; [|exact Hx]. simpl. intros y Hy. apply H; assumption.
Qed.

(** What the loop of [generate_confirmed_planet] leaves in
    [transit_regions], for any time grid. *)
Lemma add_transits_regions (p d w : F) (time flux : list F) :
  let dips := dip_events p d w (enumerate time) in
  let regs := snd (add_transits p d w time flux) in
  regs = record_all [] dips
  /\ Forall (fun r => (0 <= start_index r <= end_index r)%nat
                      /\ (end_index r < List.length time)%nat) regs
  /\ StronglySorted
       (fun r1 r2 => (start_index r1 < start_index r2)%nat
                     /\ (end_index r1 + 10 < start_index r2)%nat) regs
  /\ Forall (fun r => running_max (samples_in dips r) = Some (depth r)) regs
  /\ Forall (fun e : nat * F =>
               Exists (fun r => (start_index r <= fst e <= end_index r)%nat)
                      regs) dips.
Proof.
  intros dips regs.
  assert (E : regs = record_all [] dips).
  { unfold regs, add_transits. rewrite loop_regions. reflexivity. }
  assert (S0 : StronglySorted lt (map fst (enumerate time))).
  { unfold enumerate. rewrite enumerate_indices. apply seq_sorted. }
  destruct (@dip_events_indices p d w _ S0) as [S1 I1]. fold dips in S1, I1.
  destruct (@regions_inv_all _ _ _ S1) as [Hb Ha Hd _ Hc]. rewrite <- E in Hb, Ha, Hd, Hc.
  split; [exact E|].
  assert (B : Forall (fun r : TransitRegion F =>
                        (0 <= start_index r <= end_index r)%nat
                        /\ (end_index r < List.length time)%nat) regs).
  { eapply Forall_impl; [|exact Hb]. simpl. intros r [H1 H2].
    split; [lia|]. apply I1 in H2. unfold enumerate in H2.
    rewrite enumerate_indices in H2. apply in_seq in H2. lia. }
  split; [exact B|]. split; [|split; assumption].
  eapply StronglySorted_weaken; [|exact B|exact Ha].
  simpl. intros x y [Hx _] Hxy. lia.
Qed.
End RegionsOfLoop.

Section MaximumQ.
Local Open Scope Q_scope.

Lemma fold_py_max_Q (l : list Q) (x : Q) :
  let m := fold_left py_max l x in
  x <= m /\ Forall (fun y => y <= m) l /\ In m (x :: l).
Proof.
  revert x. induction l as [|y l IH]; intro x; cbn [fold_left].
  - cbv zeta. split; [apply Qle_refl|]. split; [constructor|left; reflexivity].
  - cbv zeta. destruct (IH (py_max x y)) as (H1 & H2 & H3). cbv zeta in *.
    set (m := fold_left py_max l (py_max x y)) in *.
    assert (M : x <= py_max x y /\ y <= py_max x y
                /\ (py_max x y = x \/ py_max x y = y)).
    { unfold py_max. destruct (flt x y) eqn:E.
      - apply Q_flt_true in E. repeat split; auto; lra.
      - apply Q_flt_false in E. repeat split; auto; lra. }
    destruct M as (M1 & M2 & M3).
    split; [lra|]. split.
    + constructor; [lra|exact H2].
    + destruct H3 as [H3|H3].
      * rewrite <- H3. destruct M3 as [->| ->]; simpl; auto.
      * right. right. exact H3.
Qed.

(** What the loop accumulates is the largest depth factor of the list. *)
Lemma running_max_is_max (ds : list Q) (m : Q) :
  running_max ds = Some m -> In m ds /\ Forall (fun x => x <= m) ds.
Proof.
  destruct ds as [|d rest]; [discriminate|].
  unfold running_max. intro H. injection H as <-.
  destruct (fold_py_max_Q rest d) as (H1 & H2 & H3). cbv zeta in *.
  split; [exact H3|]. constructor; assumption.
Qed.
End MaximumQ.

Section ConfirmedRegions.
Variable rng_state : Type.
Variable legacy_gauss : rng_state -> Q * rng_state.
Local Open Scope Q_scope.

(** C4: with [period_days > 0] and a radius whose square is in the range
    of a float, [generate_confirmed_planet] returns, and its regions
    satisfy [0 <= start_index <= end_index < num_points]; they are in
    increasing order of [start_index] and mutually disjoint (each starts
    more than 10 samples after the end of the one before); an in-transit
    sample more than 10 samples after the end of the last region opens a
    new region and any other extends the last region; the depth of a
    region is the running maximum of the depth factors of the in-transit
    samples between its start and its end, that is, it is one of these
    depth factors and none of them is larger; and every in-transit sample
    lies in a region. *)
Theorem transit_regions_are_disjoint_runs
        (period_days transit_depth transit_duration : Q) (num_points : nat)
        (radius : option Q) (s : rng_state) :
  0 < period_days ->
  radius_in_range radius ->
  exists time flux regions d s',
    generate_confirmed_planet legacy_gauss period_days transit_depth
      transit_duration num_points radius s
    = (ok (time, flux, regions), s')
    /\ effective_depth transit_depth radius = ok d
    /\ let w := py_min (lit 0.04)
                       (fdiv transit_duration (fmul period_days (of_Z 24))) in
       let dips := dip_events period_days d w (enumerate time) in
       Forall (fun r => (0 <= start_index r <= end_index r)%nat
                        /\ (end_index r < num_points)%nat) regions
       /\ StronglySorted
            (fun r1 r2 => (start_index r1 < start_index r2)%nat
                          /\ (end_index r1 + 10 < start_index r2)%nat)
            regions
       /\ regions = record_all [] dips
       /\ (forall i (x : Q),
record_transit [] i x = [Build_TransitRegion i i x])
       /\ (forall pre l i (x : Q),
              record_transit (pre ++ [l]) i x
              = if (end_index l + 10 <? i)%nat
                then pre ++ [l; Build_TransitRegion i i x]
                else pre ++ [Build_TransitRegion (start_index l) i
                                                 (py_max (depth l) x)])
       /\ Forall (fun r =>
                    running_max (samples_in dips r) = Some (depth r)
                    /\ In (depth r) (samples_in dips r)
                    /\ Forall (fun x => x <= depth r) (samples_in dips r))
                 regions
       /\ Forall (fun e : nat * Q =>
                    Exists
                      (fun r => (start_index r <= fst e <= end_index r)%nat)
                      regions) dips.
Proof.
  intros P Hr.
  destruct (@generate_confirmed_planet_run _ legacy_gauss period_days
              transit_depth transit_duration num_points radius s Hr)
    as (d & noise & s' & Hd & _ & _ & E).
  rewrite Q_feq_false in E.
  2:{ intro Z0. change (period_days * 24 == 0) in Z0.
      assert (period_days == 0) as C by lra.
      rewrite C in P. discriminate P. }
  cbv zeta in E.
  eexists _, _, _, d, s'. split; [exact E|]. split; [exact Hd|].
  cbv zeta.
  destruct (add_transits_regions period_days d
              (py_min (lit 0.04)
                      (fdiv transit_duration (fmul period_days (of_Z 24))))
              (np_linspace (of_Z 0) (of_Z 30) num_points)
              (map2 fadd (np_ones num_points) noise))
    as (H1 & H2 & H3 & H4 & H5).
  rewrite np_linspace_length in H2.
  split; [exact H2|]. split; [exact H3|]. split; [exact H1|].
  split; [reflexivity|].
  split; [intros pre l i x; apply record_transit_snoc|].
  split; [|exact H5].
  eapply Forall_impl; [|exact H4]. intros r Hm.
  split; [exact Hm|]. apply running_max_is_max, Hm.
Qed.
End ConfirmedRegions.

Lemma transit_regions_are_disjoint_runs_witness :
  (0 < 3.5)%Q
  /\ radius_in_range None
  /\ exists time flux regions s',
      generate_confirmed_planet (rng_state := unit) (fun s => (0%Q, s))
                                3.5%Q 0.01%Q 3%Q 1000 None tt
      = (ok (time, flux, regions), s')
      /\ Forall (fun r => (0 <= start_index r <= end_index r)%nat
                          /\ (end_index r < 1000)%nat) regions.
Proof.
  split; [reflexivity|]. split; [exact I|].
  destruct (@transit_regions_are_disjoint_runs
              unit (fun s => (0%Q, s)) 3.5%Q 0.01%Q 3%Q 1000%nat None tt
              eq_refl I)
    as (time & flux & regions & d & s' & E & _ & B & _).
  exists time, flux, regions, s'. split; [exact E|exact B].
Defined.

(** ** The attribution engine returns *)

Section ArrayResults.
Context {F : Type} {A : Arith F}.

Lemma py_index_in_range (a : list F) (i : nat) :
  (i < List.length a)%nat -> exists x, py_index a (Z.of_nat i) = ok x.
Proof.
  intro H. unfold py_index. cbv zeta.
  assert (E0 : (Z.of_nat i <? 0)%Z = false) by (apply Z.ltb_ge; lia).
  rewrite E0. cbv iota. rewrite E0. rewrite Nat2Z.id.
  destruct (nth_error a i) as [x|] eqn:E.
  - exists x. reflexivity.
  - apply nth_error_None in E. lia.
Qed.

Lemma py_index_last (a : list F) :
  a <> [] -> exists x, py_index a (-1) = ok x.
Proof.
  intro H. unfold py_index. cbv zeta.
  change (-1 <? 0)%Z with true. cbv iota.
  assert (L : (0 < List.length a)%nat) by (destruct a; [congruence|simpl; lia]).
  replace (-1 + Z.of_nat (List.length a) <? 0)%Z with false
    by (symmetry; apply Z.ltb_ge; lia).
  destruct (nth_error a (Z.to_nat (-1 + Z.of_nat (List.length a)))) as [x|] eqn:E.
  - exists x. reflexivity.
  - apply nth_error_None in E. lia.
Qed.

Lemma insert_asc_length (x : F) (l : list F) :
  List.length (insert_asc x l) = S (List.length l).
Proof.
  induction l as [|y l IH]; simpl; [reflexivity|].
  destruct (flt x y); simpl; auto.
Qed.

Lemma np_sort_length (a : list F) : List.length (np_sort a) = List.length a.
Proof.
  induction a as [|x a IH]; simpl; [reflexivity|].
  unfold np_sort in *. simpl. rewrite insert_asc_length. auto.
Qed.

Lemma np_max_ok (a : list F) : a <> [] -> exists m, np_max a = ok m.
Proof.
  destruct a as [|x a]; [congruence|]. intros _. unfold np_max.
  destruct (existsb _ _); eexists; reflexivity.
Qed.

Lemma np_inplace_same_shape (op : F -> F -> F) (a b : list F) :
  List.length b = List.length a -> np_inplace op a b = ok (map2 op a b).
Proof.
  intro H. unfold np_inplace. rewrite H, Nat.eqb_refl. reflexivity.
Qed.

Lemma map2_same_length (op : F -> F -> F) (a b : list F) :
  List.length b = List.length a ->
  List.length (map2 op a b) = List.length a.
Proof. intro H. rewrite map2_length, H. apply Nat.min_id. Qed.

Lemma np_convolve_same_length (a v : list F) :
  List.length (np_convolve_same a v)
  = Nat.max (List.length a) (List.length v).
Proof.
  unfold np_convolve_same.
  destruct (Nat.ltb_spec (List.length a) (List.length v));
    rewrite length_map, length_seq; lia.
Qed.

Lemma gaussian_filter1d_length (np_exp : F -> F) (input : list F) (sigma : F) :
  List.length (gaussian_filter1d np_exp input sigma) = List.length input.
Proof. unfold gaussian_filter1d. rewrite length_map, length_seq. reflexivity. Qed.

Lemma sanitize_length (a : list F) : List.length (sanitize a) = List.length a.
Proof. apply length_map. Qed.

Lemma rescale_ok (a : list F) :
  a <> [] ->
  exists b, rescale a = ok b /\ List.length b = List.length a.
Proof.
  intro H. unfold rescale.
  destruct (@np_max_ok (np_abs a)) as [m Hm].
  { destruct a; [congruence|discriminate]. }
  rewrite Hm. simpl. destruct (fgt m (of_Z 0)); eexists; split;
    try reflexivity. apply length_map.
Qed.
End ArrayResults.

Lemma combine_seq_fst (T : Type) (l : list T) (a : nat) :
  map fst (combine (seq a (List.length l)) l) = seq a (List.length l).
Proof.
  revert a. induction l as [|x l IH]; intro a; [reflexivity|].
  simpl. f_equal. apply IH.
Qed.


Section ExplainerReturns.
Context {F : Type} {A : Arith F}.
Variable rng_state : Type.
Variable np_random_seed : Z -> rng_state.
Variable legacy_gauss : rng_state -> F * rng_state.
Variable np_exp : F -> F.
Variable format_1f : F -> string.

(** The one place where the arithmetic matters for the control flow: the
    two indices that [np.percentile] reads are inside the array. *)
Hypothesis percentile_ok :
  forall a : list F, a <> [] -> exists v, np_percentile a (of_Z 80) = ok v.


Lemma region_weights_ok (time : list F) (r : TransitRegion F) :
  valid_region (List.length time) r ->
  exists ws, region_weights np_exp time r = ok ws
             /\ List.length ws = List.length time.
Proof.
  intros [H1 H2]. unfold region_weights.
  destruct (@py_index_in_range _ time ((start_index r + end_index r) / 2))
    as [c Hc].
  { apply Nat.Div0.div_lt_upper_bound. lia. }
  rewrite Hc. rsimpl. eexists. split; [reflexivity|].
  rewrite !length_map. reflexivity.
Qed.

Lemma add_transit_peaks_ok (time : list F) (confidence : F)
      (regs : list (TransitRegion F)) :
  Forall (valid_region (List.length time)) regs ->
  forall (i : nat) (fi : list F),
    List.length fi = List.length time ->
    exists fi', add_transit_peaks np_exp time confidence i regs fi = ok fi'
                /\ List.length fi' = List.length time.
Proof.
  induction 1 as [|r regs Hr _ IH]; intros i fi L; simpl.
  - exists fi. auto.
  - destruct (@region_weights_ok time r Hr) as (ws & -> & Lw). rsimpl.
    rewrite np_inplace_same_shape by (rewrite length_map; congruence).
    rsimpl. apply IH. rewrite map2_same_length; [exact L|].
    rewrite length_map. congruence.
Qed.

Lemma subtract_transit_peaks_ok (time : list F) (confidence : F)
      (regs : list (TransitRegion F)) :
  Forall (valid_region (List.length time)) regs ->
  forall fi : list F,
    List.length fi = List.length time ->
    exists fi', subtract_transit_peaks np_exp time confidence regs fi = ok fi'
                /\ List.length fi' = List.length time.
Proof.
  induction 1 as [|r regs Hr _ IH]; intros fi L; simpl.
  - exists fi. auto.
  - destruct (@region_weights_ok time r Hr) as (ws & -> & Lw). rsimpl.
    rewrite np_inplace_same_shape by (rewrite length_map; congruence).
    rsimpl. apply IH. rewrite map2_same_length; [exact L|].
    rewrite length_map. congruence.
Qed.

Lemma exoplanet_importance_ok (flux time : list F) (confidence : F)
      (regs : list (TransitRegion F)) (fi : list F) :
  flux <> [] ->
  List.length time = List.length flux ->
  List.length fi = List.length flux ->
  Forall (valid_region (List.length time)) regs ->
  exists fi', exoplanet_importance np_exp flux time confidence regs fi = ok fi'
              /\ List.length fi' = List.length flux.
Proof.
  intros N Lt Lf V. unfold exoplanet_importance.
  destruct (@add_transit_peaks_ok time confidence regs V 0%nat fi)
    as (fi1 & -> & L1); [congruence|]. rsimpl.
  match goal with
  | |- context [np_percentile ?a _] =>
      destruct (@percentile_ok a) as [th ->]
  end.
  { destruct flux; [congruence|discriminate]. }
  rsimpl. eexists. split; [reflexivity|].
  rewrite length_map, length_combine, !length_map, map2_length, !length_map.
  lia.
Qed.

Lemma no_planet_importance_ok (flux time : list F) (confidence : F)
      (regs : list (TransitRegion F)) (fi : list F) :
  (3 <= List.length flux)%nat ->
  List.length time = List.length flux ->
  List.length fi = List.length flux ->
  Forall (valid_region (List.length time)) regs ->
  exists fi', no_planet_importance np_exp flux time confidence regs fi = ok fi'
              /\ List.length fi' = List.length flux.
Proof.
  intros N Lt Lf V. unfold no_planet_importance.
  match goal with
  | |- context [np_max ?a] => destruct (@np_max_ok _ _ a) as [m ->]
  end.
  { destruct flux; [simpl in N; lia|discriminate]. }
  rsimpl.
  set (nv := if fgt m (lit 1e-10) then _ else _).
  assert (Lnv : List.length nv = List.length flux).
  { unfold nv. destruct (fgt m (lit 1e-10)).
    - rewrite !length_map. reflexivity.
    - unfold np_zeros. rewrite repeat_length, length_map. reflexivity. }
  set (w := Nat.max 3 (List.length flux / 50)).
  assert (Lw : (w <= List.length flux)%nat).
  { unfold w. apply Nat.max_lub; [exact N|].
    apply Nat.Div0.div_le_upper_bound. lia. }
  rewrite np_inplace_same_shape.
  2:{ rewrite length_map, np_convolve_same_length, Lnv, length_map,
        np_ones_length. lia. }
  rsimpl.
  match goal with
  | |- context [subtract_transit_peaks _ _ _ _ ?x] =>
      destruct (@subtract_transit_peaks_ok time confidence regs V x)
        as (fi2 & -> & L2)
  end.
  { rewrite map2_same_length; [congruence|].
    rewrite length_map, np_convolve_same_length, Lnv, length_map,
      np_ones_length. lia. }
  rsimpl. eexists. split; [reflexivity|].
  rewrite length_map, map2_length, !length_map. lia.
Qed.

Lemma close_region_ok (fi time : list F) (region_start i : nat) :
  (region_start < i)%nat -> (i < List.length time)%nat ->
  exists r, close_region fi time region_start i = ok r.
Proof.
  intros H1 H2. unfold close_region.
  destruct (@py_index_in_range _ time region_start) as [t0 ->]; [lia|].
  replace (Z.of_nat i - 1)%Z with (Z.of_nat (i - 1)) by lia.
  destruct (@py_index_in_range _ time (i - 1)) as [t1 ->]; [lia|].
  rsimpl. eexists. reflexivity.
Qed.

Lemma scan_regions_ok (fi time : list F) (mask : list (nat * bool)) :
  StronglySorted lt (map fst mask) ->
  Forall (fun j => (j < List.length time)%nat) (map fst mask) ->
  forall (regions : list (TopRegion F)) (in_region : bool) (region_start : nat),
    (in_region = true ->
     Forall (fun j => (region_start < j)%nat) (map fst mask)) ->
    exists out, scan_regions fi time mask regions in_region region_start = ok out.
Proof.
  induction mask as [|[i b] mask IH]; intros S B regions in_region start Hs.
  - exists regions. reflexivity.
  - simpl in S, B. inversion S as [|? ? S' Hi]; subst.
    inversion B as [|? ? Bi B']; subst.
    simpl scan_regions.
    destruct (b && negb in_region) eqn:E1.
    + apply IH; auto.
    + destruct (negb b && in_region) eqn:E2.
      * apply andb_true_iff in E2. destruct E2 as [_ E2]. subst in_region.
        specialize (Hs eq_refl). simpl in Hs.
        inversion Hs as [|? ? Hs1 Hs2]; subst.
        destruct (@close_region_ok fi time start i Hs1 Bi) as [r ->].
        rsimpl. apply IH; auto.
      * apply IH; auto. intro T. specialize (Hs T). simpl in Hs.
        inversion Hs; assumption.
Qed.

Lemma identify_top_regions_ok (fi time : list F) (top_k : nat) :
  fi <> [] -> List.length time = List.length fi ->
  exists out, _identify_top_regions fi time top_k = ok out.
Proof.
  intros N L. unfold _identify_top_regions.
  destruct (@percentile_ok (np_abs fi)) as [th ->].
  { destruct fi; [congruence|discriminate]. }
  rsimpl.
  match goal with
  | |- context [scan_regions _ _ ?m _ _ _] =>
      destruct (@scan_regions_ok fi time m) with (regions := @nil (TopRegion F))
        (in_region := false) (region_start := 0%nat) as [out ->]
  end.
  - rewrite combine_seq_fst. apply seq_sorted.
  - rewrite combine_seq_fst. apply Forall_forall. intros j Hj.
    apply in_seq in Hj. rewrite length_map in Hj. unfold np_abs in Hj.
    rewrite length_map in Hj. lia.
  - discriminate.
  - rsimpl. eexists. reflexivity.
Qed.
End ExplainerReturns.

Section ExplainReturns.
Context {F : Type} {A : Arith F}.
Variable rng_state : Type.
Variable np_random_seed : Z -> rng_state.
Variable legacy_gauss : rng_state -> F * rng_state.
Variable np_exp : F -> F.
Variable format_1f : F -> string.
Hypothesis percentile_ok :
  forall a : list F, a <> [] -> exists v, np_percentile a (of_Z 80) = ok v.

Lemma explain_prediction_ok (flux time : list F) (classification : string)
      (confidence : F) (regs : list (TransitRegion F)) (s : rng_state) :
  (3 <= List.length flux)%nat ->
  List.length time = List.length flux ->
  Forall (valid_region (List.length time)) regs ->
  exists e s',
    explain_prediction np_random_seed legacy_gauss np_exp format_1f
                       flux time classification confidence regs s
    = (ok e, s').
Proof.
  intros N Lt V.
  unfold explain_prediction, _generate_synthetic_shap, mbind, random_seed.
  cbv beta iota delta [ok].
  destruct (@random_normal_ok _ _ rng_state legacy_gauss (of_Z 0) (lit 0.01)
              (List.length flux) (np_random_seed 42))
    as (noise & s' & -> & Ln).
  cbv beta iota delta [ok]. unfold mlift.
  set (fi0 := map2 fadd (np_zeros (List.length flux)) noise).
  assert (L0 : List.length fi0 = List.length flux).
  { unfold fi0, np_zeros. rewrite map2_length, repeat_length, Ln.
    apply Nat.min_id. }
  assert (N0 : flux <> []) by (destruct flux; [simpl in N; lia|discriminate]).
  assert (B : exists fi1,
             (if String.eqb classification "exoplanet"
              then exoplanet_importance np_exp flux time confidence regs fi0
              else no_planet_importance np_exp flux time confidence regs fi0)
             = ok fi1 /\ List.length fi1 = List.length flux).
  { destruct (String.eqb classification "exoplanet").
    - apply exoplanet_importance_ok; assumption.
    - apply no_planet_importance_ok; assumption. }
  destruct B as (fi1 & -> & L1). rsimpl.
  destruct (@rescale_ok _ _ (gaussian_filter1d np_exp fi1 (lit 1.5)))
    as (fi2 & -> & L2).
  { intro E. apply (f_equal (@List.length F)) in E.
    rewrite gaussian_filter1d_length, L1 in E. simpl in E. lia. }
  rsimpl.
  destruct (@identify_top_regions_ok _ _ percentile_ok (sanitize fi2) time 5%nat)
    as [top ->].
  { intro E. apply (f_equal (@List.length F)) in E.
    rewrite sanitize_length, L2, gaussian_filter1d_length, L1 in E.
    simpl in E. lia. }
  { rewrite sanitize_length, L2, gaussian_filter1d_length, L1. exact Lt. }
  rsimpl. eexists _, _. reflexivity.
Qed.
End ExplainReturns.

Section PercentileQ.
Local Open Scope Q_scope.

Lemma existsb_is_nan_Q (a : list Q) :
  existsb is_nan a = false.
Proof. induction a; simpl; auto. Qed.

Lemma percentile_ok_Q (a : list Q) :
  a <> [] -> exists v, np_percentile a (of_Z 80) = ok v.
Proof.
  intro N. unfold np_percentile. destruct a as [|x a']; [congruence|].
  set (a := x :: a') in *. rewrite existsb_is_nan_Q. cbv zeta.
  set (vi := fmul (of_nat (List.length a - 1)) (fdiv (of_Z 80) (of_Z 100))).
  assert (V0 : 0 <= vi).
  { unfold vi. simpl fmul. simpl fdiv. simpl of_Z.
    apply Qmult_le_0_compat; [apply Q_of_nat_nonneg|discriminate]. }
  assert (S : np_sort a <> []).
  { intro E. apply (f_equal (@List.length Q)) in E.
    rewrite np_sort_length in E. discriminate E. }
  replace (flt vi (of_Z 0)) with false
    by (symmetry; apply Q_flt_false; exact V0).
  destruct (flt vi (of_nat (List.length a - 1))) eqn:Ab; simpl negb; cbv iota.
  - apply Q_flt_true in Ab.
    assert (F0 : (0 <= Qfloor vi)%Z).
    { change 0%Z with (Qfloor (inject_Z 0)). apply Qfloor_resp_le. exact V0. }
    assert (F1 : (Qfloor vi < Z.of_nat (List.length a - 1))%Z).
    { rewrite Zlt_Qlt. eapply Qle_lt_trans; [apply Qfloor_le|exact Ab]. }
    destruct (@py_index_in_range _ (np_sort a) (Z.to_nat (Qfloor vi)))
      as [p Hp].
    { rewrite np_sort_length. lia. }
    destruct (@py_index_in_range _ (np_sort a) (Z.to_nat (Qfloor vi + 1)))
      as [q Hq].
    { rewrite np_sort_length. lia. }
    rewrite Z2Nat.id in Hp, Hq by lia.
    change (ffloor vi) with (Qfloor vi). rewrite Hp. rsimpl. rewrite Hq. rsimpl.
    eexists. reflexivity.
  - destruct (@py_index_last _ (np_sort a) S) as [p ->]. rsimpl.
    eexists. reflexivity.
Qed.
End PercentileQ.

(** ** Determinism of the attribution engine *)

Section ExplainDeterministic.
Context {F : Type} {A : Arith F}.
Variable rng_state : Type.
Variable np_random_seed : Z -> rng_state.
Variable legacy_gauss : rng_state -> F * rng_state.
Variable np_exp : F -> F.
Variable format_1f : F -> string.

(** C10: the result of [explain_prediction] (the explanation or the
    exception, and the state the generator is left in) does not depend on
    the state of the random generator when the call starts, because the
    call begins by seeding it with 42; with the same arguments two calls
    return the same thing. *)
Theorem explain_prediction_is_deterministic
        (light_curve time_points : list F) (classification : string)
        (confidence : F) (transit_regions : list (TransitRegion F))
        (s1 s2 : rng_state) :
  explain_prediction np_random_seed legacy_gauss np_exp format_1f
                     light_curve time_points classification confidence
                     transit_regions s1
  = explain_prediction np_random_seed legacy_gauss np_exp format_1f
                       light_curve time_points classification confidence
                       transit_regions s2
  /\ (forall e s',
         explain_prediction np_random_seed legacy_gauss np_exp format_1f
                            light_curve time_points classification confidence
                            transit_regions s1 = (e, s') ->
         s' = snd (np_random_normal legacy_gauss (of_Z 0) (lit 0.01)
                                    (List.length light_curve)
                                    (np_random_seed 42))).
Proof.
  unfold explain_prediction, _generate_synthetic_shap, mbind, random_seed,
    random_normal, mlift.
  split; [reflexivity|].
  cbv beta iota delta [ok].
  destruct (np_random_normal legacy_gauss (of_Z 0) (lit 0.01)
                             (List.length light_curve) (np_random_seed 42))
    as [noise s0].
  simpl snd. intros e s' H.
  match type of H with
  | (?r, _) = _ => destruct r
  end; inversion H; reflexivity.
Qed.
End ExplainDeterministic.

(** ** The classification resolver *)


Section PredictSynthetic.
Variable rng_state : Type.
Variable np_random_seed : Z -> rng_state.
Variable legacy_gauss : rng_state -> Q * rng_state.
Variable np_exp : Q -> Q.
Variable np_sin : Q -> Q.
Variable np_pi : Q.
Variable format_1f : Q -> string.
Variable hash : string -> Z.
Local Open Scope Q_scope.


Lemma classify_and_generate_run (sample : Sample Q) (s : rng_state) :
  (String.eqb (truth sample) "confirmed" = true
   /\ exists r,
       p_planet_radius (params sample) = Some r
       /\ overflow_threshold <= raw_depth r
       /\ classify_and_generate legacy_gauss np_sin np_pi hash sample s
          = (raise OverflowError, s))
  \/ (String.eqb (truth sample) "confirmed" = true
      /\ radius_in_range (p_planet_radius (params sample))
      /\ get (p_period_days (params sample)) (of_Z 10) * 24 == 0
      /\ exists s',
          classify_and_generate legacy_gauss np_sin np_pi hash sample s
          = (raise ZeroDivisionError, s'))
  \/ ((String.eqb (truth sample) "confirmed" = true ->
       radius_in_range (p_planet_radius (params sample))
       /\ ~ get (p_period_days (params sample)) (of_Z 10) * 24 == 0)
      /\ exists time flux regs s',
         classify_and_generate legacy_gauss np_sin np_pi hash sample s
         = (ok (time, flux, regs,
                fst (resolve (A := Q_arith) hash (truth sample) (sample_id sample)),
                snd (resolve (A := Q_arith) hash (truth sample) (sample_id sample))), s')
         /\ explainable time flux regs).
Proof.
  unfold classify_and_generate, resolve.
  destruct (String.eqb (truth sample) "confirmed") eqn:T1;
    [|destruct (String.eqb (truth sample) "candidate") eqn:T2].
  - destruct (radius_in_range_dec (p_planet_radius (params sample)))
      as [Hr|(r & Er & Hr)].
    2:{ left. split; [reflexivity|]. exists r. split; [exact Er|].
        split; [exact Hr|]. unfold mbind. rewrite Er.
        rewrite (@generate_confirmed_planet_overflow _ legacy_gauss
                   (get (p_period_days (params sample)) (of_Z 10))
                   (get (p_transit_depth (params sample)) (lit 0.01))
                   (get (p_transit_duration (params sample)) (of_Z 3))
                   r 1000 s Hr).
        reflexivity. }
    right.
    destruct (@generate_confirmed_planet_run _ legacy_gauss
                (get (p_period_days (params sample)) (of_Z 10))
                (get (p_transit_depth (params sample)) (lit 0.01))
                (get (p_transit_duration (params sample)) (of_Z 3))
                1000 (p_planet_radius (params sample)) s Hr)
      as (d & noise & s' & _ & _ & Hl & E).
    unfold mbind. rewrite E.
    destruct (feq _ _) eqn:Z0.
    + left. split; [reflexivity|]. split; [exact Hr|].
      split; [apply Q_feq_true in Z0; exact Z0|].
      exists s'. reflexivity.
    + right. cbv zeta. cbv beta iota delta [ok mret].
      split.
      { intros _. split; [exact Hr|]. intro Z1.
        eapply eq_true_false_abs;
          [exact (proj2 (Q_feq_true _ _) Z1)|exact Z0]. }
      eexists _, _, _, _. split; [reflexivity|].
      match goal with
      | |- explainable _ (fst (add_transits ?p ?d ?w ?t ?f)) _ =>
          destruct (add_transits_regions p d w t f) as (_ & B & _)
      end.
      unfold explainable. rewrite np_linspace_length in *.
      split; [reflexivity|]. split.
      * unfold add_transits. rewrite transit_loop_flux_length.
        apply noisy_ones_length, Hl.
      * eapply Forall_impl; [|exact B]. intros r [[_ H1] H2].
        split; assumption.
  - right. right.
    destruct (generate_candidate_shape legacy_gauss 1000 s)
      as (time & flux & s' & E & Lt & Lf & _).
    unfold mbind. rewrite E. cbv beta iota delta [ok mret].
    split; [discriminate|].
    destruct (hash (sample_id sample) mod 100 <? 70)%Z;
      eexists _, _, _, _; (split; [reflexivity|]);
      unfold explainable; auto.
  - right. right.
    destruct (generate_false_positive_shape legacy_gauss np_sin np_pi 1000
                (get (p_anomaly_type (params sample)) "noise"%string) s)
      as (time & flux & s' & E & Lt & Lf & _).
    unfold mbind. rewrite E. cbv beta iota delta [ok mret].
    split; [discriminate|].
    eexists _, _, _, _. split; [reflexivity|]. unfold explainable. auto.
Qed.

(** [_predict_synthetic] stops at the square of line 30 of the generator
    (a confirmed sample whose radius is out of range), or at the division
    of line 66 (a confirmed sample whose [period_days * 24] is zero), or
    returns a response that carries the resolved label and confidence. *)
Lemma predict_synthetic_run (sample : Sample Q) (s : rng_state) :
  (String.eqb (truth sample) "confirmed" = true
   /\ exists r,
       p_planet_radius (params sample) = Some r
       /\ overflow_threshold <= raw_depth r
       /\ _predict_synthetic np_random_seed legacy_gauss np_exp np_sin np_pi
                             format_1f hash sample s
          = (raise OverflowError, s))
  \/ (String.eqb (truth sample) "confirmed" = true
      /\ radius_in_range (p_planet_radius (params sample))
      /\ get (p_period_days (params sample)) (of_Z 10) * 24 == 0
      /\ exists s',
          _predict_synthetic np_random_seed legacy_gauss np_exp np_sin np_pi
                             format_1f hash sample s
          = (raise ZeroDivisionError, s'))
  \/ ((String.eqb (truth sample) "confirmed" = true ->
       radius_in_range (p_planet_radius (params sample))
       /\ ~ get (p_period_days (params sample)) (of_Z 10) * 24 == 0)
      /\ exists r s',
         _predict_synthetic np_random_seed legacy_gauss np_exp np_sin np_pi
                            format_1f hash sample s
         = (ok r, s')
         /\ forall t,
             classification (r t)
             = fst (resolve (A := Q_arith) hash (truth sample) (sample_id sample))
             /\ confidence_score (r t)
                = snd (resolve (A := Q_arith) hash (truth sample) (sample_id sample))).
Proof.
  unfold _predict_synthetic.
  destruct (classify_and_generate_run sample s)
    as [(T & r & Er & Hr & E)
       |[(T & Hr & Z0 & s' & E)
        |(Hc & time & flux & regs & s' & E & Lt & Lf & V)]].
  - left. split; [exact T|]. exists r. split; [exact Er|].
    split; [exact Hr|]. unfold mbind. rewrite E. reflexivity.
  - right. left. split; [exact T|]. split; [exact Hr|]. split; [exact Z0|].
    exists s'. unfold mbind. rewrite E. reflexivity.
  - right. right. unfold mbind at 1. rewrite E. cbv beta iota delta [ok].
    destruct (@explain_prediction_ok Q Q_arith rng_state np_random_seed
                legacy_gauss np_exp format_1f percentile_ok_Q flux time
                (fst (resolve (A := Q_arith) hash (truth sample) (sample_id sample)))
                (snd (resolve (A := Q_arith) hash (truth sample) (sample_id sample)))
                regs s')
      as (e & s'' & Ee).
    + rewrite Lf. lia.
    + congruence.
    + rewrite Lt. exact V.
    + unfold mbind. rewrite Ee. cbv beta iota delta [ok mret].
      split; [exact Hc|].
      eexists _, _. split; [reflexivity|]. intro t. split; reflexivity.
Qed.
End PredictSynthetic.

Section ResolverFacts.
Variable hash : string -> Z.
Local Open Scope Q_scope.




(** [base + k/100] for an integer [0 <= k < m]. *)
Lemma confidence_value (base : Q) (k m : Z) :
  (0 <= k < m)%Z ->
  fadd (lit base) (fdiv (of_Z k) (of_Z 100)) == base + inject_Z k / 100
  /\ base <= fadd (lit base) (fdiv (of_Z k) (of_Z 100))
  /\ fadd (lit base) (fdiv (of_Z k) (of_Z 100))
     <= base + inject_Z (m - 1) / 100.
Proof.
  intros [K0 K1].
  assert (E : fadd (lit base) (fdiv (of_Z k) (of_Z 100))
              == base + inject_Z k / 100).
  { change (lit (A := Q_arith) base + inject_Z k / 100 == base + inject_Z k / 100).
    rewrite Q_lit. reflexivity. }
  assert (L : 0 <= inject_Z k)
    by (change 0 with (inject_Z 0); rewrite <- Zle_Qle; exact K0).
  assert (U : inject_Z k <= inject_Z (m - 1))
    by (rewrite <- Zle_Qle; lia).
  split; [exact E|]. rewrite E. split.
  - assert (0 <= inject_Z k / 100) by (apply Qle_shift_div_l; [reflexivity|lra]).
    lra.
  - apply Qplus_le_r. apply Qmult_le_compat_r; [exact U|discriminate].
Qed.
End ResolverFacts.

Section ResolverClaims.
Variable rng_state : Type.
Variable np_random_seed : Z -> rng_state.
Variable legacy_gauss : rng_state -> Q * rng_state.
Variable np_exp : Q -> Q.
Variable np_sin : Q -> Q.
Variable np_pi : Q.
Variable format_1f : Q -> string.
Variable hash : string -> Z.
Local Open Scope Q_scope.

Let run :=
  _predict_synthetic np_random_seed legacy_gauss np_exp np_sin np_pi
                     format_1f hash.



(** C2, as the code has it: under one hash function (one interpreter
    process, or two processes started with the same [PYTHONHASHSEED]),
    two calls for samples of the same identifier and truth label give the
    same label and the same confidence whenever both give a response,
    whatever the other fields of the samples and whatever the state of
    the random generator. *)
Theorem same_hash_same_classification
        (sample1 sample2 : Sample Q) (s1 s2 : rng_state) :
  sample_id sample1 = sample_id sample2 ->
  truth sample1 = truth sample2 ->
  same_label_and_confidence (run sample1 s1) (run sample2 s2).
Proof.
  intros Hid Htruth.
  pose proof (predict_synthetic_run np_random_seed legacy_gauss np_exp np_sin
                np_pi format_1f hash sample1 s1) as R1.
  pose proof (predict_synthetic_run np_random_seed legacy_gauss np_exp np_sin
                np_pi format_1f hash sample2 s2) as R2.
  fold run in R1, R2. unfold same_label_and_confidence.
  destruct R1 as [(_ & ? & _ & _ & ->)
                 |[(_ & _ & _ & s1' & ->)|(_ & r1 & s1' & -> & C1)]];
    [exact I..|].
  destruct R2 as [(_ & ? & _ & _ & ->)
                 |[(_ & _ & _ & s2' & ->)|(_ & r2 & s2' & -> & C2)]];
    [exact I..|].
  intros t1 t2. destruct (C1 t1) as [-> ->]. destruct (C2 t2) as [-> ->].
  rewrite Hid, Htruth. split; reflexivity.
Qed.
End ResolverClaims.

(** ** Unknown sample identifiers *)

Section UnknownSample.
Context {F : Type} {A : Arith F}.
Variable rng_state : Type.
Variable np_random_seed : Z -> rng_state.
Variable legacy_gauss : rng_state -> F * rng_state.
Variable np_exp : F -> F.
Variable np_sin : F -> F.
Variable np_pi : F.
Variable format_1f : F -> string.
Variable hash : string -> Z.
Variable samples_db : list (Sample F).
Variable str_of_exn : exn -> string.

Lemma find_unknown (id : string) :
  (forall smp, In smp samples_db -> sample_id smp <> id) ->
  find (fun smp => String.eqb (sample_id smp) id) samples_db = None.
Proof.
  induction samples_db as [|x db IH]; intro H; [reflexivity|].
  simpl. destruct (String.eqb_spec (sample_id x) id) as [E|_].
  - exfalso. apply (H x); [left; reflexivity|exact E].
  - apply IH. intros smp Hin. apply H. right. exact Hin.
Qed.

(** C9: for an identifier that matches no catalog entry, [predict]
    raises [ValueError("Sample <id> not found")] and the route answers
    404 with that message; the state of the random generator is the one
    the call started with (no noise was drawn and the generator was not
    reseeded, so no light curve and no explanation were computed), and
    the outcome carries no response. *)
Theorem unknown_sample_is_not_found
        (id : string) (processing_time : Z) (s : rng_state) :
  (forall smp, In smp samples_db -> sample_id smp <> id) ->
  predict np_random_seed legacy_gauss np_exp np_sin np_pi format_1f hash
          samples_db id processing_time s
  = (raise (ValueError ("Sample " ++ id ++ " not found")%string), s)
  /\ predict_exoplanet np_random_seed legacy_gauss np_exp np_sin np_pi
                       format_1f hash samples_db str_of_exn id
                       processing_time s
     = (HTTPException 404 ("Sample " ++ id ++ " not found")%string, s).
Proof.
  intro H. unfold predict_exoplanet, predict.
  rewrite (find_unknown H). split; reflexivity.
Qed.
End UnknownSample.

(** ** Closed instances *)

Unset Implicit Arguments.


(** C2 as stated fails: the label of the candidate [koi-5123] is
    [exoplanet] (confidence 0.71) in an interpreter started with
    [PYTHONHASHSEED=1], where [hash("koi-5123") mod 100 = 51], and
    [no_planet] (confidence 0.59) in one started with [PYTHONHASHSEED=8],
    where it is 79. *)
Lemma hash_secret_changes_the_label :
  (PyHash.str_hash (PyHash.key_of_seed 1) "koi-5123" mod 100 = 51)%Z
  /\ (PyHash.str_hash (PyHash.key_of_seed 8) "koi-5123" mod 100 = 79)%Z
  /\ exists r1 r2 s1 s2,
      standin_predict_synthetic (PyHash.str_hash (PyHash.key_of_seed 1))
                                koi_5123 tt = (ok r1, s1)
      /\ standin_predict_synthetic (PyHash.str_hash (PyHash.key_of_seed 8))
                                   koi_5123 tt = (ok r2, s2)
      /\ classification (r1 0%Z) = "exoplanet"%string
      /\ classification (r2 0%Z) = "no_planet"%string
      /\ (confidence_score (r1 0%Z) == 0.71)%Q
      /\ (confidence_score (r2 0%Z) == 0.59)%Q.
Proof.
  split; [vm_compute; reflexivity|]. split; [vm_compute; reflexivity|].
 
  destruct (predict_synthetic_run Standin.np_random_seed Standin.legacy_gauss
              Standin.np_exp Standin.np_sin Standin.np_pi Standin.format_1f
              (PyHash.str_hash (PyHash.key_of_seed 1)) koi_5123 tt)
    as [(T & _)|[(T & _)|(_ & r1 & s1 & E1 & C1)]]; [discriminate T..|].
  destruct (predict_synthetic_run Standin.np_random_seed Standin.legacy_gauss
              Standin.np_exp Standin.np_sin Standin.np_pi Standin.format_1f
              (PyHash.str_hash (PyHash.key_of_seed 8)) koi_5123 tt)
    as [(T & _)|[(T & _)|(_ & r2 & s2 & E2 & C2)]]; [discriminate T..|].
  exists r1, r2, s1, s2.
  split; [exact E1|]. split; [exact E2|].
  destruct (C1 0%Z) as [L1 V1]. destruct (C2 0%Z) as [L2 V2].
  set (c1 := classification (r1 0%Z)) in *.
  set (c2 := classification (r2 0%Z)) in *.
  set (v1 := confidence_score (r1 0%Z)) in *.
  set (v2 := confidence_score (r2 0%Z)) in *.
  clearbody c1 c2 v1 v2. subst c1 c2 v1 v2.
  split; [vm_compute; reflexivity|]. split; [vm_compute; reflexivity|].
  split; vm_compute; reflexivity.
Qed.

Lemma same_hash_same_classification_witness :
  same_label_and_confidence
    (standin_predict_synthetic (PyHash.str_hash (PyHash.key_of_seed 1))
                               koi_5123 tt)
    (standin_predict_synthetic
       (PyHash.str_hash (PyHash.key_of_seed 1))
       (Build_Sample "koi-5123" "another name" "candidate"
                     (Build_Params (Some 5%Q) None None None None))
       tt).
Proof.
  exact (@same_hash_same_classification
           Standin.rng_state Standin.np_random_seed Standin.legacy_gauss
           Standin.np_exp Standin.np_sin Standin.np_pi Standin.format_1f
           (PyHash.str_hash (PyHash.key_of_seed 1))
           koi_5123
           (Build_Sample "koi-5123" "another name" "candidate"
                         (Build_Params (Some 5%Q) None None None None))
           tt tt eq_refl eq_refl).
Defined.

Lemma unknown_sample_is_not_found_witness :
  predict Standin.np_random_seed Standin.legacy_gauss Standin.np_exp
          Standin.np_sin Standin.np_pi Standin.format_1f
          (PyHash.str_hash (PyHash.key_of_seed 1)) [koi_5123]
          "kepler-0" 0 tt
  = (raise (ValueError "Sample kepler-0 not found"), tt).
Proof.
  apply (@unknown_sample_is_not_found Q Q_arith
           Standin.rng_state Standin.np_random_seed Standin.legacy_gauss
           Standin.np_exp Standin.np_sin Standin.np_pi Standin.format_1f
           (PyHash.str_hash (PyHash.key_of_seed 1)) [koi_5123]
           (fun _ => ""%string) "kepler-0"%string 0%Z tt).
  intros smp [<-|[]]. discriminate.
Defined.

(** ** binary64: trailing runs, NaN and the final rescale *)


Section Binary64Facts.
Import SpecFloat.

Lemma SFeqb_diag (s : spec_float) :
SFeqb s s = match s with S754_nan => false | _ => true end.
Proof.
destruct s as [b|b| |b m e]; try reflexivity.
- destruct b; reflexivity.
- unfold SFeqb, SFcompare.
  destruct b; rewrite Z.compare_refl, Pos.compare_cont_refl; reflexivity.
Qed.

Lemma is_nan_SF (x : float) :
PrimFloat.is_nan x = match Prim2SF x with S754_nan => true | _ => false end.
Proof.
unfold PrimFloat.is_nan. rewrite FloatAxioms.eqb_spec, SFeqb_diag.
destruct (Prim2SF x); reflexivity.
Qed.

Lemma is_nan_abs (x : float) :
PrimFloat.is_nan (PrimFloat.abs x) = PrimFloat.is_nan x.
Proof.
rewrite !is_nan_SF, FloatAxioms.abs_spec. destruct (Prim2SF x); reflexivity.
Qed.

Lemma existsb_is_nan_abs (a : list float) :
existsb PrimFloat.is_nan (map PrimFloat.abs a) = existsb PrimFloat.is_nan a.
Proof.
induction a as [|x a IH]; [reflexivity|].
cbn [existsb map]. rewrite IH, is_nan_abs. reflexivity.
Qed.
End Binary64Facts.

(** Lines 186-188 in binary64: as soon as the smoothed array holds a NaN,
    [np.max] is NaN, [max_abs > 0] is false and nothing is rescaled. *)
Lemma rescale_skipped_on_nan (smoothed : list float) :
  existsb is_nan smoothed = true -> rescale smoothed = ok smoothed.
Proof.
  intro H. unfold rescale, np_max.
  destruct smoothed as [|x a]; [discriminate H|].
  change (np_abs (x :: a)) with (fabs x :: np_abs a). cbv beta iota.
  change (existsb is_nan (fabs x :: np_abs a))
    with (existsb PrimFloat.is_nan (map PrimFloat.abs (x :: a))).
  rewrite existsb_is_nan_abs.
  change (existsb PrimFloat.is_nan (x :: a)) with (existsb is_nan (x :: a)).
  rewrite H. reflexivity.
Qed.

(** Line 191 in binary64: what leaves the sanitising is finite, and a
    finite entry leaves it as it came. *)
Lemma sanitize_finite (a : list float) :
  Forall (fun x => is_nan x = false /\ is_inf x = false) (sanitize a).
Proof.
  unfold sanitize. apply Forall_forall. intros y Hy.
  apply in_map_iff in Hy. destruct Hy as (x & <- & _).
  unfold nan_to_num1.
  destruct (is_nan x) eqn:N; [split; reflexivity|].
  destruct (is_inf x) eqn:I; [|split; assumption].
  destruct (flt (of_Z 0) x); split; reflexivity.
Qed.

Lemma sanitize_keeps_finite (a : list float) :
  Forall (fun x => is_nan x = false /\ is_inf x = false) a -> sanitize a = a.
Proof.
  induction 1 as [|x a [N I] _ IH]; [reflexivity|].
  unfold sanitize in *. cbn [map]. rewrite IH. unfold nan_to_num1.
  rewrite N, I. reflexivity.
Qed.

(** C7 fails on the code.  A transit region of one sample
    ([start_index = end_index]) has width 0, so line 112 divides the zero
    distance of the centre sample by zero: the argument of [np.exp] there
    is NaN.  A NaN that reaches the smoothed array makes [np.max] NaN, so
    the rescale of line 188 is skipped; the sanitising then turns the NaN
    into 0.0 and leaves the other entries as they are, here 0.7, above the
    bound 0.6.  Without the NaN the same entries are rescaled to at most
    0.6. *)
Theorem nan_defeats_the_rescale :
  (forall np_exp : float -> float,
      region_weights np_exp (floats [0; 15; 30]%Q)
                     (Build_TransitRegion 1 1 (lit 0.01))
      = ok [np_exp neg_infinity; np_exp nan; np_exp neg_infinity])
  /\ (let smoothed := nan :: floats [0.7; 0.1]%Q in
      rescale smoothed = ok smoothed
      /\ sanitize smoothed = floats [0; 0.7; 0.1]%Q
      /\ existsb (fun x => flt (lit 0.6) (fabs x)) (sanitize smoothed) = true)
  /\ (let smoothed := floats [0.35; 0.7; 0.1]%Q in
      exists scaled,
        rescale smoothed = ok scaled
        /\ existsb (fun x => flt (lit 0.6) (fabs x)) (sanitize scaled) = false).
Proof.
  split; [|split].
  - intro np_exp. vm_compute. reflexivity.
  - cbv zeta. split; [|split]; vm_compute; reflexivity.
  - cbv zeta. eexists. split; vm_compute; reflexivity.
Qed.

(** C8 fails on the code.  In [0, 0, 0, 0, 0.6] the 80th percentile of the
    absolute importance is 0.12, so the only run above the threshold is the
    last point; the loop closes a run only when it meets a point below the
    threshold, the array ends first, and no region is recorded (closing the
    run at the end of the array would have recorded the region from 30 to
    30 days with importance 0.6).  The same run one position earlier is
    recorded. *)
Theorem trailing_run_is_dropped :
  let time_points := floats [0; 7.5; 15; 22.5; 30]%Q in
  let feature_importance := floats [0; 0; 0; 0; 0.6]%Q in
  map (fun x => fgt x (lit 0.12)) (np_abs feature_importance)
  = [false; false; false; false; true]
  /\ (exists threshold,
         np_percentile (np_abs feature_importance) (of_Z 80) = ok threshold
         /\ map (fun x => fgt x threshold) (np_abs feature_importance)
            = [false; false; false; false; true])
  /\ _identify_top_regions feature_importance time_points 5 = ok []
  /\ close_region feature_importance time_points 4 5
     = ok (Build_TopRegion (lit 30) (lit 30) (lit 0.6) (lit 60))
  /\ _identify_top_regions (floats [0; 0; 0; 0.6; 0]%Q) time_points 5
     = ok [Build_TopRegion (lit 22.5) (lit 22.5) (lit 0.6) (lit 60)].
Proof.
  cbv zeta. split; [vm_compute; reflexivity|].
  split; [eexists; split; vm_compute; reflexivity|].
  split; [vm_compute; reflexivity|].
  split; vm_compute; reflexivity.
Qed.

(** The confidence ranges of the resolver hold in binary64 as well: the
    rounded sums [0.90 + k/100] ([k < 8]) and [0.85 + k/100] ([k < 12]) stay
    within the rounded bounds. *)
Lemma confidence_ranges_binary64 (hash : string -> Z) (id : string) :
  (let c := snd (resolve (A := B64_arith) hash "confirmed" id) in
   PrimFloat.leb (lit 0.90) c && PrimFloat.leb c (lit 0.97) = true)
  /\ (let c := snd (resolve (A := B64_arith) hash "false_positive" id) in
      PrimFloat.leb (lit 0.85) c && PrimFloat.leb c (lit 0.96) = true).
Proof.
  split; cbv zeta.
  - change (snd (resolve (A := B64_arith) hash "confirmed" id))
      with (fadd (lit 0.90) (fdiv (of_Z (hash id mod 8)) (of_Z 100)) : float).
    pose proof (Z.mod_pos_bound (hash id) 8 ltac:(lia)) as B.
    assert (C : In (hash id mod 8)%Z [0; 1; 2; 3; 4; 5; 6; 7]%Z)
      by (simpl; lia).
    revert C. generalize (hash id mod 8)%Z. clear B. intros k C.
    repeat (destruct C as [<-|C]; [vm_compute; reflexivity|]). destruct C.
  - change (snd (resolve (A := B64_arith) hash "false_positive" id))
      with (fadd (lit 0.85) (fdiv (of_Z (hash id mod 12)) (of_Z 100)) : float).
    pose proof (Z.mod_pos_bound (hash id) 12 ltac:(lia)) as B.
    assert (C : In (hash id mod 12)%Z [0; 1; 2; 3; 4; 5; 6; 7; 8; 9; 10; 11]%Z)
      by (simpl; lia).
    revert C. generalize (hash id mod 12)%Z. clear B. intros k C.
    repeat (destruct C as [<-|C]; [vm_compute; reflexivity|]). destruct C.
Qed.

(** The example of C6 in binary64: for a radius of 1.1 the depth that the
    loop uses is 100 times the computed one. *)
Lemma earth_sized_depth_binary64 :
  exists raw : float,
    calculate_realistic_depth (lit 1.1) (of_Z 1) = ok raw
    /\ flt raw (lit 0.0005) = true
    /\ effective_depth (lit 0.01) (Some (lit 1.1)) = ok (fmul raw (of_Z 100)).
Proof.
  eexists. split; [vm_compute; reflexivity|].
  split; vm_compute; reflexivity.
Qed.


(** ** Instances on catalog entries *)




(** In binary64 too the generator records regions of a single sample: a
    301-point curve of period 10 days and duration 3 hours has its three
    transits at samples 50, 150 and 250 only. *)
Lemma single_sample_regions_binary64 :
  map (fun r => (start_index r, end_index r))
      (snd (add_transits (A := B64_arith) (of_Z 10) (lit 0.01)
              (py_min (lit 0.04) (fdiv (of_Z 3) (fmul (of_Z 10) (of_Z 24))))
              (np_linspace (of_Z 0) (of_Z 30) 301) (np_ones 301)))
  = [(50, 50); (150, 150); (250, 250)]%nat.
Proof. vm_compute. reflexivity. Qed.

(** * Further properties *)

(** ** Light curves, sample by sample *)

Section RealisticDepthEdge.
Local Open Scope Q_scope.

End RealisticDepthEdge.

Section LoopsPointwise.
Context {F : Type} {A : Arith F}.

Lemma update_at_app (pre cur : list F) (c : F) (f : F -> F) :
  update_at (pre ++ c :: cur) (List.length pre) f = pre ++ f c :: cur.
Proof.
  induction pre as [|x pre IH]; simpl; [reflexivity|]. now rewrite IH.
Qed.

Lemma transit_loop_pointwise (p d w : F) (time : list F) :
  forall (pre cur : list F) (regs : list (TransitRegion F)),
    List.length cur = List.length time ->
    fst (fold_left (transit_step p d w)
                   (combine (seq (List.length pre) (List.length time)) time)
                   (pre ++ cur, regs))
    = pre ++ map (fun tf : F * F => dimmed p d w (fst tf) (snd tf))
                 (combine time cur).
Proof.
  induction time as [|t time IH]; intros pre cur regs L.
  - destruct cur; [|discriminate L]. reflexivity.
  - destruct cur as [|c cur]; [discriminate L|]. injection L as L.
    cbn [List.length seq combine fold_left map fst snd].
    unfold transit_step at 2. unfold dimmed at 1. cbv zeta.
    destruct (in_transit w (phase_of p t)).
    + rewrite update_at_app.
      change (pre ++ ?x :: cur) with (pre ++ [x] ++ cur).
      rewrite app_assoc.
      replace (S (List.length pre)) with (List.length (pre ++ [fsub c (depth_factor_of d (relative_phase_of w (phase_of p t)))]))
        by (rewrite length_app; simpl; lia).
      rewrite IH by exact L. rewrite <- app_assoc. reflexivity.
    + change (pre ++ c :: cur) with (pre ++ [c] ++ cur).
      rewrite app_assoc.
      replace (S (List.length pre)) with (List.length (pre ++ [c]))
        by (rewrite length_app; simpl; lia).
      rewrite IH by exact L. rewrite <- app_assoc. reflexivity.
Qed.

Lemma add_transits_flux (p d w : F) (time flux : list F) :
  List.length flux = List.length time ->
  fst (add_transits p d w time flux)
  = map (fun tf : F * F => dimmed p d w (fst tf) (snd tf)) (combine time flux).
Proof.
  intro L. unfold add_transits, enumerate.
  apply (transit_loop_pointwise p d w time [] flux [] L).
Qed.

Lemma candidate_loop_pointwise (time : list F) :
  forall pre cur : list F,
    List.length cur = List.length time ->
    fold_left (candidate_step (lit 5.2) (lit 0.005))
              (combine (seq (List.length pre) (List.length time)) time)
              (pre ++ cur)
    = pre ++ map (fun tf : F * F => dimmed_candidate (fst tf) (snd tf))
                 (combine time cur).
Proof.
  induction time as [|t time IH]; intros pre cur L.
  - destruct cur; [|discriminate L]. reflexivity.
  - destruct cur as [|c cur]; [discriminate L|]. injection L as L.
    cbn [List.length seq combine fold_left map fst snd].
    unfold candidate_step at 2. unfold dimmed_candidate at 1. cbv zeta.
    destruct (_ && _).
    + rewrite update_at_app.
      change (pre ++ ?x :: cur) with (pre ++ [x] ++ cur).
      rewrite app_assoc.
      replace (S (List.length pre)) with (List.length (pre ++ [fsub c (lit 0.005)]))
        by (rewrite length_app; simpl; lia).
      rewrite IH by exact L. rewrite <- app_assoc. reflexivity.
    + change (pre ++ c :: cur) with (pre ++ [c] ++ cur).
      rewrite app_assoc.
      replace (S (List.length pre)) with (List.length (pre ++ [c]))
        by (rewrite length_app; simpl; lia).
      rewrite IH by exact L. rewrite <- app_assoc. reflexivity.
Qed.

Lemma candidate_flux (time flux : list F) :
  List.length flux = List.length time ->
  fold_left (candidate_step (lit 5.2) (lit 0.005)) (enumerate time) flux
  = map (fun tf : F * F => dimmed_candidate (fst tf) (snd tf))
        (combine time flux).
Proof. intro L. apply (candidate_loop_pointwise time [] flux L). Qed.

Lemma eclipses_cons (centers : list F) (t : F) (time : list F) :
  forall (f : F) (flux : list F),
    fold_left (fun fl c => eclipse c (t :: time) fl) centers (f :: flux)
    = fold_left (fun v c => eclipsed c t v) centers f
      :: fold_left (fun fl c => eclipse c time fl) centers flux.
Proof.
  induction centers as [|c centers IH]; intros f flux; [reflexivity|].
  cbn [fold_left]. rewrite <- IH. reflexivity.
Qed.

Lemma eclipses_pointwise (centers time : list F) :
  forall flux : list F,
    List.length flux = List.length time ->
    fold_left (fun fl c => eclipse c time fl) centers flux
    = map (fun tf : F * F =>
             fold_left (fun v c => eclipsed c (fst tf) v) centers (snd tf))
          (combine time flux).
Proof.
  induction time as [|t time IH]; intros [|f flux] L; try discriminate L.
  - clear L. induction centers as [|c centers IHc]; [reflexivity|exact IHc].
  - injection L as L. rewrite eclipses_cons, (IH flux L). reflexivity.
Qed.

Lemma noisy_ones (n : nat) (noise : list F) :
  List.length noise = n ->
  map2 fadd (np_ones n) noise = noisy_baseline noise.
Proof.
  intros <-. unfold np_ones, noisy_baseline.
  induction noise as [|e noise IH]; [reflexivity|]. simpl. now rewrite IH.
Qed.
End LoopsPointwise.

Section GeneratorRuns.
Context {F : Type} {A : Arith F}.
Variable rng_state : Type.
Variable legacy_gauss : rng_state -> F * rng_state.

Lemma random_normal_run (loc scale : F) (n : nat) (s : rng_state) :
  random_normal legacy_gauss loc scale n s
  = (ok (fst (np_random_normal legacy_gauss loc scale n s)),
     snd (np_random_normal legacy_gauss loc scale n s)).
Proof.
  unfold random_normal. destruct (np_random_normal _ _ _ _ _). reflexivity.
Qed.

(** [generate_confirmed_planet] when neither division raises. *)
Lemma generate_confirmed_planet_returns
      (period_days transit_depth transit_duration : F) (num_points : nat)
      (radius : option F) (d : F) (s : rng_state) :
  effective_depth transit_depth radius = ok d ->
  feq (fmul period_days (of_Z 24)) (of_Z 0) = false ->
  let time := np_linspace (of_Z 0) (of_Z 30) num_points in
  let noise :=
    fst (np_random_normal legacy_gauss (of_Z 0) (lit 0.0005) num_points s) in
  let w := py_min (lit 0.04)
                  (fdiv transit_duration (fmul period_days (of_Z 24))) in
  generate_confirmed_planet legacy_gauss period_days transit_depth
                            transit_duration num_points radius s
  = (ok (time,
         fst (add_transits period_days d w time (noisy_baseline noise)),
         snd (add_transits period_days d w time (noisy_baseline noise))),
     snd (np_random_normal legacy_gauss (of_Z 0) (lit 0.0005) num_points s)).
Proof.
  intros Hd Hp time noise w.
  unfold generate_confirmed_planet, mbind, mlift.
  rewrite Hd, random_normal_run. fold noise.
  unfold py_truediv. rewrite Hp. cbv beta iota delta [ok].
  fold w. fold time.
  assert (Ln : List.length noise = num_points)
    by apply np_random_normal_length.
  rewrite (noisy_ones _ _ Ln).
  destruct (add_transits period_days d w time (noisy_baseline noise)).
  reflexivity.
Qed.

Lemma noisy_baseline_length (noise : list F) :
  List.length (noisy_baseline noise) = List.length noise.
Proof. apply length_map. Qed.

(** X2: when neither division raises, [generate_confirmed_planet] returns
    the grid of [np.linspace(0, 30, num_points)] and, sample by sample,
    the flux [1 + noise[i]], lowered by the depth factor of the sample
    exactly when its phase is inside the transit window; the generator is
    left where the [num_points] noise draws left it. *)
Theorem confirmed_flux_sample_by_sample
        (period_days transit_depth transit_duration : F) (num_points : nat)
        (radius : option F) (d : F) (s : rng_state) :
  effective_depth transit_depth radius = ok d ->
  feq (fmul period_days (of_Z 24)) (of_Z 0) = false ->
  let time := np_linspace (of_Z 0) (of_Z 30) num_points in
  let noise :=
    fst (np_random_normal legacy_gauss (of_Z 0) (lit 0.0005) num_points s) in
  let w := py_min (lit 0.04)
                  (fdiv transit_duration (fmul period_days (of_Z 24))) in
  exists regions,
    generate_confirmed_planet legacy_gauss period_days transit_depth
                              transit_duration num_points radius s
    = (ok (time,
           map (fun tf : F * F => dimmed period_days d w (fst tf) (snd tf))
               (combine time (noisy_baseline noise)),
           regions),
       snd (np_random_normal legacy_gauss (of_Z 0) (lit 0.0005) num_points s)).
Proof.
  intros Hd Hp time noise w.
  rewrite (generate_confirmed_planet_returns _ _ transit_duration num_points _ _ s Hd Hp).
  fold time noise w. eexists.
  rewrite add_transits_flux; [reflexivity|].
  rewrite noisy_baseline_length. unfold noise, time.
  rewrite np_random_normal_length, np_linspace_length. reflexivity.
Qed.

(** X3: [generate_candidate] always returns: the grid of
    [np.linspace(0, 30, num_points)], the flux [1 + noise[i]] lowered by
    0.005 exactly where the phase for the period 5.2 lies strictly between
    0.48 and 0.52, and an empty list of regions although dips were
    subtracted; the generator is left where the noise draws left it. *)
Theorem candidate_flux_sample_by_sample (num_points : nat) (s : rng_state) :
  let time := np_linspace (of_Z 0) (of_Z 30) num_points in
  let noise :=
    fst (np_random_normal legacy_gauss (of_Z 0) (lit 0.003) num_points s) in
  generate_candidate legacy_gauss num_points s
  = (ok (time,
         map (fun tf : F * F => dimmed_candidate (fst tf) (snd tf))
             (combine time (noisy_baseline noise)),
         []),
     snd (np_random_normal legacy_gauss (of_Z 0) (lit 0.003) num_points s)).
Proof.
  intros time noise.
  unfold generate_candidate, mbind. rewrite random_normal_run. fold noise.
  cbv beta iota delta [ok]. fold time.
  assert (Ln : List.length noise = num_points)
    by apply np_random_normal_length.
  rewrite (noisy_ones _ _ Ln). unfold mret.
  rewrite candidate_flux; [reflexivity|].
  rewrite noisy_baseline_length, Ln. unfold time.
  now rewrite np_linspace_length.
Qed.

End GeneratorRuns.

Lemma confirmed_flux_sample_by_sample_witness :
  exists regions,
    generate_confirmed_planet Standin.legacy_gauss 10%Q 0.01%Q 3%Q 5 None tt
    = (ok (np_linspace (A := Q_arith) (of_Z 0) (of_Z 30) 5,
           map (fun tf : Q * Q =>
                  dimmed 10%Q 0.01%Q
                         (py_min (lit 0.04) (fdiv 3%Q (fmul 10%Q (of_Z 24))))
                         (fst tf) (snd tf))
               (combine (np_linspace (A := Q_arith) (of_Z 0) (of_Z 30) 5)
                        (noisy_baseline
                           (fst (np_random_normal Standin.legacy_gauss
                                   (of_Z 0) (lit 0.0005) 5 tt)))),
           regions),
       tt).
Proof.
  apply (@confirmed_flux_sample_by_sample Q Q_arith
           Standin.rng_state Standin.legacy_gauss 10%Q 0.01%Q 3%Q 5%nat None
           0.01%Q tt eq_refl eq_refl).
Defined.

Section DipDepth.
Local Open Scope Q_scope.

Lemma shape_factor_bounds (x : Q) :
  0 <= x -> x < 1 ->
  0.8 <= (1 - 0.1 * (1 - x ^ 2)) * (1 - 0.2 * x)
  /\ (1 - 0.1 * (1 - x ^ 2)) * (1 - 0.2 * x) <= 0.9.
Proof.
  intros H0 H1.
  assert (E1 : (1 - 0.1 * (1 - x ^ 2)) * (1 - 0.2 * x) - 0.8
               == (1 - x) * (0.02 * (x - 2) ^ 2 + 0.02)) by ring.
  assert (E2 : 0.9 - (1 - 0.1 * (1 - x ^ 2)) * (1 - 0.2 * x)
               == x * (0.02 * (x - 2.5) ^ 2 + 0.055)) by ring.
  assert (S1 : 0 <= (x - 2) ^ 2).
  { rewrite <- (Qmult_0_l 0). simpl. nra. }
  assert (S2 : 0 <= (x - 2.5) ^ 2).
  { simpl. nra. }
  split.
  - assert (0 <= (1 - x) * (0.02 * (x - 2) ^ 2 + 0.02)).
    { apply Qmult_le_0_compat; lra. }
    lra.
  - assert (0 <= x * (0.02 * (x - 2.5) ^ 2 + 0.055)).
    { apply Qmult_le_0_compat; lra. }
    lra.
Qed.

Lemma depth_factor_bounds (d w phase : Q) :
  0 <= d -> in_transit w phase = true ->
  0.8 * d <= depth_factor_of d (relative_phase_of w phase)
  /\ depth_factor_of d (relative_phase_of w phase) <= 0.9 * d.
Proof.
  intros D H. destruct (relative_phase_range _ _ H) as (_ & L & U).
  set (rp := relative_phase_of w phase) in *.
  rewrite depth_factor_formula.
  assert (X : 0 <= Qabs rp /\ Qabs rp < 1 /\ rp ^ 2 == Qabs rp ^ 2).
  { apply Qabs_case; intro S; repeat split; try lra; ring. }
  destruct X as (X0 & X1 & X2). rewrite X2.
  destruct (shape_factor_bounds (Qabs rp) X0 X1) as [B1 B2].
  set (k := (1 - 0.1 * (1 - Qabs rp ^ 2)) * (1 - 0.2 * Qabs rp)) in *.
  assert (E : d * (1 - 0.1 * (1 - Qabs rp ^ 2)) * (1 - 0.2 * Qabs rp) == d * k)
    by (unfold k; ring).
  rewrite E. split.
  - assert (0 <= d * (k - 0.8)) by (apply Qmult_le_0_compat; lra). lra.
  - assert (0 <= d * (0.9 - k)) by (apply Qmult_le_0_compat; lra). lra.
Qed.
End DipDepth.

Section ListFacts.
Variable T U : Type.

Lemma Forall2_map_combine (g : T * U -> U) (R : U -> U -> Prop)
      (time : list T) (base : list U) :
  List.length time = List.length base ->
  (forall t b, R b (g (t, b))) ->
  Forall2 R base (map g (combine time base)).
Proof.
  revert base. induction time as [|t time IH]; intros [|b base] L H;
    try discriminate L; simpl; constructor; auto.
Qed.
End ListFacts.

Section RegionDepth.
Local Open Scope Q_scope.

Lemma dip_events_depths (p d w : Q) (P : Q -> Prop) (l : list (nat * Q)) :
  (forall phase, in_transit w phase = true ->
                 P (depth_factor_of d (relative_phase_of w phase))) ->
  Forall (fun e : nat * Q => P (snd e)) (dip_events p d w l).
Proof.
  intro H. unfold dip_events.
  induction l as [|[i t] l IH]; cbn [flat_map fst snd]; [constructor|].
  destruct (in_transit w (phase_of p t)) eqn:E; cbn [app]; [|exact IH].
  constructor; [|exact IH]. cbn [snd]. apply H, E.
Qed.

Lemma running_max_closed (P : Q -> Prop) (ds : list Q) (m : Q) :
  Forall P ds -> running_max ds = Some m -> P m.
Proof.
  destruct ds as [|d ds]; [discriminate|].
  intros H E. injection E as <-. inversion H as [|? ? Hd Hds]; subst. clear H.
  revert d Hd. induction Hds as [|x ds Hx _ IH]; intros d Hd; simpl; [exact Hd|].
  apply IH. unfold py_max. destruct (flt d x); assumption.
Qed.

Lemma samples_in_Forall (P : Q -> Prop) (dips : list (nat * Q))
      (r : TransitRegion Q) :
  Forall (fun e : nat * Q => P (snd e)) dips -> Forall P (samples_in dips r).
Proof.
  intro H. unfold samples_in. apply Forall_forall. intros x Hx.
  apply in_map_iff in Hx. destruct Hx as (e & <- & He).
  apply filter_In in He. destruct He as [He _].
  rewrite Forall_forall in H. apply H, He.
Qed.
End RegionDepth.

Lemma ok_inj (T : Type) (x y : T) : ok x = ok y -> x = y.
Proof. intro H. injection H. auto. Qed.

Section DipsOfConfirmed.
Variable rng_state : Type.
Variable legacy_gauss : rng_state -> Q * rng_state.
Local Open Scope Q_scope.

Lemma effective_depth_nonneg (transit_depth : Q) (radius : option Q) (d : Q) :
  0 <= transit_depth -> effective_depth transit_depth radius = ok d -> 0 <= d.
Proof.
  intros H E. destruct radius as [r|].
  - destruct (Qlt_le_dec (raw_depth r) overflow_threshold) as [Hr|Hr].
    2:{ rewrite (@effective_depth_overflow transit_depth r Hr) in E.
        discriminate E. }
    rewrite (@effective_depth_some transit_depth r Hr) in E. cbv zeta in E.
    set (q := fdiv (fmul r (of_Z 6371)) (fmul (of_Z 1) (of_Z 696000))) in E.
    assert (S : 0 <= fpow q 2).
    { rewrite (fpow_2 q). simpl. nra. }
    apply ok_inj in E. rewrite <- E.
    destruct (flt (fpow q 2) (lit 0.0005)); [|exact S].
    change (0 <= fpow q 2 * 100). lra.
  - apply ok_inj in E. rewrite <- E. exact H.
Qed.

(** X4: over exact arithmetic, for a positive period, a non-negative
    depth and a radius whose square is in the range of a float,
    [generate_confirmed_planet] returns, and an in-transit sample is
    lowered by between 80% and 90% of the transit depth (90% at
    mid-transit, 80% towards the edges, never the full depth): the depth
    recorded for each region lies in that range, and each flux sample lies
    between its noisy baseline minus [0.9 * depth] and the baseline. *)
Theorem dips_are_80_to_90_percent_deep
        (period_days transit_depth transit_duration : Q) (num_points : nat)
        (radius : option Q) (s : rng_state) :
  0 < period_days -> 0 <= transit_depth -> radius_in_range radius ->
  exists time flux regions d s',
    generate_confirmed_planet legacy_gauss period_days transit_depth
                              transit_duration num_points radius s
    = (ok (time, flux, regions), s')
    /\ effective_depth transit_depth radius = ok d
    /\ 0 <= d
    /\ Forall (fun r => 0.8 * d <= depth r /\ depth r <= 0.9 * d) regions
    /\ Forall2 (fun base f => base - 0.9 * d <= f /\ f <= base)
               (noisy_baseline
                  (fst (np_random_normal legacy_gauss (of_Z 0) (lit 0.0005)
                                         num_points s)))
               flux.
Proof.
  intros P D Hr.
  destruct (@effective_depth_ok transit_depth radius Hr) as [d Hd].
  pose proof (effective_depth_nonneg transit_depth radius d D Hd) as D0.
  assert (Hp : feq (fmul period_days (of_Z 24)) (of_Z 0) = false).
  { apply Q_feq_false. intro Z0. change (period_days * 24 == 0) in Z0.
    assert (period_days == 0) as C by lra.
    rewrite C in P. discriminate P. }
  pose proof (generate_confirmed_planet_returns
                rng_state legacy_gauss period_days transit_depth
                transit_duration num_points radius d s Hd Hp) as R.
  cbv zeta in R.
  set (time := np_linspace (of_Z 0) (of_Z 30) num_points) in *.
  set (noise := fst (np_random_normal legacy_gauss (of_Z 0) (lit 0.0005)
                                      num_points s)) in *.
  set (w := py_min (lit 0.04)
                   (fdiv transit_duration (fmul period_days (of_Z 24)))) in *.
  eexists _, _, _, d, _. split; [exact R|].
  split; [exact Hd|]. split; [exact D0|].
  assert (L : List.length (noisy_baseline noise) = List.length time).
  { rewrite noisy_baseline_length. unfold noise, time.
    rewrite np_random_normal_length, np_linspace_length. reflexivity. }
  split.
  - destruct (add_transits_regions period_days d w time (noisy_baseline noise))
      as (_ & _ & _ & Hm & _).
    eapply Forall_impl; [|exact Hm]. cbv beta. intros r Hm_r.
    apply (running_max_closed
             (fun x => 0.8 * d <= x /\ x <= 0.9 * d) _ _
             (samples_in_Forall _ _ r
                (dip_events_depths period_days d w _ (enumerate time)
                   (fun phase => depth_factor_bounds d w phase D0)))
             Hm_r).
  - rewrite (add_transits_flux period_days d w time (noisy_baseline noise) L).
    apply Forall2_map_combine; [symmetry; exact L|].
    intros t b. cbn [fst snd]. unfold dimmed. cbv zeta.
    destruct (in_transit w (phase_of period_days t)) eqn:E.
    + destruct (depth_factor_bounds d w _ D0 E) as [B1 B2].
      change (b - 0.9 * d
              <= b - depth_factor_of d (relative_phase_of w (phase_of period_days t))
              /\ b - depth_factor_of d (relative_phase_of w (phase_of period_days t))
                 <= b).
      split; lra.
    + split; lra.
Qed.
End DipsOfConfirmed.

Lemma dips_are_80_to_90_percent_deep_witness :
  radius_in_range None
  /\ exists time flux regions s',
    generate_confirmed_planet Standin.legacy_gauss 3.5%Q 0.01%Q 3%Q 200 None tt
    = (ok (time, flux, regions), s')
    /\ Forall (fun r => 0.8 * 0.01 <= depth r /\ depth r <= 0.9 * 0.01)%Q
              regions.
Proof.
  split; [exact I|].
  destruct (dips_are_80_to_90_percent_deep
              Standin.rng_state Standin.legacy_gauss 3.5%Q 0.01%Q 3%Q 200%nat
              None tt eq_refl)
    as (time & flux & regions & d & s' & E & Hd & _ & R & _).
  - discriminate.
  - exact I.
  - exists time, flux, regions, s'. split; [exact E|].
    injection Hd as <-. exact R.
Defined.

Section Eclipses.
Local Open Scope Q_scope.

Lemma eclipsed_Q (c t f : Q) :
  (Qabs (t - c) < 0.5 ->
   eclipsed c t f == f - 0.05 * (1 - Qabs (t - c) / 0.5))
  /\ (0.5 <= Qabs (t - c) -> eclipsed c t f = f).
Proof.
  unfold eclipsed.
  assert (E5 : lit (A := Q_arith) 0.5 == 0.5) by apply Q_lit.
  assert (E05 : lit (A := Q_arith) 0.05 == 0.05) by apply Q_lit.
  destruct (flt (fabs (fsub t c)) (lit 0.5)) eqn:E.
  - apply Q_flt_true in E. rewrite E5 in E. change (Qabs (t - c) < 0.5) in E.
    split; [|intro C; lra]. intros _.
    change (f - lit 0.05 * (1 - Qabs (t - c) / lit 0.5)
            == f - 0.05 * (1 - Qabs (t - c) / 0.5)).
    rewrite E5, E05. reflexivity.
  - apply Q_flt_false in E. rewrite E5 in E. change (0.5 <= Qabs (t - c)) in E.
    split; [intro C; lra|reflexivity].
Qed.

Lemma three_eclipses (t b : Q) :
  let v := fold_left (fun v c => eclipsed c t v)
                     [of_Z 7; of_Z 14; of_Z 21] b in
  (Qabs (t - 7) < 0.5 -> v == b - 0.05 * (1 - Qabs (t - 7) / 0.5))
  /\ (Qabs (t - 14) < 0.5 -> v == b - 0.05 * (1 - Qabs (t - 14) / 0.5))
  /\ (Qabs (t - 21) < 0.5 -> v == b - 0.05 * (1 - Qabs (t - 21) / 0.5))
  /\ (0.5 <= Qabs (t - 7) -> 0.5 <= Qabs (t - 14) -> 0.5 <= Qabs (t - 21) ->
      v == b)
  /\ b - 0.05 <= v /\ v <= b.
Proof.
  cbv zeta. cbn [fold_left].
  change (of_Z 7 : Q) with 7. change (of_Z 14 : Q) with 14.
  change (of_Z 21 : Q) with 21.
  destruct (eclipsed_Q 7 t b) as [A1 A2].
  set (v1 := eclipsed 7 t b) in *.
  destruct (eclipsed_Q 14 t v1) as [B1 B2].
  set (v2 := eclipsed 14 t v1) in *.
  destruct (eclipsed_Q 21 t v2) as [C1 C2].
  set (v3 := eclipsed 21 t v2) in *.
  assert (K7 : Qabs (t - 7) < 0.5 <-> 6.5 < t /\ t < 7.5).
  { rewrite Qabs_Qlt_condition. split; intros [? ?]; split; lra. }
  assert (K14 : Qabs (t - 14) < 0.5 <-> 13.5 < t /\ t < 14.5).
  { rewrite Qabs_Qlt_condition. split; intros [? ?]; split; lra. }
  assert (K21 : Qabs (t - 21) < 0.5 <-> 20.5 < t /\ t < 21.5).
  { rewrite Qabs_Qlt_condition. split; intros [? ?]; split; lra. }
  assert (N7 : 0 <= Qabs (t - 7)) by apply Qabs_nonneg.
  assert (N14 : 0 <= Qabs (t - 14)) by apply Qabs_nonneg.
  assert (N21 : 0 <= Qabs (t - 21)) by apply Qabs_nonneg.
  destruct (Qlt_le_dec (Qabs (t - 7)) 0.5) as [L7|G7];
    destruct (Qlt_le_dec (Qabs (t - 14)) 0.5) as [L14|G14];
    destruct (Qlt_le_dec (Qabs (t - 21)) 0.5) as [L21|G21];
    try (exfalso; apply K7 in L7; apply K14 in L14; lra);
    try (exfalso; apply K7 in L7; apply K21 in L21; lra);
    try (exfalso; apply K14 in L14; apply K21 in L21; lra).
  - specialize (A1 L7). specialize (B2 G14). specialize (C2 G21).
    rewrite C2, B2.
    assert (D : Qabs (t - 7) / 0.5 == 2 * Qabs (t - 7)) by field.
    repeat split; intros; try exact A1; rewrite ?A1, ?D; lra.
  - specialize (A2 G7). specialize (B1 L14). specialize (C2 G21).
    rewrite C2. rewrite A2 in B1.
    assert (D : Qabs (t - 14) / 0.5 == 2 * Qabs (t - 14)) by field.
    repeat split; intros; try exact B1; rewrite ?B1, ?D; lra.
  - specialize (A2 G7). specialize (B2 G14). specialize (C1 L21).
    rewrite B2, A2 in C1.
    assert (D : Qabs (t - 21) / 0.5 == 2 * Qabs (t - 21)) by field.
    repeat split; intros; try exact C1; rewrite ?C1, ?D; lra.
  - specialize (A2 G7). specialize (B2 G14). specialize (C2 G21).
    rewrite C2, B2, A2. repeat split; intros; try reflexivity; lra.
Qed.
End Eclipses.

Lemma Forall2_map_self (T U : Type) (g : T -> U) (R : T -> U -> Prop)
      (l : list T) :
  (forall x, R x (g x)) -> Forall2 R l (map g l).
Proof. intro H. induction l; simpl; constructor; auto. Qed.

Section EclipsingBinary.
Variable rng_state : Type.
Variable legacy_gauss : rng_state -> Q * rng_state.
Variable np_sin : Q -> Q.
Variable np_pi : Q.
Local Open Scope Q_scope.

(** X5: the eclipsing binary, over exact arithmetic.  A sample at time [t]
    within half a day of one of the days 7, 14, 21 is lowered by
    [0.05 * (1 - |t - c| / 0.5)] below its noisy baseline (a V of depth
    0.05 at the centre), a sample at least half a day from all three is
    left at the baseline, and no sample moves by more than 0.05; no region
    is reported. *)
Theorem eclipsing_binary_dips (num_points : nat) (s : rng_state) :
  let time := np_linspace (A := Q_arith) (of_Z 0) (of_Z 30) num_points in
  let base :=
    noisy_baseline
      (fst (np_random_normal legacy_gauss (of_Z 0) (lit 0.001) num_points s)) in
  exists flux s',
    generate_false_positive legacy_gauss np_sin np_pi num_points
                            "eclipsing_binary" s
    = (ok (time, flux, []), s')
    /\ Forall2
         (fun (tb : Q * Q) (f : Q) =>
            let (t, b) := tb in
            (forall c, In c [7; 14; 21] -> Qabs (t - c) < 0.5 ->
                       f == b - 0.05 * (1 - Qabs (t - c) / 0.5))
            /\ ((forall c, In c [7; 14; 21] -> 0.5 <= Qabs (t - c)) -> f == b)
            /\ b - 0.05 <= f /\ f <= b)
         (combine time base) flux.
Proof.
  intros time base.
  unfold generate_false_positive. cbn [String.eqb Ascii.eqb Bool.eqb].
  unfold mbind. rewrite random_normal_run. cbv beta iota delta [ok].
  fold time.
  set (noise := fst (np_random_normal legacy_gauss (of_Z 0) (lit 0.001)
                                      num_points s)) in *.
  assert (Ln : List.length noise = num_points)
    by apply np_random_normal_length.
  rewrite (noisy_ones _ _ Ln). fold base.
  rewrite eclipses_pointwise.
  2:{ unfold base, time.
      rewrite noisy_baseline_length, Ln, np_linspace_length. reflexivity. }
  unfold mret. eexists _, _. split; [reflexivity|].
  apply Forall2_map_self. intros [t b]. cbn [fst snd].
  destruct (three_eclipses t b) as (H7 & H14 & H21 & H0 & L & U).
  cbv zeta in *.
  set (v := fold_left (fun v c => eclipsed c t v)
                      [of_Z 7; of_Z 14; of_Z 21] b) in *.
  split; [|split; [|split; assumption]].
  - intros c [<-|[<-|[<-|[]]]]; assumption.
  - intro H. apply H0; apply H; simpl; auto.
Qed.
End EclipsingBinary.

(** ** The transit depth of a planet of given radius *)

Section RealisticDepth.
Variable rng_state : Type.
Variable legacy_gauss : rng_state -> Q * rng_state.
Local Open Scope Q_scope.


End RealisticDepth.

(** ** The other false positives *)


Lemma Forall2_map2_r (F : Type) (f : F -> F -> F)
      (R : F -> F -> Prop) (a b : list F) :
  List.length a = List.length b ->
  (forall x y, In x a -> R y (f x y)) ->
  Forall2 R b (map2 f a b).
Proof.
  revert b. induction a as [|x a IH]; intros [|y b] L H; try discriminate L;
    cbn [map2]; constructor.
  - apply H. left. reflexivity.
  - apply IH; [simpl in L; lia|]. intros x' y' Hx. apply H. right. exact Hx.
Qed.

Section VariabilityAndNoise.
Variable rng_state : Type.
Variable legacy_gauss : rng_state -> Q * rng_state.
Variable np_sin : Q -> Q.
Variable np_pi : Q.
Local Open Scope Q_scope.

(** X6: the other two false positives, over exact arithmetic.  With a sine
    between -1 and 1, [stellar_variability] gives a flux within 0.02 of
    [1 + noise[i]]; an anomaly type that is neither [eclipsing_binary] nor
    [stellar_variability] (the default [noise], or any unknown string)
    gives [1 + noise[i]] with noise of scale 0.005, and never an error. *)
Theorem variability_and_noise_curves (num_points : nat) (s : rng_state) :
  (forall x, -1 <= np_sin x /\ np_sin x <= 1) ->
  let time := np_linspace (A := Q_arith) (of_Z 0) (of_Z 30) num_points in
  (exists flux s',
      generate_false_positive legacy_gauss np_sin np_pi num_points
                              "stellar_variability" s
      = (ok (time, flux, []), s')
      /\ Forall2 (fun e f => 1 - 0.02 + e <= f /\ f <= 1 + 0.02 + e)
                 (fst (np_random_normal legacy_gauss (of_Z 0) (lit 0.003)
                                        num_points s))
                 flux)
  /\ (forall anomaly_type,
         anomaly_type <> "eclipsing_binary"%string ->
         anomaly_type <> "stellar_variability"%string ->
         generate_false_positive legacy_gauss np_sin np_pi num_points
                                 anomaly_type s
         = (ok (time,
                noisy_baseline
                  (fst (np_random_normal legacy_gauss (of_Z 0) (lit 0.005)
                                         num_points s)),
                []),
            snd (np_random_normal legacy_gauss (of_Z 0) (lit 0.005)
                                  num_points s))).
Proof.
  intros Hsin time. split.
  - unfold generate_false_positive. cbn [String.eqb Ascii.eqb Bool.eqb].
    unfold mbind. rewrite random_normal_run. cbv beta iota delta [ok].
    fold time. unfold mret. eexists _, _. split; [reflexivity|].
    set (noise := fst (np_random_normal legacy_gauss (of_Z 0) (lit 0.003)
                                        num_points s)).
    rewrite (noisy_ones num_points).
    2:{ unfold time. rewrite List.length_map, np_linspace_length. reflexivity. }
    apply Forall2_map2_r.
    + unfold noisy_baseline, noise, time.
      rewrite !List.length_map, np_linspace_length, np_random_normal_length.
      reflexivity.
    + intros x e Hx. unfold noisy_baseline in Hx. rewrite map_map in Hx.
      apply in_map_iff in Hx. destruct Hx as (t & <- & _).
      destruct (Hsin (fdiv (fmul (fmul (of_Z 2) np_pi) t) (of_Z 10)))
        as [L U].
      set (v := np_sin _) in *.
      change (1 - 0.02 + e <= 1 + lit 0.02 * v + e
              /\ 1 + lit 0.02 * v + e <= 1 + 0.02 + e).
      rewrite (Q_lit 0.02). split; lra.
  - intros a N1 N2. unfold generate_false_positive.
    apply String.eqb_neq in N1, N2. rewrite N1, N2.
    unfold mbind. rewrite random_normal_run. cbv beta iota delta [ok].
    fold time. unfold mret.
    rewrite (noisy_ones num_points); [reflexivity|].
    apply np_random_normal_length.
Qed.
End VariabilityAndNoise.

Lemma variability_and_noise_curves_witness :
  exists flux s',
    generate_false_positive Standin.legacy_gauss Standin.np_sin Standin.np_pi
                            4 "stellar_variability" tt
    = (ok (np_linspace (A := Q_arith) (of_Z 0) (of_Z 30) 4, flux, []), s')
    /\ Forall2 (fun e f => 1 - 0.02 + e <= f /\ f <= 1 + 0.02 + e)%Q
               (fst (np_random_normal Standin.legacy_gauss (of_Z 0)
                                      (lit 0.003) 4 tt))
               flux.
Proof.
  refine (proj1 (variability_and_noise_curves
                   Standin.rng_state Standin.legacy_gauss Standin.np_sin
                   Standin.np_pi 4 tt _)).
  intro x. split; discriminate.
Defined.

(** ** The explanation *)

Section ExplainerInversion.
Context {F : Type} {A : Arith F}.
Variable rng_state : Type.
Variable np_random_seed : Z -> rng_state.
Variable legacy_gauss : rng_state -> F * rng_state.
Variable np_exp : F -> F.
Variable format_1f : F -> string.

Lemma rbind_ok (T U : Type) (r : result T) (k : T -> result U) (y : U) :
  rbind r k = ok y -> exists x, r = ok x /\ k x = ok y.
Proof.
  destruct r as [e|x]; [discriminate|]. intro H. exists x. auto.
Qed.

Lemma np_inplace_length (op : F -> F -> F) (a b c : list F) :
  np_inplace op a b = ok c -> List.length c = List.length a.
Proof.
  unfold np_inplace.
  destruct (List.length b =? List.length a)%nat eqn:E.
  - apply Nat.eqb_eq in E. intro H. apply ok_inj in H. subst c.
    rewrite map2_length, E. apply Nat.min_id.
  - destruct b as [|y [|? ?]]; try discriminate.
    intro H. apply ok_inj in H. subst c. apply length_map.
Qed.

Lemma add_transit_peaks_length (time : list F) (confidence : F)
      (regs : list (TransitRegion F)) :
  forall (i : nat) (fi fi' : list F),
    add_transit_peaks np_exp time confidence i regs fi = ok fi' ->
    List.length fi' = List.length fi.
Proof.
  induction regs as [|r regs IH]; intros i fi fi' H.
  - apply ok_inj in H. now subst.
  - cbn [add_transit_peaks] in H.
    apply rbind_ok in H. destruct H as (ws & _ & H).
    apply rbind_ok in H. destruct H as (fi1 & H1 & H).
    apply IH in H. apply np_inplace_length in H1. congruence.
Qed.

Lemma subtract_transit_peaks_length (time : list F) (confidence : F)
      (regs : list (TransitRegion F)) :
  forall fi fi' : list F,
    subtract_transit_peaks np_exp time confidence regs fi = ok fi' ->
    List.length fi' = List.length fi.
Proof.
  induction regs as [|r regs IH]; intros fi fi' H.
  - apply ok_inj in H. now subst.
  - cbn [subtract_transit_peaks] in H.
    apply rbind_ok in H. destruct H as (ws & _ & H).
    apply rbind_ok in H. destruct H as (fi1 & H1 & H).
    apply IH in H. apply np_inplace_length in H1. congruence.
Qed.

Lemma exoplanet_importance_length (flux time : list F) (confidence : F)
      (regs : list (TransitRegion F)) (fi fi' : list F) :
  List.length fi = List.length flux ->
  exoplanet_importance np_exp flux time confidence regs fi = ok fi' ->
  List.length fi' = List.length flux.
Proof.
  intros L H. unfold exoplanet_importance in H.
  apply rbind_ok in H. destruct H as (fi1 & H1 & H).
  apply add_transit_peaks_length in H1.
  apply rbind_ok in H. destruct H as (th & _ & H).
  apply ok_inj in H. subst fi'.
  rewrite length_map, length_combine, !length_map, map2_length, !length_map.
  lia.
Qed.

Lemma no_planet_importance_length (flux time : list F) (confidence : F)
      (regs : list (TransitRegion F)) (fi fi' : list F) :
  List.length fi = List.length flux ->
  no_planet_importance np_exp flux time confidence regs fi = ok fi' ->
  List.length fi' = List.length flux.
Proof.
  intros L H. unfold no_planet_importance in H.
  apply rbind_ok in H. destruct H as (m & _ & H).
  apply rbind_ok in H. destruct H as (fi1 & H1 & H).
  apply np_inplace_length in H1.
  apply rbind_ok in H. destruct H as (fi2 & H2 & H).
  apply subtract_transit_peaks_length in H2.
  apply ok_inj in H. subst fi'.
  rewrite length_map, map2_length, !length_map. lia.
Qed.

Lemma rescale_length (a b : list F) :
  rescale a = ok b -> List.length b = List.length a.
Proof.
  unfold rescale. intro H. apply rbind_ok in H. destruct H as (m & _ & H).
  apply ok_inj in H. subst b. destruct (fgt m (of_Z 0)); [apply length_map|reflexivity].
Qed.

(** What a returned explanation is made of. *)
Lemma explain_prediction_inv (light_curve time_points : list F)
      (classification : string) (confidence : F)
      (transit_regions : list (TransitRegion F)) (s s' : rng_state)
      (e : SHAPExplanation F) :
  explain_prediction np_random_seed legacy_gauss np_exp format_1f
                     light_curve time_points classification confidence
                     transit_regions s
  = (ok e, s') ->
  exists raw scaled top,
    List.length raw = List.length light_curve
    /\ rescale (gaussian_filter1d np_exp raw (lit 1.5)) = ok scaled
    /\ _identify_top_regions (sanitize scaled) time_points 5 = ok top
    /\ e = Build_SHAPExplanation
             (sanitize scaled) top
             (_generate_explanation format_1f classification confidence top
                                    transit_regions)
             (lit 0.5)
             (nan_to_num1 (lit 0.5) float_max (fneg float_max)
                (clip1 (lit 0.0) (lit 1.0) (fadd (lit 0.5) (np_mean raw))))
    /\ s' = snd (np_random_normal legacy_gauss (of_Z 0) (lit 0.01)
                                  (List.length light_curve)
                                  (np_random_seed 42)).
Proof.
  unfold explain_prediction, _generate_synthetic_shap, mbind, random_seed.
  cbv beta iota delta [ok]. rewrite random_normal_run.
  cbv beta iota delta [ok]. unfold mlift.
  set (noise := fst (np_random_normal legacy_gauss (of_Z 0) (lit 0.01)
                                      (List.length light_curve)
                                      (np_random_seed 42))).
  set (fi0 := map2 fadd (np_zeros (List.length light_curve)) noise).
  assert (L0 : List.length fi0 = List.length light_curve).
  { unfold fi0, np_zeros, noise.
    rewrite map2_length, repeat_length, np_random_normal_length.
    apply Nat.min_id. }
  intro H. injection H as H Hs.
  apply rbind_ok in H. destruct H as (raw & H1 & H).
  apply rbind_ok in H. destruct H as (scaled & H2 & H).
  apply rbind_ok in H. destruct H as (top & H3 & H).
  apply ok_inj in H.
  exists raw, scaled, top.
  split.
  { destruct (String.eqb classification "exoplanet").
    - eapply exoplanet_importance_length; eassumption.
    - eapply no_planet_importance_length; eassumption. }
  split; [exact H2|]. split; [exact H3|]. split; [symmetry; exact H|].
  symmetry. exact Hs.
Qed.
End ExplainerInversion.

Section TopRegions.
Context {F : Type} {A : Arith F}.

Lemma insert_desc_Forall (P : TopRegion F -> Prop) (x : TopRegion F)
      (l : list (TopRegion F)) :
  P x -> Forall P l -> Forall P (insert_desc x l).
Proof.
  intros Hx Hl. induction Hl as [|y l Hy Hl IH]; simpl.
  - constructor; [exact Hx|constructor].
  - destruct (flt _ _); constructor; auto.
Qed.

Lemma sort_by_abs_importance_Forall (P : TopRegion F -> Prop)
      (l : list (TopRegion F)) :
  Forall P l -> Forall P (sort_by_abs_importance l).
Proof.
  unfold sort_by_abs_importance.
  induction 1 as [|x l Hx Hl IH]; simpl; [constructor|].
  apply insert_desc_Forall; assumption.
Qed.

Lemma firstn_Forall (T : Type) (P : T -> Prop) (n : nat) (l : list T) :
  Forall P l -> Forall P (firstn n l).
Proof.
  intro H. revert n. induction H as [|x l Hx Hl IH]; intros [|n]; simpl;
    constructor; auto.
Qed.

Lemma skipn_cons_inv (T : Type) (k : nat) (l : list T) (b : T) (bs : list T) :
  skipn k l = b :: bs ->
  nth_error l k = Some b /\ skipn (S k) l = bs /\ (k < List.length l)%nat.
Proof.
  revert l. induction k as [|k IH]; intros [|x l] H; try discriminate H.
  - injection H as -> ->. repeat split; simpl; lia.
  - destruct (IH l H) as (H1 & H2 & H3). repeat split; simpl; auto; lia.
Qed.

Lemma skipn_nil_inv (T : Type) (k : nat) (l : list T) :
  skipn k l = [] -> (List.length l <= k)%nat.
Proof.
  revert l. induction k as [|k IH]; intros [|x l] H; simpl in *;
    try discriminate H; try lia.
  apply IH in H. lia.
Qed.

Section Scan.
Variables fi time : list F.
Variable threshold : F.

Let mask : list bool := map (fun x => fgt x threshold) (np_abs fi).

Lemma mask_above (j : nat) (b : bool) :
  nth_error mask j = Some b -> above fi threshold j = b.
Proof.
  unfold mask, np_abs, above. rewrite map_map, nth_error_map.
  destruct (nth_error fi j); simpl; congruence.
Qed.

Lemma mask_length : List.length mask = List.length fi.
Proof. unfold mask, np_abs. rewrite !length_map. reflexivity. Qed.

(** The loop of lines 236-255 from index [k] on: the regions recorded so
    far are the records of the runs that were closed before [k]. *)
Lemma scan_regions_runs :
  forall (bs : list bool) (k : nat) (regions : list (TopRegion F))
         (in_region : bool) (region_start : nat) (out : list (TopRegion F)),
    skipn k mask = bs ->
    (in_region = true ->
     (region_start < k)%nat
     /\ (forall j, (region_start <= j < k)%nat -> above fi threshold j = true)
     /\ (region_start = 0%nat
         \/ above fi threshold (region_start - 1) = false)) ->
    (in_region = false -> k = 0%nat \/ above fi threshold (k - 1) = false) ->
    Forall (closed_run fi time threshold) regions ->
    (forall a b, maximal_run fi threshold a b -> (b < k)%nat ->
                 exists r, In r regions /\ close_region fi time a b = ok r) ->
    scan_regions fi time (combine (seq k (List.length bs)) bs)
                 regions in_region region_start = ok out ->
    Forall (closed_run fi time threshold) out
    /\ forall a b, maximal_run fi threshold a b ->
                   exists r, In r out /\ close_region fi time a b = ok r.
Proof.
  induction bs as [|b bs IH];
    intros k regions in_region start out Hm Hin Hout Hr Hc H.
  - apply ok_inj in H. subst out. split; [exact Hr|].
    intros a b Hab. apply Hc; [exact Hab|].
    apply skipn_nil_inv in Hm. rewrite mask_length in Hm.
    destruct Hab as (_ & Hb & _). lia.
  - cbn [List.length seq combine scan_regions] in H.
    destruct (skipn_cons_inv _ k mask b bs Hm) as (Hb & Hm' & Hk).
    apply mask_above in Hb. rewrite mask_length in Hk.
    assert (Old : forall regions',
               (forall r, In r regions -> In r regions') ->
               b = true ->
               forall a0 b0, maximal_run fi threshold a0 b0 -> (b0 < S k)%nat ->
                 exists r, In r regions' /\ close_region fi time a0 b0 = ok r).
    { intros regions' Hsub Tb a0 b0 Hab Hlt.
      destruct (Nat.eq_dec b0 k) as [->|N].
      - destruct Hab as (_ & _ & _ & Hf & _). congruence.
      - destruct (Hc a0 b0 Hab ltac:(lia)) as (r & Hi & Hcl).
        exists r. auto. }
    destruct b; cbn [negb andb] in H.
    + destruct in_region; cbn [negb] in H.
      * apply (IH (S k) _ _ _ _ Hm') in H; [exact H| |discriminate|exact Hr|].
        -- intros _. destruct (Hin eq_refl) as (S1 & S2 & S3).
           split; [lia|]. split; [|exact S3].
           intros j Hj. destruct (Nat.eq_dec j k) as [->|N]; [exact Hb|].
           apply S2. lia.
        -- apply Old; auto.
      * apply (IH (S k) _ _ _ _ Hm') in H; [exact H| |discriminate|exact Hr|].
        -- intros _. split; [lia|]. split.
           ++ intros j Hj. replace j with k by lia. exact Hb.
           ++ exact (Hout eq_refl).
        -- apply Old; auto.
    + destruct in_region.
      * apply rbind_ok in H. destruct H as (r & Hcl & H).
        destruct (Hin eq_refl) as (S1 & S2 & S3).
        assert (Hrun : maximal_run fi threshold start k).
        { repeat split; auto. }
        apply (IH (S k) _ _ _ _ Hm') in H; [exact H|discriminate| | |].
        -- intros _. right. replace (S k - 1)%nat with k by lia. exact Hb.
        -- apply Forall_app. split; [exact Hr|].
           constructor; [|constructor]. exists start, k. auto.
        -- intros a0 b0 Hab Hlt. destruct (Nat.eq_dec b0 k) as [->|N].
           ++ exists r. split; [apply in_or_app; right; left; reflexivity|].
              destruct Hab as (A1 & _ & A3 & _ & A5).
              assert (a0 = start) as ->; [|exact Hcl].
              destruct (Nat.lt_trichotomy a0 start) as [L|[E|G]]; [|exact E|].
              ** exfalso. destruct S3 as [S3|S3]; [lia|].
                 rewrite (A3 (start - 1)%nat) in S3 by lia. discriminate S3.
              ** exfalso. destruct A5 as [A5|A5]; [lia|].
                 rewrite (S2 (a0 - 1)%nat) in A5 by lia. discriminate A5.
           ++ destruct (Hc a0 b0 Hab ltac:(lia)) as (r0 & Hi & Hcl0).
              exists r0. split; [apply in_or_app; left; exact Hi|exact Hcl0].
      * apply (IH (S k) _ _ _ _ Hm') in H; [exact H|discriminate| |exact Hr|].
        -- intros _. right. replace (S k - 1)%nat with k by lia. exact Hb.
        -- intros a0 b0 Hab Hlt. destruct (Nat.eq_dec b0 k) as [->|N].
           ++ exfalso. destruct Hab as (A1 & _ & A3 & _ & _).
              destruct (Hout eq_refl) as [O|O]; [lia|].
              rewrite (A3 (k - 1)%nat) in O by lia. discriminate O.
           ++ apply Hc; [exact Hab|lia].
Qed.
End Scan.

(** The candidates of [_identify_top_regions] are the records of the
    closed runs, one for each, and the result is the first [top_k] of them
    in the order of the sort. *)
Lemma identify_top_regions_runs (fi time : list F) (top_k : nat)
      (out : list (TopRegion F)) :
  _identify_top_regions fi time top_k = ok out ->
  exists threshold regions,
    np_percentile (np_abs fi) (of_Z 80) = ok threshold
    /\ out = firstn top_k (sort_by_abs_importance regions)
    /\ Forall (closed_run fi time threshold) regions
    /\ forall a b, maximal_run fi threshold a b ->
                   exists r, In r regions /\ close_region fi time a b = ok r.
Proof.
  unfold _identify_top_regions. intro H.
  apply rbind_ok in H. destruct H as (th & Hth & H).
  apply rbind_ok in H. destruct H as (regions & Hs & H).
  apply ok_inj in H. subst out. exists th, regions. split; [exact Hth|].
  split; [reflexivity|].
  eapply (scan_regions_runs fi time th _ 0%nat [] false 0%nat regions);
    [reflexivity|discriminate|auto|constructor| |exact Hs].
  intros a b _ Hb. lia.
Qed.
End TopRegions.

Section TopRegionsAnyArithmetic.
Context {F : Type} {A : Arith F}.

Lemma close_region_percent (fi time : list F) (a b : nat) (r : TopRegion F) :
  close_region fi time a b = ok r ->
  contribution_percent r = fmul (fabs (importance r)) (of_Z 100).
Proof.
  unfold close_region. intro H.
  apply rbind_ok in H. destruct H as (t0 & _ & H).
  apply rbind_ok in H. destruct H as (t1 & _ & H).
  apply ok_inj in H. subst r. reflexivity.
Qed.

(** X7: when [_identify_top_regions] returns, the result is the first
    [top_k] of the candidate regions sorted by decreasing
    [abs(importance)], so at most [top_k] regions.  The candidates are the
    records that lines 241-254 make of the runs of consecutive samples
    above the 80th-percentile threshold in absolute value that start after
    a sample not above it (or at index 0) and that a sample not above it
    ends: every candidate is the record of such a run, and every such run
    has its record among the candidates.  The [contribution_percent] of a
    returned region is [abs(importance) * 100]. *)
Theorem top_regions_are_closed_runs (fi time : list F) (top_k : nat) :
  match _identify_top_regions fi time top_k with
  | inr out =>
      exists threshold candidates,
        np_percentile (np_abs fi) (of_Z 80) = ok threshold
        /\ Forall (closed_run fi time threshold) candidates
        /\ (forall a b, maximal_run fi threshold a b ->
                        exists r, In r candidates
                                  /\ close_region fi time a b = ok r)
        /\ out = firstn top_k (sort_by_abs_importance candidates)
        /\ (List.length out <= top_k)%nat
        /\ Forall (fun r =>
                     closed_run fi time threshold r
                     /\ contribution_percent r
                        = fmul (fabs (importance r)) (of_Z 100)) out
  | inl _ => True
  end.
Proof.
  destruct (_identify_top_regions fi time top_k) as [e|out] eqn:E; [exact I|].
  destruct (identify_top_regions_runs fi time top_k out E)
    as (th & regions & Hth & -> & Hr & Hc).
  exists th, regions. split; [exact Hth|]. split; [exact Hr|].
  split; [exact Hc|]. split; [reflexivity|].
  split; [apply firstn_le_length|].
  apply firstn_Forall, sort_by_abs_importance_Forall.
  eapply Forall_impl; [|exact Hr]. intros r Hrun. split; [exact Hrun|].
  destruct Hrun as (a & b & _ & Hcl).
  eapply close_region_percent, Hcl.
Qed.
End TopRegionsAnyArithmetic.

Section TopRegionsQ.
Local Open Scope Q_scope.

Lemma insert_desc_sorted (x : TopRegion Q) (l : list (TopRegion Q)) :
  StronglySorted by_abs_importance l ->
  StronglySorted by_abs_importance (insert_desc x l).
Proof.
  induction 1 as [|y l S IH Hy]; cbn [insert_desc].
  - constructor; constructor.
  - destruct (flt (fabs (importance x)) (fabs (importance y))) eqn:E.
    + apply Q_flt_true in E. constructor; [exact IH|].
      apply insert_desc_Forall; [|exact Hy].
      unfold by_abs_importance. apply Qlt_le_weak, E.
    + apply Q_flt_false in E. constructor; [constructor; assumption|].
      constructor; [exact E|].
      eapply Forall_impl; [|exact Hy]. unfold by_abs_importance.
      intros z Hz. eapply Qle_trans; [exact Hz|exact E].
Qed.

Lemma sort_by_abs_importance_sorted (l : list (TopRegion Q)) :
  StronglySorted by_abs_importance (sort_by_abs_importance l).
Proof.
  unfold sort_by_abs_importance. induction l as [|x l IH]; cbn [fold_right].
  - constructor.
  - apply insert_desc_sorted, IH.
Qed.

Lemma firstn_sorted (T : Type) (R : T -> T -> Prop) (n : nat) (l : list T) :
  StronglySorted R l -> StronglySorted R (firstn n l).
Proof.
  intro S. revert n. induction S as [|x l S IH Hx]; intros [|n]; simpl;
    try constructor; auto.
  apply firstn_Forall, Hx.
Qed.

Lemma sorted_nth_error (T : Type) (R : T -> T -> Prop) (l : list T) :
  (forall x, R x x) -> StronglySorted R l ->
  forall i j x y, (i <= j)%nat -> nth_error l i = Some x ->
                  nth_error l j = Some y -> R x y.
Proof.
  intros Rr S. induction S as [|z l S IH Hz]; intros i j x y Hij Hi Hj.
  - destruct i; discriminate Hi.
  - destruct i as [|i], j as [|j]; simpl in *; try lia.
    + injection Hi as <-. injection Hj as <-. apply Rr.
    + injection Hi as <-. rewrite Forall_forall in Hz.
      apply Hz. eapply nth_error_In, Hj.
    + eapply IH; [|eassumption|eassumption]. lia.
Qed.

Lemma py_index_nat (a : list Q) (i : nat) (x : Q) :
  py_index a (Z.of_nat i) = ok x -> nth_error a i = Some x.
Proof.
  unfold py_index. cbv zeta.
  assert (E0 : (Z.of_nat i <? 0)%Z = false) by (apply Z.ltb_ge; lia).
  rewrite E0. cbv iota. rewrite E0, Nat2Z.id.
  destruct (nth_error a i); [intro H; apply ok_inj in H; congruence|discriminate].
Qed.

Lemma close_region_Q (fi time : list Q) (a b : nat) (r : TopRegion Q) :
  (a < b)%nat ->
  close_region fi time a b = ok r ->
  nth_error time a = Some (start_time r)
  /\ nth_error time (b - 1) = Some (end_time r)
  /\ importance r = np_mean (firstn (b - a) (skipn a fi)).
Proof.
  intros Hab H. unfold close_region in H.
  apply rbind_ok in H. destruct H as (t0 & H0 & H).
  apply rbind_ok in H. destruct H as (t1 & H1 & H).
  apply ok_inj in H. subst r. cbn [start_time end_time importance].
  replace (Z.of_nat b - 1)%Z with (Z.of_nat (b - 1)) in H1 by lia.
  apply py_index_nat in H0, H1. unfold nan_to_num1. cbn [is_nan is_inf Q_arith].
  auto.
Qed.

(** X8: over exact arithmetic, for a non-empty importance array and a
    non-decreasing time grid of the same length, [_identify_top_regions]
    returns; its regions are in order of decreasing [|importance|]; each
    starts and ends at grid times with [start_time <= end_time]; its
    [contribution_percent] is [|importance| * 100] and its importance the
    mean of the importance values of its run. *)
Theorem top_regions_are_ranked (fi time : list Q) (top_k : nat) :
  fi <> [] -> List.length time = List.length fi -> StronglySorted Qle time ->
  exists out,
    _identify_top_regions fi time top_k = ok out
    /\ StronglySorted by_abs_importance out
    /\ Forall (fun r =>
                 start_time r <= end_time r
                 /\ In (start_time r) time /\ In (end_time r) time
                 /\ contribution_percent r == Qabs (importance r) * 100
                 /\ exists a b,
                     (a < b < List.length fi)%nat
                     /\ importance r = np_mean (firstn (b - a) (skipn a fi)))
              out.
Proof.
  intros N L S.
  destruct (@identify_top_regions_ok Q Q_arith percentile_ok_Q fi time top_k N L)
    as [out E].
  exists out. split; [exact E|].
  destruct (identify_top_regions_runs fi time top_k out E)
    as (th & regions & Hth & -> & Hr & _).
  split; [apply firstn_sorted, sort_by_abs_importance_sorted|].
  apply firstn_Forall, sort_by_abs_importance_Forall.
  eapply Forall_impl; [|exact Hr].
  intros r (a & b & (Hab & Hb & _) & Hc).
  pose proof (close_region_percent fi time a b r Hc) as Hp.
  destruct (close_region_Q fi time a b r Hab Hc) as (H0 & H1 & Hi).
  split.
  { apply (sorted_nth_error Q Qle time Qle_refl S a (b - 1)); auto. lia. }
  split; [eapply nth_error_In, H0|]. split; [eapply nth_error_In, H1|].
  split; [rewrite Hp; reflexivity|].
  exists a, b. split; [lia|exact Hi].
Qed.

Lemma top_regions_are_ranked_witness :
  exists out,
    _identify_top_regions [0; 0; 0; 0.6; 0] [0; 7.5; 15; 22.5; 30] 5 = ok out
    /\ StronglySorted by_abs_importance out.
Proof.
  destruct (top_regions_are_ranked [0; 0; 0; 0.6; 0] [0; 7.5; 15; 22.5; 30] 5)
    as (out & E & S & _).
  - discriminate.
  - reflexivity.
  - repeat constructor; discriminate.
  - exists out. split; [exact E|exact S].
Defined.
End TopRegionsQ.

Section ExplanationShape.
Context {F : Type} {A : Arith F}.
Variable rng_state : Type.
Variable np_random_seed : Z -> rng_state.
Variable legacy_gauss : rng_state -> F * rng_state.
Variable np_exp : F -> F.
Variable format_1f : F -> string.

(** X9: a returned explanation has one importance value per sample of
    the light curve (whatever the length of [time_points]), at most five
    regions, the base value 0.5, and the summary that
    [_generate_explanation] writes for the returned regions. *)
Theorem explanation_has_the_shape_of_the_curve
        (light_curve time_points : list F) (classification : string)
        (confidence : F) (transit_regions : list (TransitRegion F))
        (s : rng_state) :
  match explain_prediction np_random_seed legacy_gauss np_exp format_1f
                           light_curve time_points classification confidence
                           transit_regions s with
  | (inr e, _) =>
      List.length (feature_importance e) = List.length light_curve
      /\ (List.length (top_contributing_regions e) <= 5)%nat
      /\ base_value e = lit 0.5
      /\ explanation_summary e
         = _generate_explanation format_1f classification confidence
                                 (top_contributing_regions e) transit_regions
  | (inl _, _) => True
  end.
Proof.
  destruct (explain_prediction _ _ _ _ _ _ _ _ _ s) as [[x|e] s'] eqn:E;
    [exact I|].
  apply explain_prediction_inv in E.
  destruct E as (raw & scaled & top & Lraw & Hs & Ht & -> & _).
  cbn [feature_importance top_contributing_regions base_value
       explanation_summary].
  apply rescale_length in Hs. rewrite gaussian_filter1d_length in Hs.
  split; [rewrite sanitize_length; congruence|].
  split; [|split; reflexivity].
  destruct (identify_top_regions_runs _ _ _ _ Ht)
    as (th & regions & _ & -> & _).
  apply firstn_le_length.
Qed.
End ExplanationShape.

Section RescaleQ.
Local Open Scope Q_scope.

Lemma np_max_Q (a : list Q) :
  a <> [] ->
  exists m, np_max a = ok m /\ Forall (fun y => y <= m) a /\ In m a.
Proof.
  destruct a as [|x l]; [congruence|]. intros _.
  unfold np_max. rewrite existsb_is_nan_Q.
  destruct (fold_py_max_Q l x) as (H1 & H2 & H3). cbv zeta in *.
  eexists. split; [reflexivity|]. split; [constructor; assumption|exact H3].
Qed.

(** X10: lines 186-188 over exact arithmetic, where no NaN arises.  An
    empty array is a [ValueError] of [np.max]; otherwise the result has
    the length of the input, all its entries lie in [-0.6, 0.6], some
    entry has absolute value exactly 0.6 as soon as the input has a
    non-zero entry, an all-zero input is returned unchanged, and the sign
    of every entry is kept. *)
Theorem rescale_puts_the_peak_at_0_6 (a : list Q) :
  (a = [] -> exists msg, rescale a = raise (ValueError msg))
  /\ (a <> [] ->
      exists b,
        rescale a = ok b
        /\ List.length b = List.length a
        /\ Forall (fun x => Qabs x <= 0.6) b
        /\ (Exists (fun v => ~ v == 0) a -> Exists (fun x => Qabs x == 0.6) b)
        /\ (Forall (fun v => v == 0) a -> b = a)
        /\ Forall2 (fun v x => (0 < v -> 0 < x) /\ (v < 0 -> x < 0)) a b).
Proof.
  split.
  - intros ->. eexists. reflexivity.
  - intro N. unfold rescale.
    destruct (np_max_Q (np_abs a)) as (m & -> & Hm & Hin).
    { destruct a; [congruence|discriminate]. }
    cbv beta iota delta [rbind ok].
    unfold np_abs in Hm, Hin. rewrite Forall_map in Hm.
    apply in_map_iff in Hin. destruct Hin as (v0 & Hv0 & Hin).
    change (fabs v0) with (Qabs v0) in Hv0.
    assert (E6 : lit (A := Q_arith) 0.6 == 0.6) by apply Q_lit.
    unfold fgt. destruct (flt (of_Z 0) m) eqn:E.
    + apply Q_flt_true in E. change (0 < m) in E.
      assert (Nm : ~ m == 0) by lra.
      assert (D : forall v, Qabs (v / m * lit 0.6) == Qabs v / m * 0.6).
      { intro v. rewrite Qabs_Qmult. unfold Qdiv. rewrite Qabs_Qmult.
        rewrite Qabs_Qinv. rewrite (Qabs_pos m) by lra.
        rewrite E6. reflexivity. }
      eexists. split; [reflexivity|]. split; [apply length_map|].
      split; [|split; [|split]].
      * apply Forall_map. eapply Forall_impl; [|exact Hm]. cbv beta.
        intros v Hv. change (fabs v) with (Qabs v) in Hv.
        change (Qabs (v / m * lit 0.6) <= 0.6). rewrite D.
        assert (Qabs v / m <= 1) by (apply Qle_shift_div_r; lra). lra.
      * intros _. apply Exists_exists. exists (v0 / m * lit 0.6).
        split; [apply in_map_iff; exists v0; auto|].
        rewrite D, Hv0. field. exact Nm.
      * intro Z0. exfalso. rewrite Forall_forall in Z0.
        specialize (Z0 v0 Hin).
        assert (Qabs v0 == 0) as C by (rewrite Z0; reflexivity).
        rewrite Hv0 in C. lra.
      * apply Forall2_map_self. intro v.
        change (fmul (fdiv v m) (lit 0.6)) with (v / m * lit 0.6).
        rewrite E6.
        assert (P : 0 < / m) by (apply Qinv_lt_0_compat; exact E).
        unfold Qdiv. split; intro Hv.
        -- apply Qmult_lt_0_compat; [|reflexivity].
           apply Qmult_lt_0_compat; assumption.
        -- assert (0 < (- v) * / m * 0.6).
           { apply Qmult_lt_0_compat; [|reflexivity].
             apply Qmult_lt_0_compat; [lra|assumption]. }
           lra.
    + apply Q_flt_false in E. change (m <= 0) in E.
      assert (Z0 : Forall (fun v => v == 0) a).
      { eapply Forall_impl; [|exact Hm]. cbv beta. intros v.
        change (fabs v) with (Qabs v). apply Qabs_case; intros; lra. }
      exists a. split; [reflexivity|]. split; [reflexivity|].
      split; [|split; [|split]].
      * eapply Forall_impl; [|exact Z0]. cbv beta. intros v Hv.
        rewrite Hv. discriminate.
      * intro Ex. exfalso. apply Exists_exists in Ex.
        destruct Ex as (v & Hv & Nv). rewrite Forall_forall in Z0.
        apply Nv, Z0, Hv.
      * reflexivity.
      * rewrite <- (map_id a) at 2. apply Forall2_map_self. tauto.
Qed.
End RescaleQ.

Section ShortCurves.
Context {F : Type} {A : Arith F}.
Variable rng_state : Type.
Variable np_random_seed : Z -> rng_state.
Variable legacy_gauss : rng_state -> F * rng_state.
Variable np_exp : F -> F.
Variable format_1f : F -> string.

Lemma np_inplace_mismatch (op : F -> F -> F) (a b : list F) :
  List.length b <> List.length a -> List.length b <> 1%nat ->
  np_inplace op a b
  = raise (ValueError "operands could not be broadcast together").
Proof.
  intros H1 H2. unfold np_inplace.
  destruct (Nat.eqb_spec (List.length b) (List.length a)) as [E|_];
    [contradiction|].
  destruct b as [|y [|z b]]; try reflexivity. simpl in H2. congruence.
Qed.

Lemma no_planet_importance_short (flux time : list F) (confidence : F)
      (regs : list (TransitRegion F)) (fi : list F) :
  (List.length flux < 3)%nat -> List.length fi = List.length flux ->
  exists msg,
    no_planet_importance np_exp flux time confidence regs fi
    = raise (ValueError msg).
Proof.
  intros L Lf. unfold no_planet_importance.
  destruct flux as [|x flux].
  - eexists. reflexivity.
  - match goal with
    | |- context [np_max ?a] => destruct (@np_max_ok _ _ a) as [m ->]
    end; [discriminate|].
    cbv beta iota delta [rbind ok].
    set (nv := if fgt m (lit 1e-10) then _ else _).
    set (w := Nat.max 3 (List.length (x :: flux) / 50)).
    assert (Lc : (3 <= List.length
                        (map (fun v => fmul (fmul v (lit 0.4)) confidence)
                             (np_convolve_same nv
                                (map (fun o => fdiv o (of_nat w)) (np_ones w)))))%nat).
    { rewrite length_map, np_convolve_same_length, length_map, np_ones_length.
      unfold w. lia. }
    rewrite np_inplace_mismatch.
    + eexists. reflexivity.
    + rewrite Lf. lia.
    + lia.
Qed.

(** X11: a light curve of fewer than three samples cannot be explained
    under a label other than [exoplanet]: [np.max] of an empty array, or
    the in-place addition of the three-point smoothed variance to a
    shorter array, raises [ValueError]; by then the generator has been
    reseeded with 42 and the background noise drawn. *)
Theorem short_curve_is_a_value_error
        (light_curve time_points : list F) (classification : string)
        (confidence : F) (transit_regions : list (TransitRegion F))
        (s : rng_state) :
  classification <> "exoplanet"%string ->
  (List.length light_curve < 3)%nat ->
  exists msg,
    explain_prediction np_random_seed legacy_gauss np_exp format_1f
                       light_curve time_points classification confidence
                       transit_regions s
    = (raise (ValueError msg),
       snd (np_random_normal legacy_gauss (of_Z 0) (lit 0.01)
                             (List.length light_curve) (np_random_seed 42))).
Proof.
  intros C L.
  unfold explain_prediction, _generate_synthetic_shap, mbind, random_seed.
  cbv beta iota delta [ok]. rewrite random_normal_run.
  cbv beta iota delta [ok]. unfold mlift.
  apply String.eqb_neq in C. rewrite C.
  destruct (no_planet_importance_short light_curve time_points confidence
              transit_regions
              (map2 fadd (np_zeros (List.length light_curve))
                    (fst (np_random_normal legacy_gauss (of_Z 0) (lit 0.01)
                            (List.length light_curve) (np_random_seed 42))))
              L)
    as [msg ->].
  - unfold np_zeros.
    rewrite map2_length, repeat_length, np_random_normal_length.
    apply Nat.min_id.
  - exists msg. reflexivity.
Qed.
End ShortCurves.

Lemma short_curve_is_a_value_error_witness :
  exists msg,
    explain_prediction Standin.np_random_seed Standin.legacy_gauss
                       Standin.np_exp Standin.format_1f
                       [1; 0.99]%Q [0; 30]%Q "no_planet" 0.9%Q [] tt
    = (raise (ValueError msg), tt).
Proof.
  destruct (short_curve_is_a_value_error
              Standin.rng_state Standin.np_random_seed Standin.legacy_gauss
              Standin.np_exp Standin.format_1f
              [1; 0.99]%Q [0; 30]%Q "no_planet"%string 0.9%Q [] tt)
    as [msg E].
  - discriminate.
  - simpl. lia.
  - exists msg. rewrite E. reflexivity.
Defined.

Section InconsistentInputs.
Context {F : Type} {A : Arith F}.
Variable rng_state : Type.
Variable np_random_seed : Z -> rng_state.
Variable legacy_gauss : rng_state -> F * rng_state.
Variable np_exp : F -> F.
Variable format_1f : F -> string.

Lemma py_index_out_of_range (a : list F) (i : nat) :
  (List.length a <= i)%nat -> py_index a (Z.of_nat i) = raise IndexError.
Proof.
  intro H. unfold py_index. cbv zeta.
  assert (E0 : (Z.of_nat i <? 0)%Z = false) by (apply Z.ltb_ge; lia).
  rewrite E0. cbv iota. rewrite E0, Nat2Z.id.
  destruct (nth_error a i) eqn:E; [|reflexivity].
  exfalso. assert (nth_error a i <> None) as N by congruence.
  apply nth_error_Some in N. lia.
Qed.

(** The state in which [explain_prediction] leaves the generator. *)
Let reseeded (n : nat) : rng_state :=
  snd (np_random_normal legacy_gauss (of_Z 0) (lit 0.01) n (np_random_seed 42)).

(** X12: under the label [exoplanet], the first transit region must fit
    the inputs.  If its centre index [(start_index + end_index) // 2] is
    not an index of [time_points], line 104 raises [IndexError]; if it is,
    but [time_points] has neither the length of the light curve nor length
    1, the in-place addition of line 116 raises [ValueError].  In both
    cases the generator has been reseeded with 42 and the background noise
    drawn. *)
Theorem misfit_region_is_an_error
        (light_curve time_points : list F) (confidence : F)
        (region : TransitRegion F) (rest : list (TransitRegion F))
        (s : rng_state) :
  let center_idx := ((start_index region + end_index region) / 2)%nat in
  let run :=
    explain_prediction np_random_seed legacy_gauss np_exp format_1f
                       light_curve time_points "exoplanet" confidence
                       (region :: rest) s in
  ((List.length time_points <= center_idx)%nat ->
   run = (raise IndexError, reseeded (List.length light_curve)))
  /\ ((center_idx < List.length time_points)%nat ->
      List.length time_points <> List.length light_curve ->
      List.length time_points <> 1%nat ->
      exists msg,
        run = (raise (ValueError msg), reseeded (List.length light_curve))).
Proof.
  intros center_idx run. unfold run, reseeded.
  unfold explain_prediction, _generate_synthetic_shap, mbind, random_seed.
  cbv beta iota delta [ok]. rewrite random_normal_run.
  cbv beta iota delta [ok]. unfold mlift.
  cbn [String.eqb Ascii.eqb Bool.eqb].
  set (noise := fst (np_random_normal legacy_gauss (of_Z 0) (lit 0.01)
                                      (List.length light_curve)
                                      (np_random_seed 42))).
  set (fi0 := map2 fadd (np_zeros (List.length light_curve)) noise).
  assert (L0 : List.length fi0 = List.length light_curve).
  { unfold fi0, np_zeros, noise.
    rewrite map2_length, repeat_length, np_random_normal_length.
    apply Nat.min_id. }
  unfold exoplanet_importance. cbn [add_transit_peaks].
  unfold region_weights. fold center_idx. split.
  - intro H. rewrite (py_index_out_of_range time_points center_idx H).
    reflexivity.
  - intros H N1 N2.
    destruct (@py_index_in_range _ time_points center_idx H) as [c ->].
    cbv beta iota delta [rbind ok].
    rewrite np_inplace_mismatch; [eexists; reflexivity| |];
      rewrite !length_map; congruence.
Qed.
End InconsistentInputs.

Lemma misfit_region_is_an_error_witness :
  explain_prediction Standin.np_random_seed Standin.legacy_gauss
                     Standin.np_exp Standin.format_1f
                     [1; 0.99; 1]%Q [0; 15; 30]%Q "exoplanet" 0.9%Q
                     [Build_TransitRegion 4 6 0.01%Q] tt
  = (raise IndexError, tt).
Proof.
  apply (proj1 (@misfit_region_is_an_error
                  Q Q_arith Standin.rng_state Standin.np_random_seed
                  Standin.legacy_gauss Standin.np_exp Standin.format_1f
                  [1; 0.99; 1]%Q [0; 15; 30]%Q 0.9%Q
                  (Build_TransitRegion 4 6 0.01%Q) [] tt)).
  simpl. lia.
Defined.

Section Binary64Order.
Import SpecFloat.

Lemma is_inf_SF (x : float) :
  PrimFloat.is_infinity x
  = match Prim2SF x with S754_infinity _ => true | _ => false end.
Proof.
  unfold PrimFloat.is_infinity.
  rewrite FloatAxioms.eqb_spec, FloatAxioms.abs_spec.
  destruct (Prim2SF x) as [s|s| |s m e]; reflexivity.
Qed.

Lemma infinite_is_outside_0_1 (x : float) :
  PrimFloat.is_infinity x = true ->
  PrimFloat.ltb x (lit (A := B64_arith) 0.0) = true
  \/ PrimFloat.ltb (lit (A := B64_arith) 1.0) x = true.
Proof.
  rewrite is_inf_SF, !FloatAxioms.ltb_spec.
  destruct (Prim2SF x) as [s|s| |s m e]; try discriminate. intros _.
  destruct s; [left|right]; vm_compute; reflexivity.
Qed.
End Binary64Order.

Lemma clipped_value_is_in_0_1 (x : float) :
  let p := nan_to_num1 (lit 0.5) float_max (fneg float_max)
                       (clip1 (lit 0.0) (lit 1.0) x) in
  finite64 p /\ flt p (lit 0.0) = false /\ flt (lit 1.0) p = false.
Proof.
  cbv zeta. unfold clip1, finite64.
  destruct (is_nan x) eqn:N.
  - unfold nan_to_num1. rewrite N. vm_compute. auto.
  - destruct (flt x (lit 0.0)) eqn:L; [vm_compute; auto|].
    destruct (flt (lit 1.0) x) eqn:U; [vm_compute; auto|].
    assert (I : is_inf x = false).
    { destruct (is_inf x) eqn:I; [|reflexivity].
      destruct (infinite_is_outside_0_1 x I) as [C|C].
      - change (flt x (lit 0.0) = true) in C. congruence.
      - change (flt (lit 1.0) x = true) in C. congruence. }
    unfold nan_to_num1. rewrite N, I. auto.
Qed.

Lemma nan_to_num1_finite (n p q x : float) :
  finite64 n -> finite64 p -> finite64 q -> finite64 (nan_to_num1 n p q x).
Proof.
  intros Hn Hp Hq. unfold nan_to_num1.
  destruct (is_nan x) eqn:N; [exact Hn|].
  destruct (is_inf x) eqn:I; [|split; assumption].
  destruct (flt (of_Z 0) x); assumption.
Qed.

Lemma close_region_finite (fi time : list float) (a b : nat)
      (r : TopRegion float) :
  close_region fi time a b = ok r ->
  finite64 (start_time r) /\ finite64 (end_time r) /\ finite64 (importance r).
Proof.
  unfold close_region. intro H.
  apply rbind_ok in H. destruct H as (t0 & _ & H).
  apply rbind_ok in H. destruct H as (t1 & _ & H).
  apply ok_inj in H. subst r. cbn [start_time end_time importance].
  repeat split; apply nan_to_num1_finite; split; vm_compute; reflexivity.
Qed.

Section FiniteExplanation.
Variable rng_state : Type.
Variable np_random_seed : Z -> rng_state.
Variable legacy_gauss : rng_state -> float * rng_state.
Variable np_exp : float -> float.
Variable format_1f : float -> string.

(** X13: in binary64, whatever the arithmetic produced on the way, a
    returned explanation holds no NaN and no infinity in its importance
    values, its base and predicted values and the start time, end time and
    importance of its regions, and its predicted value is neither below 0
    nor above 1. *)
Theorem explanation_is_finite
        (light_curve time_points : list float) (classification : string)
        (confidence : float) (transit_regions : list (TransitRegion float))
        (s s' : rng_state) (e : SHAPExplanation float) :
  explain_prediction np_random_seed legacy_gauss np_exp format_1f
                     light_curve time_points classification confidence
                     transit_regions s
  = (ok e, s') ->
  Forall finite64 (feature_importance e)
  /\ finite64 (base_value e)
  /\ finite64 (predicted_value e)
  /\ flt (predicted_value e) (lit 0.0) = false
  /\ flt (lit 1.0) (predicted_value e) = false
  /\ Forall (fun r => finite64 (start_time r) /\ finite64 (end_time r)
                      /\ finite64 (importance r))
            (top_contributing_regions e).
Proof.
  intro H.
  destruct (explain_prediction_inv rng_state np_random_seed legacy_gauss np_exp
              format_1f light_curve time_points classification confidence
              transit_regions s s' e H)
    as (raw & scaled & top & _ & _ & Ht & -> & _).
  cbn [feature_importance base_value predicted_value top_contributing_regions].
  split; [apply sanitize_finite|].
  split; [split; vm_compute; reflexivity|].
  destruct (clipped_value_is_in_0_1 (fadd (lit 0.5) (np_mean raw)))
    as (P1 & P2 & P3).
  split; [exact P1|]. split; [exact P2|]. split; [exact P3|].
  destruct (identify_top_regions_runs (sanitize scaled) time_points 5 top Ht)
    as (th & regions & _ & -> & Hr & _).
  apply firstn_Forall, sort_by_abs_importance_Forall.
  eapply Forall_impl; [|exact Hr].
  intros r (a & b & _ & Hc).
  eapply close_region_finite, Hc.
Qed.
End FiniteExplanation.

Lemma explanation_is_finite_witness :
  exists e,
    explain_prediction Standin64.np_random_seed Standin64.legacy_gauss
                       Standin64.np_exp Standin64.format_1f
                       (floats [1; 1; 0.99; 1; 1]%Q)
                       (floats [0; 7.5; 15; 22.5; 30]%Q)
                       "no_planet" (lit 0.95) [] tt
    = (ok e, tt)
    /\ Forall finite64 (feature_importance e)
    /\ flt (lit 1.0) (predicted_value e) = false.
Proof.
  destruct (explain_prediction Standin64.np_random_seed Standin64.legacy_gauss
              Standin64.np_exp Standin64.format_1f
              (floats [1; 1; 0.99; 1; 1]%Q)
              (floats [0; 7.5; 15; 22.5; 30]%Q)
              "no_planet" (lit 0.95) [] tt) as [[x|e] []] eqn:E.
  - exfalso. vm_compute in E. discriminate E.
  - exists e. split; [reflexivity|].
    destruct (explanation_is_finite
                Standin64.rng_state Standin64.np_random_seed
                Standin64.legacy_gauss Standin64.np_exp Standin64.format_1f
                _ _ _ _ _ _ _ _ E) as (H1 & _ & _ & _ & H5 & _).
    split; [exact H1|exact H5].
Defined.

(** ** The response *)

Section StateExnFacts.
Variable S : Type.

Lemma mbind_ok (T U : Type) (c : M S T) (k : T -> M S U) (s s' : S) (y : U) :
  mbind c k s = (ok y, s') ->
  exists x s1, c s = (ok x, s1) /\ k x s1 = (ok y, s').
Proof.
  unfold mbind. destruct (c s) as [[e|x] s1]; [discriminate|].
  intro H. exists x, s1. auto.
Qed.

Lemma mret_ok (T : Type) (x y : T) (s s' : S) :
  mret x s = (ok y, s') -> x = y /\ s = s'.
Proof. unfold mret, ok. intro H. injection H. auto. Qed.
End StateExnFacts.

Section GeneratorInversion.
Context {F : Type} {A : Arith F}.
Variable rng_state : Type.
Variable legacy_gauss : rng_state -> F * rng_state.
Variable np_sin : F -> F.
Variable np_pi : F.
Variable hash : string -> Z.

Lemma generate_confirmed_planet_lengths
      (period_days transit_depth transit_duration : F) (n : nat)
      (radius : option F) (s s' : rng_state) (time flux : list F)
      (regs : list (TransitRegion F)) :
  generate_confirmed_planet legacy_gauss period_days transit_depth
                            transit_duration n radius s
  = (ok (time, flux, regs), s') ->
  time = np_linspace (of_Z 0) (of_Z 30) n /\ List.length flux = n.
Proof.
  unfold generate_confirmed_planet. intro H.
  apply mbind_ok in H. destruct H as (d & s1 & _ & H).
  apply mbind_ok in H. destruct H as (noise & s2 & Hn & H).
  apply mbind_ok in H. destruct H as (w & s3 & _ & H).
  rewrite random_normal_run in Hn. injection Hn as Hn _.
  destruct (add_transits _ _ _ _ _) as [fl rg] eqn:E.
  apply mret_ok in H. destruct H as [H _]. injection H as <- <- <-.
  split; [reflexivity|].
  replace fl with (fst (add_transits period_days d (py_min (lit 0.04) w)
                          (np_linspace (of_Z 0) (of_Z 30) n)
                          (map2 fadd (np_ones n) noise)))
    by (rewrite E; reflexivity).
  unfold add_transits. rewrite transit_loop_flux_length.
  apply noisy_ones_length. subst noise. apply np_random_normal_length.
Qed.

Lemma generate_candidate_run (n : nat) (s : rng_state) :
  exists flux,
    generate_candidate legacy_gauss n s
    = (ok (np_linspace (of_Z 0) (of_Z 30) n, flux, []),
       snd (np_random_normal legacy_gauss (of_Z 0) (lit 0.003) n s))
    /\ List.length flux = n.
Proof.
  unfold generate_candidate, mbind. rewrite random_normal_run.
  cbv beta iota delta [ok]. unfold mret. eexists.
  split; [reflexivity|].
  rewrite candidate_loop_flux_length. apply noisy_ones_length.
  apply np_random_normal_length.
Qed.

Lemma generate_false_positive_run (n : nat) (anomaly_type : string)
      (s : rng_state) :
  exists flux s',
    generate_false_positive legacy_gauss np_sin np_pi n anomaly_type s
    = (ok (np_linspace (of_Z 0) (of_Z 30) n, flux, []), s')
    /\ List.length flux = n.
Proof.
  unfold generate_false_positive.
  destruct (String.eqb anomaly_type "eclipsing_binary");
    [|destruct (String.eqb anomaly_type "stellar_variability")];
    unfold mbind; rewrite random_normal_run; cbv beta iota delta [ok];
    unfold mret; eexists _, _; (split; [reflexivity|]).
  - rewrite eclipses_length; rewrite ?np_linspace_length;
      rewrite noisy_ones_length; auto; apply np_random_normal_length.
  - rewrite map2_length, map2_length, length_map, np_ones_length,
      np_linspace_length, np_random_normal_length. lia.
  - apply noisy_ones_length, np_random_normal_length.
Qed.

(** What [classify_and_generate] hands on when it returns. *)
Lemma classify_and_generate_inv (sample : Sample F) (s s1 : rng_state)
      (time flux : list F) (regs : list (TransitRegion F))
      (label : string) (conf : F) :
  classify_and_generate legacy_gauss np_sin np_pi hash sample s
  = (ok (time, flux, regs, label, conf), s1) ->
  (label, conf) = resolve hash (truth sample) (sample_id sample)
  /\ time = np_linspace (of_Z 0) (of_Z 30) 1000
  /\ List.length flux = 1000%nat
  /\ (String.eqb (truth sample) "confirmed" = false -> regs = []).
Proof.
  unfold classify_and_generate, resolve.
  destruct (String.eqb (truth sample) "confirmed") eqn:T1;
    [|destruct (String.eqb (truth sample) "candidate") eqn:T2]; intro H.
  - apply mbind_ok in H. destruct H as ([[t f] r] & s2 & Hg & H).
    apply generate_confirmed_planet_lengths in Hg.
    apply mret_ok in H. destruct H as [H _].
    injection H as <- <- <- <- <-. repeat split; try tauto; discriminate.
  - destruct (generate_candidate_run 1000 s) as (f & Hg & Lf).
    unfold mbind in H. rewrite Hg in H. cbv beta iota delta [ok] in H.
    destruct (hash (sample_id sample) mod 100 <? 70)%Z;
      apply mret_ok in H; destruct H as [H _];
      injection H as <- <- <- <- <-; repeat split; auto.
  - destruct (generate_false_positive_run 1000
                (get (p_anomaly_type (params sample)) "noise"%string) s)
      as (f & s2 & Hg & Lf).
    unfold mbind in H. rewrite Hg in H. cbv beta iota delta [ok] in H.
    apply mret_ok in H; destruct H as [H _].
    injection H as <- <- <- <- <-; repeat split; auto.
Qed.

End GeneratorInversion.

Section PredictionInversion.
Context {F : Type} {A : Arith F}.
Variable rng_state : Type.
Variable np_random_seed : Z -> rng_state.
Variable legacy_gauss : rng_state -> F * rng_state.
Variable np_exp : F -> F.
Variable np_sin : F -> F.
Variable np_pi : F.
Variable format_1f : F -> string.
Variable hash : string -> Z.

(** What a response of [_predict_synthetic] is made of. *)
Lemma predict_synthetic_inv (sample : Sample F) (s s' : rng_state)
      (r : Z -> AnalysisResponse F) :
  _predict_synthetic np_random_seed legacy_gauss np_exp np_sin np_pi
                     format_1f hash sample s
  = (ok r, s') ->
  exists time flux regs label conf s1 e,
    classify_and_generate legacy_gauss np_sin np_pi hash sample s
    = (ok (time, flux, regs, label, conf), s1)
    /\ explain_prediction np_random_seed legacy_gauss np_exp format_1f
                          flux time label conf regs s1
       = (ok e, s')
    /\ r = Build_AnalysisResponse
             label conf
             (if String.eqb label "exoplanet"
              then [("exoplanet"%string, conf);
                    ("no_planet"%string, fsub (of_Z 1) conf)]
              else [("exoplanet"%string, fsub (of_Z 1) conf);
                    ("no_planet"%string, conf)])
             flux time regs
             (Build_AnalysisMetadata
                (p_period_days (params sample))
                (p_transit_duration (params sample))
                (p_planet_radius (params sample))
                (sample_name sample)
                "Transit")
             (Some e)
             "CosmicNet-v1.0".
Proof.
  unfold _predict_synthetic. intro H.
  apply mbind_ok in H.
  destruct H as ([[[[time flux] regs] label] conf] & s1 & Hc & H).
  apply mbind_ok in H. destruct H as (e & s2 & He & H).
  apply mret_ok in H. destruct H as [<- <-].
  exists time, flux, regs, label, conf, s1, e. auto.
Qed.
End PredictionInversion.

Section PredictionAnyArithmetic.
Context {F : Type} {A : Arith F}.
Variable rng_state : Type.
Variable np_random_seed : Z -> rng_state.
Variable legacy_gauss : rng_state -> F * rng_state.
Variable np_exp : F -> F.
Variable np_sin : F -> F.
Variable np_pi : F.
Variable format_1f : F -> string.
Variable hash : string -> Z.
Variable samples_db : list (Sample F).

Let predict_ :=
  predict np_random_seed legacy_gauss np_exp np_sin np_pi format_1f hash
          samples_db.

Lemma predict_state (id : string) (t : Z) (s s' : rng_state)
      (r : AnalysisResponse F) :
  predict_ id t s = (ok r, s') ->
  s' = snd (np_random_normal legacy_gauss (of_Z 0) (lit 0.01) 1000
                             (np_random_seed 42)).
Proof.
  unfold predict_, predict.
  destruct (find _ samples_db) as [sample|]; [|discriminate].
  intro H. apply mbind_ok in H. destruct H as (r0 & s1 & Hp & H).
  unfold mlift in H. injection H as _ <-.
  apply predict_synthetic_inv in Hp.
  destruct Hp as (time & flux & regs & label & conf & s0 & e & Hc & He & _).
  apply classify_and_generate_inv in Hc. destruct Hc as (_ & _ & Lf & _).
  apply explain_prediction_inv in He.
  destruct He as (raw & scaled & top & _ & _ & _ & _ & ->).
  rewrite Lf. reflexivity.
Qed.

(** X14: [predict] leaves numpy's global generator in one fixed state
    whenever it returns a response: the state reached from seed 42 by the
    1000 draws of the explainer's background noise.  So after one answered
    request, the outcome of every later request is the same whatever the
    state the process started in. *)
Theorem answered_prediction_fixes_the_generator
        (id1 id2 : string) (t1 t2 : Z) (s1 s2 : rng_state) :
  match predict_ id1 t1 s1, predict_ id2 t2 s2 with
  | (inr _, s1'), (inr _, s2') =>
      s1' = snd (np_random_normal legacy_gauss (of_Z 0) (lit 0.01) 1000
                                  (np_random_seed 42))
      /\ s1' = s2'
      /\ forall id t, predict_ id t s1' = predict_ id t s2'
  | _, _ => True
  end.
Proof.
  destruct (predict_ id1 t1 s1) as [[e1|r1] s1'] eqn:E1; [exact I|].
  destruct (predict_ id2 t2 s2) as [[e2|r2] s2'] eqn:E2; [exact I|].
  apply predict_state in E1, E2. subst s1' s2'. auto.
Qed.

(** X15: a response for a sample whose truth label is not [confirmed]
    has no highlighted region, and when such a sample is classified
    [exoplanet] (a candidate whose hash is below 70 modulo 100) its
    explanation is the sentence for a detection without transit
    regions. *)
Theorem regions_only_for_confirmed_samples (sample : Sample F) (s : rng_state) :
  match _predict_synthetic np_random_seed legacy_gauss np_exp np_sin np_pi
                           format_1f hash sample s with
  | (inr r, _) =>
      forall t,
        (truth sample <> "confirmed"%string -> highlighted_regions (r t) = [])
        /\ (truth sample <> "confirmed"%string ->
            classification (r t) = "exoplanet"%string ->
            exists e,
              shap_explanation (r t) = Some e
              /\ explanation_summary e
                 = ("Model detected EXOPLANET with "
                    ++ format_1f (fmul (confidence_score (r t)) (of_Z 100))
                    ++ "% confidence, though no clear transit regions were identified. This may indicate a subtle or complex signal.")%string)
  | (inl _, _) => True
  end.
Proof.
  destruct (_predict_synthetic _ _ _ _ _ _ _ sample s) as [[x|r] s'] eqn:E;
    [exact I|].
  apply predict_synthetic_inv in E.
  destruct E as (time & flux & regs & label & conf & s0 & e & Hc & He & ->).
  apply classify_and_generate_inv in Hc. destruct Hc as (_ & _ & _ & Hr).
  intro t. cbn [highlighted_regions classification shap_explanation
                confidence_score].
  split.
  - intro T. apply Hr. apply String.eqb_neq, T.
  - intros T L. exists e. split; [reflexivity|].
    apply String.eqb_neq in T. rewrite (Hr T) in He.
    apply explain_prediction_inv in He.
    destruct He as (raw & scaled & top & _ & _ & _ & -> & _).
    cbn [explanation_summary]. subst label. reflexivity.
Qed.
End PredictionAnyArithmetic.

Section ResolverRange.
Variable hash : string -> Z.
Local Open Scope Q_scope.

(** Whatever the truth label, the resolver gives one of the two labels
    and a confidence between 0.55 and 0.97. *)
Lemma resolve_range (truth id : string) :
  (fst (resolve (A := Q_arith) hash truth id) = "exoplanet"%string
   \/ fst (resolve (A := Q_arith) hash truth id) = "no_planet"%string)
  /\ 0.55 <= snd (resolve (A := Q_arith) hash truth id)
  /\ snd (resolve (A := Q_arith) hash truth id) <= 0.97.
Proof.
  unfold resolve.
  destruct (String.eqb truth "confirmed");
    [|destruct (String.eqb truth "candidate");
      [destruct (hash id mod 100 <? 70)%Z|]]; cbn [fst snd].
  - destruct (@confidence_value 0.90 (hash id mod 8) 8) as (_ & L & U);
      [apply Z.mod_pos_bound; lia|].
    split; [auto|]. split; [lra|]. eapply Qle_trans; [exact U|]. discriminate.
  - destruct (@confidence_value 0.60 ((hash id mod 100) mod 20) 20)
      as (_ & L & U); [apply Z.mod_pos_bound; lia|].
    split; [auto|]. split; [lra|]. eapply Qle_trans; [exact U|]. discriminate.
  - destruct (@confidence_value 0.55 ((hash id mod 100) mod 15) 15)
      as (_ & L & U); [apply Z.mod_pos_bound; lia|].
    split; [auto|]. split; [lra|]. eapply Qle_trans; [exact U|]. discriminate.
  - destruct (@confidence_value 0.85 (hash id mod 12) 12) as (_ & L & U);
      [apply Z.mod_pos_bound; lia|].
    split; [auto|]. split; [lra|]. eapply Qle_trans; [exact U|]. discriminate.
Qed.
End ResolverRange.

Section PredictionQ.
Variable rng_state : Type.
Variable np_random_seed : Z -> rng_state.
Variable legacy_gauss : rng_state -> Q * rng_state.
Variable np_exp : Q -> Q.
Variable np_sin : Q -> Q.
Variable np_pi : Q.
Variable format_1f : Q -> string.
Variable hash : string -> Z.
Variable samples_db : list (Sample Q).
Variable str_of_exn : exn -> string.
Local Open Scope Q_scope.

(** X16: over exact arithmetic, the response of [_predict_synthetic]
    carries the two probabilities [exoplanet] and [no_planet], in this
    order; they add up to 1, both lie in [0, 1], the probability of the
    reported class is the confidence score, and it is the larger of the
    two. *)
Theorem probabilities_sum_to_one (sample : Sample Q) (s : rng_state) :
  match _predict_synthetic np_random_seed legacy_gauss np_exp np_sin np_pi
                           format_1f hash sample s with
  | (inr r, _) =>
      forall t,
      exists pe pn,
        class_probabilities (r t)
        = [("exoplanet"%string, pe); ("no_planet"%string, pn)]
        /\ pe + pn == 1
        /\ 0 <= pe /\ pe <= 1 /\ 0 <= pn /\ pn <= 1
        /\ ((classification (r t) = "exoplanet"%string
             /\ pe = confidence_score (r t) /\ pn < pe)
            \/ (classification (r t) = "no_planet"%string
                /\ pn = confidence_score (r t) /\ pe < pn))
  | (inl _, _) => True
  end.
Proof.
  destruct (_predict_synthetic _ _ _ _ _ _ _ sample s) as [[x|r] s'] eqn:E;
    [exact I|].
  apply predict_synthetic_inv in E.
  destruct E as (time & flux & regs & label & conf & s0 & e & Hc & _ & ->).
  apply classify_and_generate_inv in Hc. destruct Hc as (Hr & _).
  destruct (resolve_range hash (truth sample) (sample_id sample))
    as (Hl & L & U).
  rewrite <- Hr in Hl, L, U. cbn [fst snd] in Hl, L, U.
  intro t. cbn [class_probabilities classification confidence_score].
  change (fsub (of_Z 1) conf) with (1 - conf).
  destruct Hl as [-> | ->]; cbn [String.eqb Ascii.eqb Bool.eqb];
    eexists _, _; (split; [reflexivity|]);
    (split; [ring|]); repeat split; try lra.
  - left. repeat split. lra.
  - right. repeat split. lra.
Qed.

Lemma sanitize_floats_Q (r : AnalysisResponse Q) : _sanitize_floats r = r.
Proof.
  destruct r as [c cs cp lc tp hr an sh mv pt].
  unfold _sanitize_floats, sanitize_float.
  cbn [is_nan is_inf Q_arith classification confidence_score
       class_probabilities light_curve_data time_points highlighted_regions
       analysis shap_explanation model_version processing_time_ms].
  rewrite !map_id. f_equal.
  rewrite <- (map_id cp) at 2. apply map_ext.
  intros [k v]. reflexivity.
Qed.

Let predict_ :=
  predict np_random_seed legacy_gauss np_exp np_sin np_pi format_1f hash
          samples_db.
Let predict_exoplanet_ :=
  predict_exoplanet np_random_seed legacy_gauss np_exp np_sin np_pi format_1f
                    hash samples_db str_of_exn.

(** X17: over exact arithmetic, a request for an identifier of the
    catalog is answered with status 200, unless the entry is confirmed
    with a zero period or with a radius whose square is out of the range
    of a float: the response is that of the first entry with the
    identifier; it carries the resolved label and confidence, 1000 flux
    values and 1000 time points, the name of the entry as star name, the
    model version [CosmicNet-v1.0], the processing time it was given, and
    an explanation with 1000 importance values. *)
Theorem catalog_entry_is_answered
        (id : string) (t : Z) (s : rng_state) (sample : Sample Q) :
  find (fun smp => String.eqb (sample_id smp) id) samples_db = Some sample ->
  (truth sample = "confirmed"%string ->
   ~ get (p_period_days (params sample)) 10 == 0
   /\ radius_in_range (p_planet_radius (params sample))) ->
  exists r s',
    predict_ id t s = (ok r, s')
    /\ predict_exoplanet_ id t s = (Http200 r, s')
    /\ (classification r, confidence_score r)
       = resolve hash (truth sample) (sample_id sample)
    /\ List.length (light_curve_data r) = 1000%nat
    /\ List.length (time_points r) = 1000%nat
    /\ star_name (analysis r) = sample_name sample
    /\ model_version r = "CosmicNet-v1.0"%string
    /\ processing_time_ms r = t
    /\ exists e, shap_explanation r = Some e
                 /\ List.length (feature_importance e) = 1000%nat.
Proof.
  intros Hf Hp.
  destruct (predict_synthetic_run np_random_seed legacy_gauss np_exp np_sin
              np_pi format_1f hash sample s)
    as [(T & r & Er & Hr & _)|[(T & _ & Z0 & _)|(_ & r0 & s' & E & _)]].
  { exfalso. apply String.eqb_eq in T. destruct (Hp T) as [_ R].
    rewrite Er in R. apply (Qlt_not_le _ _ R Hr). }
  { exfalso. apply String.eqb_eq in T. apply (proj1 (Hp T)).
    change (get (p_period_days (params sample)) 10 * 24 == 0) in Z0. lra. }
  pose proof E as E'. apply predict_synthetic_inv in E'.
  destruct E' as (time & flux & regs & label & conf & s0 & e & Hc & He & ->).
  apply classify_and_generate_inv in Hc. destruct Hc as (Hr & Et & Lf & _).
  assert (Lt : List.length time = 1000%nat)
    by (rewrite Et; apply np_linspace_length).
  clear Et.
  apply explain_prediction_inv in He.
  destruct He as (raw & scaled & top & Lraw & Hs & _ & -> & _).
  apply rescale_length in Hs. rewrite gaussian_filter1d_length in Hs.
  destruct (resolve_range hash (truth sample) (sample_id sample))
    as (_ & L & U).
  rewrite <- Hr in L, U. cbn [snd] in L, U.
  assert (P : predict_ id t s
              = (ok (Build_AnalysisResponse label conf
                       (if String.eqb label "exoplanet"
                        then [("exoplanet"%string, conf);
                              ("no_planet"%string, fsub (of_Z 1) conf)]
                        else [("exoplanet"%string, fsub (of_Z 1) conf);
                              ("no_planet"%string, conf)])
                       flux time regs
                       (Build_AnalysisMetadata
                          (p_period_days (params sample))
                          (p_transit_duration (params sample))
                          (p_planet_radius (params sample))
                          (sample_name sample) "Transit")
                       (Some
                          (Build_SHAPExplanation (sanitize scaled) top
                             (_generate_explanation format_1f label conf top regs)
                             (lit 0.5)
                             (nan_to_num1 (lit 0.5) float_max (fneg float_max)
                                (clip1 (lit 0.0) (lit 1.0)
                                       (fadd (lit 0.5) (np_mean raw))))))
                       "CosmicNet-v1.0" t), s')).
  { unfold predict_, predict. rewrite Hf. unfold mbind. rewrite E.
    cbv beta iota delta [ok].
    rewrite sanitize_floats_Q. unfold mlift, validate.
    cbn [confidence_score].
    replace (flt conf (of_Z 0)) with false
      by (symmetry; apply Q_flt_false; change (0 <= conf); lra).
    replace (flt (of_Z 1) conf) with false
      by (symmetry; apply Q_flt_false; change (conf <= 1); lra).
    reflexivity. }
  eexists _, s'. split; [exact P|].
  split; [unfold predict_exoplanet_, predict_exoplanet; fold predict_;
          rewrite P; reflexivity|].
  cbn [classification confidence_score light_curve_data time_points analysis
       star_name model_version processing_time_ms shap_explanation].
  repeat split; auto.
  eexists. split; [reflexivity|]. cbn [feature_importance].
  rewrite sanitize_length, Hs, Lraw. exact Lf.
Qed.

End PredictionQ.

Lemma catalog_entry_is_answered_witness :
  exists r s',
    predict Standin.np_random_seed Standin.legacy_gauss Standin.np_exp
            Standin.np_sin Standin.np_pi Standin.format_1f
            (PyHash.str_hash (PyHash.key_of_seed 1)) [kepler_186f; koi_5123]
            "koi-5123" 12 tt
    = (ok r, s')
    /\ processing_time_ms r = 12%Z.
Proof.
  destruct (catalog_entry_is_answered
              Standin.rng_state Standin.np_random_seed Standin.legacy_gauss
              Standin.np_exp Standin.np_sin Standin.np_pi Standin.format_1f
              (PyHash.str_hash (PyHash.key_of_seed 1)) [kepler_186f; koi_5123]
              (fun _ => ""%string) "koi-5123"%string 12%Z tt koi_5123 eq_refl)
    as (r & s' & P & _ & _ & _ & _ & _ & _ & T & _).
  - discriminate.
  - exists r, s'. split; [exact P|exact T].
Defined.


Lemma seq_Z_In (k m : Z) :
  (0 <= k < m)%Z -> In k (map Z.of_nat (seq 0 (Z.to_nat m))).
Proof.
  intro H. apply in_map_iff. exists (Z.to_nat k). split; [lia|].
  apply in_seq. lia.
Qed.

Lemma confidences_are_exact (base : Q) (m : Z) :
  forallb (fun k => exact_confidence
                      (fadd (lit base) (fdiv (of_Z k) (of_Z 100))))
          (map Z.of_nat (seq 0 (Z.to_nat m))) = true ->
  forall k, (0 <= k < m)%Z ->
            exact_confidence (fadd (lit base) (fdiv (of_Z k) (of_Z 100)))
            = true.
Proof.
  intros H k Hk. rewrite forallb_forall in H. apply H, seq_Z_In, Hk.
Qed.

Lemma resolve_exact (hash : string -> Z) (truth id : string) :
  exact_confidence (snd (resolve (A := B64_arith) hash truth id)) = true.
Proof.
  unfold resolve.
  destruct (String.eqb truth "confirmed");
    [|destruct (String.eqb truth "candidate");
      [destruct (hash id mod 100 <? 70)%Z|]]; cbn [snd].
  - apply (confidences_are_exact 0.90 8); [vm_compute; reflexivity|].
    apply Z.mod_pos_bound. lia.
  - apply (confidences_are_exact 0.60 20); [vm_compute; reflexivity|].
    apply Z.mod_pos_bound. lia.
  - apply (confidences_are_exact 0.55 15); [vm_compute; reflexivity|].
    apply Z.mod_pos_bound. lia.
  - apply (confidences_are_exact 0.85 12); [vm_compute; reflexivity|].
    apply Z.mod_pos_bound. lia.
Qed.

Section ExactProbabilities.
Variable rng_state : Type.
Variable np_random_seed : Z -> rng_state.
Variable legacy_gauss : rng_state -> float * rng_state.
Variable np_exp : float -> float.
Variable np_sin : float -> float.
Variable np_pi : float.
Variable format_1f : float -> string.
Variable hash : string -> Z.

(** X19: in binary64 too: whatever the hash and the truth label, the two
    probabilities of a response add up to exactly 1.0 (no rounding error
    is left), one of them is the confidence score, and the confidence
    score lies between 0.55 and 0.97. *)
Theorem probabilities_sum_to_one_binary64 (sample : Sample float)
        (s : rng_state) :
  match _predict_synthetic np_random_seed legacy_gauss np_exp np_sin np_pi
                           format_1f hash sample s with
  | (inr r, _) =>
      forall t,
      exists pe pn,
        class_probabilities (r t)
        = [("exoplanet"%string, pe); ("no_planet"%string, pn)]
        /\ PrimFloat.eqb (fadd pe pn) (of_Z 1) = true
        /\ (pe = confidence_score (r t) \/ pn = confidence_score (r t))
        /\ PrimFloat.leb (lit 0.55) (confidence_score (r t)) = true
        /\ PrimFloat.leb (confidence_score (r t)) (lit 0.97) = true
  | (inl _, _) => True
  end.
Proof.
  destruct (_predict_synthetic _ _ _ _ _ _ _ sample s) as [[x|r] s'] eqn:E;
    [exact I|].
  apply predict_synthetic_inv in E.
  destruct E as (time & flux & regs & label & conf & s0 & e & Hc & _ & ->).
  apply classify_and_generate_inv in Hc. destruct Hc as (Hr & _).
  pose proof (resolve_exact hash (truth sample) (sample_id sample)) as X.
  rewrite <- Hr in X. cbn [snd] in X. unfold exact_confidence in X.
  apply andb_true_iff in X. destruct X as [X X4].
  apply andb_true_iff in X. destruct X as [X X3].
  apply andb_true_iff in X. destruct X as [X1 X2].
  intro t. cbn [class_probabilities confidence_score].
  destruct (String.eqb label "exoplanet"); eexists _, _;
    (split; [reflexivity|]); repeat split; auto.
Qed.
End ExactProbabilities.

Lemma sanitize_float_finite (x : float) : finite64 (sanitize_float x).
Proof.
  unfold sanitize_float, finite64.
  destruct (is_nan x) eqn:N; [split; vm_compute; reflexivity|].
  destruct (is_inf x) eqn:I; [|auto].
  destruct (fgt x (of_Z 0)); split; vm_compute; reflexivity.
Qed.

Lemma sanitize_float_fixes_finite (x : float) :
  finite64 x -> sanitize_float x = x.
Proof. intros [N I]. unfold sanitize_float. rewrite N, I. reflexivity. Qed.

Lemma sanitize_floats_reachable (r : AnalysisResponse float) :
  reachable_floats_finite (_sanitize_floats r).
Proof.
  unfold reachable_floats_finite, _sanitize_floats.
  cbn [confidence_score class_probabilities light_curve_data time_points].
  split; [apply sanitize_float_finite|].
  split; [|split]; apply Forall_map, Forall_forall; intros; cbn [snd];
    apply sanitize_float_finite.
Qed.

Lemma map_fixes (T : Type) (g : T -> T) (l : list T) :
  Forall (fun x => g x = x) l -> map g l = l.
Proof. induction 1 as [|x l Hx _ IH]; simpl; congruence. Qed.

Section SanitizedResponses.
Variable rng_state : Type.
Variable np_random_seed : Z -> rng_state.
Variable legacy_gauss : rng_state -> float * rng_state.
Variable np_exp : float -> float.
Variable np_sin : float -> float.
Variable np_pi : float.
Variable format_1f : float -> string.
Variable hash : string -> Z.
Variable samples_db : list (Sample float).

(** X20: [_sanitize_floats] in binary64.  After it, the confidence score,
    every class probability, every flux value and every time point is
    finite; applying it twice is applying it once, and a response whose
    values are finite already is returned unchanged.  So in every response
    of [predict] these values are finite and the confidence score is
    neither below 0 nor above 1. *)
Theorem sanitized_floats_are_finite :
  (forall r : AnalysisResponse float,
      reachable_floats_finite (_sanitize_floats r)
      /\ _sanitize_floats (_sanitize_floats r) = _sanitize_floats r
      /\ (reachable_floats_finite r -> _sanitize_floats r = r))
  /\ (forall id t s,
         match predict np_random_seed legacy_gauss np_exp np_sin np_pi
                       format_1f hash samples_db id t s with
         | (inr r, _) =>
             reachable_floats_finite r
             /\ flt (confidence_score r) (of_Z 0) = false
             /\ flt (of_Z 1) (confidence_score r) = false
         | (inl _, _) => True
         end).
Proof.
  assert (Fix : forall r : AnalysisResponse float,
             reachable_floats_finite r -> _sanitize_floats r = r).
  { intros [c cs cp lc tp hr an sh mv pt] (H1 & H2 & H3 & H4).
    cbn [confidence_score class_probabilities light_curve_data time_points]
      in *.
    unfold _sanitize_floats.
    cbn [classification confidence_score class_probabilities light_curve_data
         time_points highlighted_regions analysis shap_explanation
         model_version processing_time_ms].
    rewrite (sanitize_float_fixes_finite cs H1).
    rewrite (map_fixes _ sanitize_float lc),
      (map_fixes _ sanitize_float tp),
      (map_fixes _ (fun kv : string * float =>
                      (fst kv, sanitize_float (snd kv))) cp);
      [reflexivity| | |].
    - eapply Forall_impl; [|exact H2]. intros [k v] Hv. cbn [fst snd] in *.
      now rewrite sanitize_float_fixes_finite.
    - eapply Forall_impl; [|exact H4]. apply sanitize_float_fixes_finite.
    - eapply Forall_impl; [|exact H3]. apply sanitize_float_fixes_finite. }
  split.
  - intro r. split; [apply sanitize_floats_reachable|].
    split; [apply Fix, sanitize_floats_reachable|apply Fix].
  - intros id t s. unfold predict.
    destruct (find _ samples_db) as [sample|]; [|exact I].
    unfold mbind.
    destruct (_predict_synthetic _ _ _ _ _ _ _ sample s) as [[e|r0] s'];
      [exact I|].
    unfold mlift, validate.
    destruct (flt (confidence_score (_sanitize_floats (r0 t))) (of_Z 0)) eqn:L;
      [exact I|].
    destruct (flt (of_Z 1) (confidence_score (_sanitize_floats (r0 t)))) eqn:U;
      [exact I|].
    cbn [orb]. cbv beta iota delta [ok].
    split; [apply sanitize_floats_reachable|]. split; assumption.
Qed.
End SanitizedResponses.

Section ResponseGrid.
Variable rng_state : Type.
Variable np_random_seed : Z -> rng_state.
Variable legacy_gauss : rng_state -> float * rng_state.
Variable np_exp : float -> float.
Variable np_sin : float -> float.
Variable np_pi : float.
Variable format_1f : float -> string.
Variable hash : string -> Z.
Variable samples_db : list (Sample float).

(** X21: the time points of a response, in binary64.  Every response of
    [predict] carries the grid of [np.linspace(0, 30, 1000)], untouched by
    [_sanitize_floats], and 1000 flux values; the grid has 1000 finite
    entries, starts at 0.0, ends at exactly 30.0 and is strictly
    increasing. *)
Theorem response_grid_binary64 :
  let grid := np_linspace (A := B64_arith) (of_Z 0) (of_Z 30) 1000 in
  (forall id t s,
      match predict np_random_seed legacy_gauss np_exp np_sin np_pi
                    format_1f hash samples_db id t s with
      | (inr r, _) =>
          time_points r = grid
          /\ List.length (light_curve_data r) = 1000%nat
      | (inl _, _) => True
      end)
  /\ List.length grid = 1000%nat
  /\ increasing64 grid = true
  /\ hd nan grid = 0%float
  /\ last grid nan = 30%float
  /\ Forall finite64 grid.
Proof.
  cbv zeta.
  assert (Fin : forallb (fun x => negb (is_nan x) && negb (is_inf x))
                        (np_linspace (A := B64_arith) (of_Z 0) (of_Z 30) 1000)
                = true) by (vm_compute; reflexivity).
  assert (G : Forall finite64
                     (np_linspace (A := B64_arith) (of_Z 0) (of_Z 30) 1000)).
  { rewrite forallb_forall in Fin. apply Forall_forall. intros x Hx.
    specialize (Fin x Hx). apply andb_true_iff in Fin. destruct Fin as [N I].
    apply negb_true_iff in N, I. split; assumption. }
  split; [|split; [apply np_linspace_length|]].
  - intros id t s. unfold predict.
    destruct (find _ samples_db) as [sample|]; [|exact I].
    unfold mbind.
    destruct (_predict_synthetic _ _ _ _ _ _ _ sample s) as [[e|r0] s'] eqn:E;
      [exact I|].
    apply predict_synthetic_inv in E.
    destruct E as (time & flux & regs & label & conf & s0 & e & Hc & _ & ->).
    apply classify_and_generate_inv in Hc. destruct Hc as (_ & -> & Lf & _).
    unfold mlift, validate.
    destruct (_ || _); [exact I|]. cbv beta iota delta [ok].
    cbn [_sanitize_floats time_points light_curve_data].
    split; [|rewrite length_map; exact Lf].
    apply map_fixes. eapply Forall_impl; [|exact G].
    apply sanitize_float_fixes_finite.
  - split; [vm_compute; reflexivity|].
    split; [vm_compute; reflexivity|].
    split; [vm_compute; reflexivity|exact G].
Qed.
End ResponseGrid.

(** ** Configuration and the other routes *)

Section Strings.

Lemma py_lstrip_head (s : string) :
  py_lstrip s = EmptyString
  \/ exists c r, py_lstrip s = String c r /\ py_isspace c = false.
Proof.
  induction s as [|c s IH]; simpl; [auto|].
  destruct (py_isspace c) eqn:E; [exact IH|]. right. exists c, s. auto.
Qed.

Lemma py_lstrip_fixed (c : ascii) (r : string) :
  py_isspace c = false -> py_lstrip (String c r) = String c r.
Proof. intro H. simpl. rewrite H. reflexivity. Qed.

Lemma py_rstrip_head (c : ascii) (r : string) :
  py_isspace c = false -> exists r', py_rstrip (String c r) = String c r'.
Proof.
  intro H. simpl. destruct (py_rstrip r); [rewrite H|]; eexists; reflexivity.
Qed.

Lemma py_rstrip_idem (s : string) : py_rstrip (py_rstrip s) = py_rstrip s.
Proof.
  induction s as [|c s IH]; [reflexivity|]. simpl.
  destruct (py_rstrip s) as [|x r] eqn:E.
  - destruct (py_isspace c) eqn:Ec; [reflexivity|]. simpl. rewrite Ec. reflexivity.
  - simpl in IH |- *. rewrite IH. reflexivity.
Qed.

Lemma py_strip_idem (s : string) : py_strip (py_strip s) = py_strip s.
Proof.
  unfold py_strip. destruct (py_lstrip_head s) as [->|(c & r & -> & Hc)].
  - reflexivity.
  - destruct (py_rstrip_head c r Hc) as [r' E]. rewrite E.
    rewrite (py_lstrip_fixed c r' Hc), <- E. apply py_rstrip_idem.
Qed.

Lemma occurs_lstrip (c : ascii) (s : string) :
  occurs c s = false -> occurs c (py_lstrip s) = false.
Proof.
  induction s as [|x s IH]; simpl; [auto|]. intro H.
  apply orb_false_iff in H. destruct H as [H1 H2].
  destruct (py_isspace x); [auto|]. simpl. rewrite H1, H2. reflexivity.
Qed.

Lemma occurs_rstrip (c : ascii) (s : string) :
  occurs c s = false -> occurs c (py_rstrip s) = false.
Proof.
  induction s as [|x s IH]; simpl; [auto|]. intro H.
  apply orb_false_iff in H. destruct H as [H1 H2]. specialize (IH H2).
  destruct (py_rstrip s) as [|y r].
  - destruct (py_isspace x); [reflexivity|]. simpl. rewrite H1. reflexivity.
  - simpl in IH |- *. rewrite H1, IH. reflexivity.
Qed.

Lemma occurs_strip (c : ascii) (s : string) :
  occurs c s = false -> occurs c (py_strip s) = false.
Proof. intro H. apply occurs_rstrip, occurs_lstrip, H. Qed.

Lemma py_split_nonempty (sep : ascii) (s : string) : py_split sep s <> [].
Proof.
  destruct s as [|c s]; simpl; [discriminate|].
  destruct (Ascii.eqb c sep); [discriminate|].
  destruct (py_split sep s); discriminate.
Qed.

Lemma py_split_pieces (sep : ascii) (s : string) :
  Forall (fun piece => occurs sep piece = false) (py_split sep s).
Proof.
  induction s as [|c s IH]; simpl.
  - constructor; [reflexivity|constructor].
  - destruct (Ascii.eqb c sep) eqn:E.
    + constructor; [reflexivity|exact IH].
    + destruct (py_split sep s) as [|p ps]; [repeat constructor; simpl; now rewrite E|].
      inversion IH as [|? ? Hp Hps]; subst.
      constructor; [simpl; rewrite E, Hp; reflexivity|exact Hps].
Qed.

Lemma py_split_no_sep (sep : ascii) (s : string) :
  occurs sep s = false -> py_split sep s = [s].
Proof.
  induction s as [|c s IH]; simpl; [reflexivity|]. intro H.
  apply orb_false_iff in H. destruct H as [H1 H2].
  rewrite H1, (IH H2). reflexivity.
Qed.

Lemma py_split_app (sep : ascii) (x rest : string) :
  occurs sep x = false ->
  py_split sep (x ++ String sep rest) = x :: py_split sep rest.
Proof.
  induction x as [|c x IH]; simpl; intro H.
  - rewrite Ascii.eqb_refl. reflexivity.
  - apply orb_false_iff in H. destruct H as [H1 H2].
    rewrite H1, (IH H2). reflexivity.
Qed.

Lemma py_split_join (sep : ascii) (l : list string) :
  l <> [] -> Forall (fun x => occurs sep x = false) l ->
  py_split sep (py_join (String sep EmptyString) l) = l.
Proof.
  intros N H. induction H as [|x l Hx Hl IH]; [congruence|].
  destruct l as [|y l].
  - simpl. apply py_split_no_sep, Hx.
  - change (py_join (String sep "") (x :: y :: l))
      with (x ++ String sep (py_join (String sep "") (y :: l)))%string.
    rewrite (py_split_app sep x _ Hx), IH; [reflexivity|discriminate].
Qed.
End Strings.

Section Origins.

Lemma kept_piece_is_clean (o : string) :
  occurs "," o = false -> py_strip o <> EmptyString ->
  clean_origin (py_strip o).
Proof.
  intros H N. split; [exact N|]. split; [apply occurs_strip, H|].
  apply py_strip_idem.
Qed.

Lemma origins_of_pieces (pieces : list string) :
  Forall (fun piece => occurs "," piece = false) pieces ->
  Forall clean_origin
         (flat_map (fun o => match py_strip o with
                             | EmptyString => []
                             | stripped => [stripped]
                             end) pieces).
Proof.
  induction 1 as [|o l Ho _ IH]; simpl; [constructor|].
  destruct (py_strip o) as [|c r] eqn:E; [exact IH|].
  simpl. constructor; [|exact IH]. rewrite <- E.
  apply kept_piece_is_clean; [exact Ho|]. rewrite E. discriminate.
Qed.

(** X22: the CORS origins.  Without [FRONTEND_ORIGINS], or with an empty
    value, every origin is allowed ([*]).  With a non-empty value the
    origins are its comma-separated pieces, stripped, without the blank
    ones: each is non-empty, has no comma and no white space at either
    end; a value of blank pieces only (a lone comma, say) allows no origin
    at all. *)
Theorem allowed_origins_are_clean (origins_env : option string) :
  (origins_env = None \/ origins_env = Some EmptyString ->
   allow_origins origins_env = ["*"%string])
  /\ (forall s, origins_env = Some s -> s <> EmptyString ->
                Forall clean_origin (allow_origins origins_env)
                /\ (Forall (fun piece => py_strip piece = EmptyString)
                           (py_split "," s) ->
                    allow_origins origins_env = [])).
Proof.
  split.
  - intros [-> | ->]; reflexivity.
  - intros s -> N. destruct s as [|c s]; [congruence|].
    unfold allow_origins. split.
    + apply origins_of_pieces, py_split_pieces.
    + generalize (py_split "," (String c s)).
      induction 1 as [|o l Ho _ IH]; simpl; [reflexivity|].
      rewrite Ho. exact IH.
Qed.

Lemma strip_clean (o : string) :
  clean_origin o ->
  match py_strip o with EmptyString => [] | stripped => [stripped] end = [o].
Proof.
  intros (N & _ & E). rewrite E. destruct o; [congruence|reflexivity].
Qed.

(** X23: a non-empty list of origins that are non-empty, without comma
    and without white space at either end, joined with commas, is read
    back as the same list. *)
Theorem origins_round_trip (origins : list string) :
  origins <> [] -> Forall clean_origin origins ->
  allow_origins (Some (py_join "," origins)) = origins.
Proof.
  intros N H.
  assert (J : py_join "," origins <> EmptyString).
  { destruct H as [|o l (No & _) _]; [congruence|].
    destruct o as [|c o]; [congruence|]. destruct l; discriminate. }
  unfold allow_origins.
  destruct (py_join "," origins) as [|c j] eqn:E; [congruence|].
  rewrite <- E. rewrite py_split_join; [|exact N|].
  - clear N J E. induction H as [|o l Ho _ IH]; [reflexivity|].
    cbn [flat_map]. rewrite (strip_clean o Ho), IH. reflexivity.
  - eapply Forall_impl; [|exact H]. intros o (_ & C & _). exact C.
Qed.

Lemma origins_round_trip_witness :
  allow_origins
    (Some "https://cosmicoptic.example,http://localhost:3000"%string)
  = ["https://cosmicoptic.example"; "http://localhost:3000"]%string.
Proof.
  apply (origins_round_trip
           ["https://cosmicoptic.example"; "http://localhost:3000"]%string).
  - discriminate.
  - repeat constructor; discriminate.
Defined.
End Origins.

Section UploadRoute.
Context {F : Type} {A : Arith F}.
Variable rng_state : Type.
Variable np_random_seed : Z -> rng_state.
Variable legacy_gauss : rng_state -> F * rng_state.
Variable np_exp : F -> F.
Variable np_sin : F -> F.
Variable np_pi : F.
Variable format_1f : F -> string.
Variable hash : string -> Z.
Variable samples_db : list (Sample F).
Variable str_of_exn : exn -> string.
Variable random_state : Type.
Variable randbelow : nat -> random_state -> nat * random_state.

Let upload :=
  predict_uploaded_file np_random_seed legacy_gauss np_exp np_sin np_pi
                        format_1f hash samples_db str_of_exn randbelow.
Let predict_ :=
  predict np_random_seed legacy_gauss np_exp np_sin np_pi format_1f hash
          samples_db.

(** X24: [POST /api/predict/upload] refuses a file before doing any
    work: with status 400 and the list of allowed types when the
    lower-cased extension of its name is not one of [.csv], [.fits],
    [.txt], [.json]; with status 400 when the extension is allowed and the
    content is longer than 10485760 bytes.  In both cases neither random
    generator has moved: no sample was picked and nothing was
    predicted. *)
Theorem upload_is_checked_before_any_work
        (filename : string) (file_size t : Z) (g : random_state)
        (s : rng_state) :
  let file_ext := py_lower (snd (splitext filename)) in
  (~ In file_ext [".csv"; ".fits"; ".txt"; ".json"]%string ->
   upload (Some filename) file_size t (g, s)
   = (HTTPException 400
        "Invalid file type. Allowed: .csv, .fits, .txt, .json", (g, s)))
  /\ (In file_ext [".csv"; ".fits"; ".txt"; ".json"]%string ->
      (10485760 < file_size)%Z ->
      upload (Some filename) file_size t (g, s)
      = (HTTPException 400 "File too large. Maximum size is 10 MB.",
         (g, s))).
Proof.
  intro file_ext.
  assert (E : existsb (String.eqb file_ext) allowed_extensions = true
              <-> In file_ext [".csv"; ".fits"; ".txt"; ".json"]%string).
  { rewrite existsb_exists. unfold allowed_extensions. split.
    - intros (x & Hx & Ex). apply String.eqb_eq in Ex. subst x. exact Hx.
    - intro H. exists file_ext. split; [exact H|apply String.eqb_refl]. }
  unfold upload, predict_uploaded_file. fold file_ext.
  split.
  - intro N. destruct (existsb _ _); [exfalso; apply N, E; reflexivity|].
    reflexivity.
  - intros I L. rewrite (proj2 E I). cbn [negb].
    replace (10 * 1024 * 1024 <? file_size)%Z with true
      by (symmetry; apply Z.ltb_lt; lia).
    reflexivity.
Qed.

(** X25: an accepted upload (allowed extension, at most 10485760 bytes)
    is answered with the prediction for the sample that [random.choice]
    picks among the eight identifiers of lines 99-103, whatever the file
    holds; an exception of [predict], the [ValueError] of a sample missing
    from the catalog included, becomes status 500 with the detail
    [Upload failed: ...] (the same [ValueError] is status 404 on
    [/api/predict]). *)
Theorem accepted_upload_is_a_sample_prediction
        (filename : string) (file_size t : Z) (g : random_state)
        (s : rng_state) :
  In (py_lower (snd (splitext filename)))
     [".csv"; ".fits"; ".txt"; ".json"]%string ->
  (file_size <= 10485760)%Z ->
  (fst (randbelow 8 g) < 8)%nat ->
  exists random_sample,
    nth_error upload_sample_ids (fst (randbelow 8 g)) = Some random_sample
    /\ upload (Some filename) file_size t (g, s)
       = match predict_ random_sample t s with
         | (inr result, s') => (Http200 result, (snd (randbelow 8 g), s'))
         | (inl e, s') =>
             (HTTPException 500 ("Upload failed: " ++ str_of_exn e),
              (snd (randbelow 8 g), s'))
         end.
Proof.
  intros I L R.
  assert (E : existsb (String.eqb (py_lower (snd (splitext filename))))
                      allowed_extensions = true).
  { apply existsb_exists. eexists. split; [exact I|apply String.eqb_refl]. }
  unfold upload, predict_uploaded_file. rewrite E. cbn [negb].
  replace (10 * 1024 * 1024 <? file_size)%Z with false
    by (symmetry; apply Z.ltb_ge; lia).
  unfold random_choice.
  change (List.length upload_sample_ids) with 8%nat.
  cbv beta iota delta [upload_sample_ids].
  destruct (randbelow 8 g) as [k g'] eqn:Ek. cbn [fst snd] in *.
  destruct (nth_error _ k) as [x|] eqn:En.
  - exists x. split; [reflexivity|]. reflexivity.
  - exfalso. apply nth_error_None in En. simpl in En. lia.
Qed.
End UploadRoute.

Lemma accepted_upload_is_a_sample_prediction_witness :
  exists random_sample,
    nth_error upload_sample_ids 3 = Some random_sample
    /\ predict_uploaded_file
         Standin.np_random_seed Standin.legacy_gauss Standin.np_exp
         Standin.np_sin Standin.np_pi Standin.format_1f
         (PyHash.str_hash (PyHash.key_of_seed 1)) [koi_5123]
         (fun _ => ""%string) (fun (_ : nat) (g : unit) => (3%nat, g))
         (Some "curve.CSV"%string) 2048 0 (tt, tt)
       = match predict Standin.np_random_seed Standin.legacy_gauss
                       Standin.np_exp Standin.np_sin Standin.np_pi
                       Standin.format_1f
                       (PyHash.str_hash (PyHash.key_of_seed 1)) [koi_5123]
                       random_sample 0 tt with
         | (inr result, s') => (Http200 result, (tt, s'))
         | (inl e, s') =>
             (HTTPException 500 ("Upload failed: " ++ ""), (tt, s'))
         end.
Proof.
  apply (accepted_upload_is_a_sample_prediction
           Standin.rng_state Standin.np_random_seed Standin.legacy_gauss
           Standin.np_exp Standin.np_sin Standin.np_pi Standin.format_1f
           (PyHash.str_hash (PyHash.key_of_seed 1)) [koi_5123]
           (fun _ => ""%string) unit (fun (_ : nat) (g : unit) => (3%nat, g))
           "curve.CSV"%string 2048%Z 0%Z tt tt).
  - vm_compute. auto.
  - lia.
  - simpl. lia.
Defined.

Section Listing.
Context {F : Type} {A : Arith F}.
Variable rng_state : Type.
Variable np_random_seed : Z -> rng_state.
Variable legacy_gauss : rng_state -> F * rng_state.
Variable np_exp : F -> F.
Variable np_sin : F -> F.
Variable np_pi : F.
Variable format_1f : F -> string.
Variable hash : string -> Z.

Lemma find_first_match (db : list (Sample F)) (id : string) :
  In id (map (@sample_id F) db) ->
  exists sample,
    find (fun s => String.eqb (sample_id s) id) db = Some sample
    /\ sample_id sample = id /\ In sample db.
Proof.
  induction db as [|x db IH]; simpl; [intros []|].
  destruct (String.eqb_spec (sample_id x) id) as [E|N].
  - intros _. exists x. auto.
  - intros [E|H]; [contradiction|].
    destruct (IH H) as (smp & H1 & H2 & H3). exists smp. auto.
Qed.

(** X26: [GET /api/samples] lists the catalog entries in order, with the
    identifier, name and description of each, and nothing that depends on
    the truth labels or the parameters; and [predict] finds every listed
    identifier: the request is served from the first entry that has it and
    never fails with the not-found [ValueError]. *)
Theorem listed_samples_are_known (catalog : list (CatalogEntry F)) :
  map summary_id (list_samples catalog)
  = map (fun e => sample_id (entry_sample e)) catalog
  /\ (forall catalog' : list (CatalogEntry F),
         map (fun e => (sample_id (entry_sample e),
                        sample_name (entry_sample e),
                        entry_description e)) catalog
         = map (fun e => (sample_id (entry_sample e),
                          sample_name (entry_sample e),
                          entry_description e)) catalog' ->
         list_samples catalog = list_samples catalog')
  /\ (forall x, In x (list_samples catalog) ->
        exists sample,
          In sample (map (@entry_sample F) catalog)
          /\ sample_id sample = summary_id x
          /\ forall t s,
              predict np_random_seed legacy_gauss np_exp np_sin np_pi
                      format_1f hash (map (@entry_sample F) catalog)
                      (summary_id x) t s
              = mbind (_predict_synthetic np_random_seed legacy_gauss np_exp
                                          np_sin np_pi format_1f hash sample)
                      (fun result =>
                         mlift (validate (_sanitize_floats (result t))))
                      s).
Proof.
  split; [|split].
  - unfold list_samples. rewrite map_map. reflexivity.
  - intros catalog' H. unfold list_samples.
    set (g := fun p : string * string * string =>
                Build_SampleSummary (fst (fst p)) (snd (fst p)) (snd p)).
    apply (f_equal (map g)) in H. rewrite !map_map in H. exact H.
  - intros x Hx. unfold list_samples in Hx. apply in_map_iff in Hx.
    destruct Hx as (e & <- & He). cbn [summary_id].
    destruct (find_first_match (map (@entry_sample F) catalog)
                               (sample_id (entry_sample e)))
      as (smp & Hf & Hid & Hin).
    { rewrite map_map. apply in_map_iff. exists e. auto. }
    exists smp. split; [exact Hin|]. split; [exact Hid|].
    intros t s. unfold predict. rewrite Hf. reflexivity.
Qed.
End Listing.
